(** * Microsoft-Rewards-Bot: page validation, recovery and remote control

  A shallow embedding of
  - [src/util/validation/PageValidator.ts] (page health classification,
    recovery redirect, post-task domain check),
  - the Discord command surface ([DiscordBot.hasPermission],
    [DiscordBot.handleAccounts]),
  - the execution controller's [start] operation,
  together with the properties the specification states about them.

  JavaScript strings are sequences of code units; they are embedded as
  [string], one [ascii] per code unit. *)

From Stdlib Require Import String Ascii List Bool Arith NArith ZArith Lia Permutation.
From Stdlib Require Import DecimalString.
Import ListNotations.
Open Scope list_scope.
Open Scope string_scope.

(* ================================================================== *)
(** * String primitives of the host language *)
(* ================================================================== *)

Module JsString.

(** [s.startsWith(pat)] *)
Fixpoint startsWith (s pat : string) {struct pat} : bool :=
  match pat with
  | EmptyString => true
  | String p pat' =>
      match s with
      | EmptyString => false
      | String c s' => Ascii.eqb c p && startsWith s' pat'
      end
  end.

(** [s.includes(pat)]: [pat] occurs in [s] as a contiguous run. *)
Fixpoint includes (s pat : string) : bool :=
  startsWith s pat ||
  match s with
  | EmptyString => false
  | String _ s' => includes s' pat
  end.

(** [s.substring(0, n)] *)
Fixpoint substring0 (n : nat) (s : string) : string :=
  match n, s with
  | S n', String c s' => String c (substring0 n' s')
  | _, _ => EmptyString
  end.

(** [s.split(sep)] for a one-character separator.  The result is never
    empty: the empty string splits into one empty segment. *)
Fixpoint split (sep : ascii) (s : string) : list string :=
  match s with
  | EmptyString => [EmptyString]
  | String c s' =>
      if Ascii.eqb c sep then EmptyString :: split sep s'
      else match split sep s' with
           | seg :: segs => String c seg :: segs
           | [] => [String c EmptyString]
           end
  end.

(** [xs.join(sep)] *)
Fixpoint join (sep : string) (xs : list string) : string :=
  match xs with
  | [] => EmptyString
  | [x] => x
  | x :: rest => x ++ sep ++ join sep rest
  end.

(** [String(n)] / [`${n}`] for a non-negative integer. *)
Definition ofNat (n : nat) : string :=
  NilEmpty.string_of_uint (Nat.to_uint n).

(** A string is truthy when it is not empty. *)
Definition truthy (s : string) : bool :=
  negb (String.eqb s EmptyString).

(** The line feed used by [join('\n')]. *)
Definition LF : string := String (ascii_of_nat 10) EmptyString.

(** Occurrence of a character, used to state facts about [split]. *)
Fixpoint hasChar (c : ascii) (s : string) : bool :=
  match s with
  | EmptyString => false
  | String d s' => Ascii.eqb d c || hasChar c s'
  end.

End JsString.

(* ================================================================== *)
(** * Effects: thrown values, promises, and a trace of external calls *)
(* ================================================================== *)

Module Effects.

(** What a [catch (error)] clause can receive.  The handlers of the
    source only ask [error instanceof Error ? error.message : String(error)]. *)
Inductive Thrown : Type :=
| ErrorObject (message : string)
| NonError (asString : string).

Definition errorText (e : Thrown) : string :=
  match e with
  | ErrorObject m => m
  | NonError s => s
  end.

(** Completion of a synchronous call. *)
Inductive Completion (A : Type) : Type :=
| Normal (a : A)
| Throw (e : Thrown).
Arguments Normal {A} a.
Arguments Throw {A} e.

(** A settled promise, as observed by [await] or [.catch]. *)
Inductive Settled (A : Type) : Type :=
| Resolved (a : A)
| Rejected (e : Thrown).
Arguments Resolved {A} a.
Arguments Rejected {A} e.

(** [p.catch(handler)] *)
Definition promise_catch {A} (p : Settled A) (handler : Thrown -> A) : Settled A :=
  match p with
  | Resolved a => Resolved a
  | Rejected e => Resolved (handler e)
  end.

Inductive LogLevel : Type := LevelLog | LevelWarn | LevelError.

(** Calls that leave the module, in the order they are made. *)
Inductive Event : Type :=
| EvUrl
| EvContent
| EvClose
| EvGoto (url : string) (waitUntil : string) (timeout : N)
| EvWaitForPageReady (timeoutMs : N)
| EvLog (isMobile : bool) (source message : string) (level : option LogLevel).

(** Recogniser of the page-ready wait, for statements about traces. *)
Definition isPageReadyWait (ev : Event) : bool :=
  match ev with EvWaitForPageReady _ => true | _ => false end.

(** Computations that may throw and that append to the trace. *)
Definition M (A : Type) : Type := list Event -> Completion A * list Event.

Definition ret {A} (a : A) : M A := fun tr => (Normal a, tr).

Definition bind {A B} (m : M A) (k : A -> M B) : M B :=
  fun tr =>
    match m tr with
    | (Normal a, tr') => k a tr'
    | (Throw e, tr') => (Throw e, tr')
    end.

Definition throw {A} (e : Thrown) : M A := fun tr => (Throw e, tr).

(** [try { body } catch (error) { handler }] *)
Definition try_catch {A} (body : M A) (handler : Thrown -> M A) : M A :=
  fun tr =>
    match body tr with
    | (Normal a, tr') => (Normal a, tr')
    | (Throw e, tr') => handler e tr'
    end.

Definition emit (ev : Event) : M unit := fun tr => (Normal tt, (tr ++ [ev])%list).

Definition lift {A} (c : Completion A) : M A := fun tr => (c, tr).

(** [await p] *)
Definition await {A} (p : Settled A) : M A :=
  match p with
  | Resolved a => ret a
  | Rejected e => throw e
  end.

(** Run from the empty trace. *)
Definition run {A} (m : M A) : Completion A * list Event := m [].

End Effects.

Declare Scope js_scope.
Delimit Scope js_scope with js.
Notation "x <- m ;; k" := (Effects.bind m (fun x => k))
  (at level 61, m at next level, right associativity) : js_scope.
Notation "m ;;; k" := (Effects.bind m (fun _ => k))
  (at level 61, right associativity) : js_scope.

(* ================================================================== *)
(** * src/util/validation/PageValidator.ts *)
(* ================================================================== *)

Module PageValidator.
Import JsString Effects.
Local Open Scope js_scope.

(** The browser page handle (Playwright's [Page]), by what each of its
    methods answers.  [url()] is synchronous: it returns or throws, and
    although it is typed [string] the source tests [!url], so an unset
    value is representable.  [content], [close] and [goto] are
    asynchronous: they return a promise, and a failure is a rejection.
    [goto] is given the target, the [waitUntil] option and the timeout in
    milliseconds. *)
Record Page : Type := {
  page_url : Completion (option string);
  page_content : Settled string;
  page_close : Settled unit;
  page_goto : string -> string -> N -> Settled unit
}.

(** The parts of the bot instance the validator reads. *)
Record Config : Type := {
  baseURL : string
}.

Record MicrosoftRewardsBot : Type := {
  isMobile : bool;
  config : Config
}.

Record PageCheckResult : Type := {
  invalid : bool;
  reason : option string
}.

Definition url (page : Page) : M (option string) :=
  emit EvUrl ;;; lift (page_url page).

Definition content (page : Page) : M (Settled string) :=
  emit EvContent ;;; ret (page_content page).

Definition close (page : Page) : M (Settled unit) :=
  emit EvClose ;;; ret (page_close page).

Definition goto (page : Page) (target waitUntil : string) (timeout : N)
  : M (Settled unit) :=
  emit (EvGoto target waitUntil timeout) ;;; ret (page_goto page target waitUntil timeout).

Definition log (bot : MicrosoftRewardsBot) (source message : string)
    (level : option LogLevel) : M unit :=
  emit (EvLog (isMobile bot) source message level).

(** [isRewardsDomain] *)
Definition isRewardsDomain (url : string) : bool :=
  includes url "rewards.bing.com" || includes url "rewards.microsoft.com".

(** [isBingDomain] *)
Definition isBingDomain (url : string) : bool :=
  includes url "bing.com".

(** The domain substrings [isBingDomain] and [isRewardsDomain] test for. *)
Definition allowedDomains : list string :=
  [ "bing.com"; "rewards.bing.com"; "rewards.microsoft.com" ].

(** The fixed catalogue scanned by [isInvalidPage], in source order. *)
Definition errorPatterns : list string :=
  [ "HTTP ERROR 400";
    "HTTP ERROR 403";
    "HTTP ERROR 404";
    "HTTP ERROR 500";
    "HTTP ERROR 502";
    "HTTP ERROR 503";
    "This page isn't working";
    "This page is not working";
    "This site can't be reached";
    "ERR_CONNECTION_REFUSED";
    "ERR_NAME_NOT_RESOLVED";
    "ERR_INTERNET_DISCONNECTED";
    "ERR_NETWORK_CHANGED";
    "ERR_CONNECTION_RESET";
    "ERR_CONNECTION_TIMED_OUT" ].

(** [for (const pattern of patterns) if (html.includes(pattern) ||
    bodyText.includes(pattern)) return ...]: the first pattern that occurs. *)
Fixpoint firstMatch (patterns : list string) (html bodyText : string)
  : option string :=
  match patterns with
  | [] => None
  | pattern :: rest =>
      if includes html pattern || includes bodyText pattern
      then Some pattern
      else firstMatch rest html bodyText
  end.

(** [!url] on the value [page.url()] answered. *)
Definition urlFalsy (u : option string) : bool :=
  match u with
  | None => true
  | Some s => negb (truthy s)
  end.

(** [url === lit] *)
Definition urlIs (u : option string) (lit : string) : bool :=
  match u with
  | None => false
  | Some s => String.eqb s lit
  end.

(** [`${result.reason}`] *)
Definition showReason (r : option string) : string :=
  match r with
  | Some s => s
  | None => "undefined"
  end.

Section WithLibraries.

(** cheerio, as used here: [load(html)] gives a query function [$];
    [$(selector).length] and [$(selector).text()] are the two readings
    taken from it.  Each may throw. *)
Variable Cheerio : Type.
Variable load : string -> Completion Cheerio.
Variable selectLength : Cheerio -> string -> Completion nat.
Variable selectText : Cheerio -> string -> Completion string.

(** [waitForPageReady] of [../browser/SmartWait]: an asynchronous wait
    bounded by [timeoutMs]. *)
Variable pageReady : Page -> N -> Settled unit.

Definition waitForPageReady (page : Page) (timeoutMs : N) : M (Settled unit) :=
  emit (EvWaitForPageReady timeoutMs) ;;; ret (pageReady page timeoutMs).

(** [isInvalidPage] *)
Definition isInvalidPage (page : Page) : M PageCheckResult :=
  try_catch
    (u <- url page ;;
     if urlFalsy u || urlIs u "about:blank" || urlIs u ""
     then ret {| invalid := true; reason := Some "blank page" |}
     else
       let u := match u with Some s => s | None => "" end in
       if startsWith u "chrome-error://" || startsWith u "edge://"
       then ret {| invalid := true; reason := Some "browser error page" |}
       else
         p <- content page ;;
         html <- await (promise_catch p (fun _ => "")) ;;
         if negb (truthy html) || Nat.ltb (String.length html) 100
         then ret {| invalid := true; reason := Some "empty page content" |}
         else
           dollar <- lift (load html) ;;
           n <- lift (selectLength dollar "body.neterror") ;;
           if Nat.ltb 0 n
           then ret {| invalid := true; reason := Some "network error" |}
           else
             bodyText <- lift (selectText dollar "body") ;;
             match firstMatch errorPatterns html bodyText with
             | Some pattern =>
                 ret {| invalid := true;
                        reason := Some ("HTTP/network error: " ++ pattern) |}
             | None => ret {| invalid := false; reason := None |}
             end)
    (fun error =>
       ret {| invalid := true;
              reason := Some ("page check failed: " ++ errorText error) |}).

(** [validateAndRedirect] *)
Definition validateAndRedirect (page : Page) (bot : MicrosoftRewardsBot)
    (closeOnInvalid : bool) : M bool :=
  result <- isInvalidPage page ;;
  if invalid result then
    log bot "PAGE-VALIDATOR"
        ("Invalid page detected: " ++ showReason (reason result))
        (Some LevelWarn) ;;;
    if closeOnInvalid then
      p <- close page ;;
      await (promise_catch p (fun _ => tt)) ;;;
      ret false
    else
      try_catch
        (log bot "PAGE-VALIDATOR" "Redirecting to rewards home page..." None ;;;
         p <- goto page (baseURL (config bot)) "domcontentloaded" 15000%N ;;
         await p ;;;
         w <- waitForPageReady page 10000%N ;;
         await (promise_catch w (fun _ => tt)) ;;;
         ret false)
        (fun navError =>
           let msg := errorText navError in
           log bot "PAGE-VALIDATOR" ("Failed to redirect to rewards: " ++ msg)
               (Some LevelError) ;;;
           ret false)
  else ret true.

End WithLibraries.

(** [validateActivityDomain].  [url.includes] on an unset value raises a
    [TypeError]; nothing in this function catches. *)
Definition validateActivityDomain (page : Page) (bot : MicrosoftRewardsBot)
  : M bool :=
  u <- url page ;;
  match u with
  | None =>
      throw (ErrorObject "Cannot read properties of undefined (reading 'includes')")
  | Some u =>
      if isBingDomain u || isRewardsDomain u
      then ret true
      else
        log bot "PAGE-VALIDATOR" ("Unexpected domain after click: " ++ u)
            (Some LevelWarn) ;;;
        ret false
  end.

(** A URL that passes the first two checks of [isInvalidPage]: neither
    blank nor on a browser-internal error scheme. *)
Definition ordinaryUrl (u : string) : Prop :=
  u <> "" /\ u <> "about:blank"
  /\ startsWith u "chrome-error://" = false
  /\ startsWith u "edge://" = false.

End PageValidator.

(* ================================================================== *)
(** * The Discord command surface ([DiscordBot]) *)
(* ================================================================== *)

Module DiscordBot.
Import JsString Effects.

(** An entry of [allowedUserIds]: the configuration file may hold the id
    as a string or as a number. *)
Inductive IdEntry (JsNumber : Type) : Type :=
| IdString (s : string)
| IdNumber (n : JsNumber).
Arguments IdString {JsNumber} s.
Arguments IdNumber {JsNumber} n.

Record DiscordBotConfig (JsNumber : Type) : Type := {
  enabled : bool;
  token : option string;
  guildId : option string;
  allowedUserIds : option (list (IdEntry JsNumber))
}.
Arguments enabled {JsNumber} _.
Arguments token {JsNumber} _.
Arguments guildId {JsNumber} _.
Arguments allowedUserIds {JsNumber} _.

Record Config (JsNumber : Type) : Type := {
  discordBot : option (DiscordBotConfig JsNumber)
}.
Arguments discordBot {JsNumber} _.

Record User : Type := { id : string }.

Record ChatInputCommandInteraction : Type := {
  user : User;
  commandName : string
}.

(** [DISCORD.COLOR_*] of [../constants], by name. *)
Inductive Color : Type :=
| COLOR_GRAY | COLOR_BLUE | COLOR_RED | COLOR_GREEN | COLOR_ORANGE.

(** An embed as built by [EmbedBuilder]; the timestamp is left out. *)
Record Embed : Type := {
  title : string;
  description : string;
  color : Color;
  footer : option string
}.

Record Reply : Type := {
  embeds : list Embed;
  ephemeral : bool
}.

(** [createEmbed] *)
Definition createEmbed (title description : string) (color : Color) : Embed :=
  {| title := title; description := description; color := color; footer := None |}.

(** [EmbedBuilder.setDescription(text)]: the builder validates the text
    it is given.  A description holds between 1 and 4096 characters; for
    any other text the call throws, and the error carries the message
    below.  The check matters where the text grows with the data, as the
    list of accounts does; the fixed texts and the controller's error
    texts of the other handlers are taken to fit. *)
Definition setDescription (text : string) : Completion string :=
  if Nat.leb 1 (String.length text) && Nat.leb (String.length text) 4096
  then Normal text
  else Throw (ErrorObject "Received one or more errors").

(** [createEmbed], as the handler of /accounts runs it: its description
    goes through [setDescription]. *)
Definition createEmbedChecked (title description : string) (color : Color)
  : Completion Embed :=
  match setDescription description with
  | Normal text => Normal (createEmbed title text color)
  | Throw error => Throw error
  end.

(** [xs.includes(x)] on an array of strings. *)
Definition arrayIncludes (xs : list string) (x : string) : bool :=
  existsb (String.eqb x) xs.

(** [xs.map((x, idx) => f(x, idx))] *)
Fixpoint mapFrom {A B : Type} (f : A -> nat -> B) (idx : nat) (xs : list A)
  : list B :=
  match xs with
  | [] => []
  | x :: rest => f x idx :: mapFrom f (S idx) rest
  end.

Definition mapWithIndex {A B : Type} (f : A -> nat -> B) (xs : list A) : list B :=
  mapFrom f 0 xs.

Section Permission.

Variable JsNumber : Type.
(** [String(n)] on a number. *)
Variable numberToString : JsNumber -> string.

(** [this.config.discordBot?.allowedUserIds || []] *)
Definition configuredIds (config : Config JsNumber) : list (IdEntry JsNumber) :=
  match discordBot config with
  | Some d => match allowedUserIds d with Some ids => ids | None => [] end
  | None => []
  end.

(** [String(id)] *)
Definition toString (e : IdEntry JsNumber) : string :=
  match e with
  | IdString s => s
  | IdNumber n => numberToString n
  end.

(** [hasPermission] *)
Definition hasPermission (config : Config JsNumber)
    (interaction : ChatInputCommandInteraction) : bool :=
  let allowedUserIds := configuredIds config in
  if Nat.eqb (List.length allowedUserIds) 0 then true
  else
    let allowedStrings := map toString allowedUserIds in
    arrayIncludes allowedStrings (id (user interaction)).

End Permission.

(** The redaction inside [handleAccounts]: first two characters of the
    local part, then the domain. *)
Definition redactEmail (email : string) : string :=
  let parts := split "@"%char email in
  match nth_error parts 0, nth_error parts 1 with
  | Some local, Some domain =>
      if truthy local && truthy domain
      then substring0 2 local ++ "***@" ++ domain
      else "***@***"
  | _, _ => "***@***"
  end.

(** Every at-sign of [s] stands right after an asterisk, [prev] being the
    character before [s]. *)
Fixpoint guardedAfter (prev : ascii) (s : string) : bool :=
  match s with
  | EmptyString => true
  | String c s' =>
      (negb (Ascii.eqb c "@") || Ascii.eqb prev "*") && guardedAfter c s'
  end.

(** No at-sign occurs in [s]. *)
Definition atFree (s : string) : Prop := hasChar "@"%char s = false.

(** What may follow the first two segments of an address: nothing, or a
    further at-sign and anything. *)
Definition segmentEnd (rest : string) : Prop :=
  rest = "" \/ exists r, rest = "@" ++ r.

(** The redacted projection of an address, in the words of the
    specification: the first two characters of the local part, the
    marker, and the domain; an address that does not split into a local
    part and a domain (no at-sign, nothing before it, or nothing after
    it) shows as the fixed mask. *)
Inductive Redacted : string -> string -> Prop :=
| RedactedSplit (local domain rest : string) :
    atFree local -> atFree domain -> segmentEnd rest ->
    local <> "" -> domain <> "" ->
    Redacted (local ++ "@" ++ domain ++ rest)
             (substring0 2 local ++ "***@" ++ domain)
| RedactedNoAt (email : string) :
    atFree email -> Redacted email "***@***"
| RedactedNoLocal (rest : string) :
    Redacted ("@" ++ rest) "***@***"
| RedactedNoDomain (local rest : string) :
    atFree local -> segmentEnd rest ->
    Redacted (local ++ "@" ++ rest) "***@***".

Section Accounts.

(** An account of the accounts file; the handler reads its [email]. *)
Variable Account : Type.
Variable email : Account -> string.

Definition accountLine (acc : Account) (idx : nat) : string :=
  let redacted := redactEmail (email acc) in
  ofNat (idx + 1) ++ ". " ++ redacted.

Definition accountList (accounts : list Account) : string :=
  join LF (mapWithIndex accountLine accounts).

(** [{ embeds: [embed], ephemeral: true }], once the embed is built. *)
Definition privately (embed : Completion Embed) : Completion Reply :=
  match embed with
  | Normal e => Normal {| embeds := [e]; ephemeral := true |}
  | Throw error => Throw error
  end.

(** The embed of the listing.  Of the builder's calls only
    [setDescription] is given a text that grows with the accounts. *)
Definition listingEmbed (accounts : list Account) : Completion Embed :=
  match setDescription (accountList accounts) with
  | Normal text =>
      Normal {| title := "👥 Configured Accounts";
                description := text;
                color := COLOR_BLUE;
                footer := Some ("Total: " ++ ofNat (List.length accounts)
                                  ++ " account(s)") |}
  | Throw error => Throw error
  end.

(** [handleAccounts]: the reply sent, if the handler completes, and the
    loaded accounts as the handler leaves them.  What is thrown inside
    the [try] block, by the loader or by the builder, is answered by the
    [catch] clause, whose own embed is built the same way. *)
Definition handleAccounts (loadAccounts : Completion (list Account))
  : Completion Reply * option (list Account) :=
  let attempt :=
    match loadAccounts with
    | Normal accounts =>
        if Nat.eqb (List.length accounts) 0 then
          privately (createEmbedChecked "👥 Accounts" "No accounts configured."
                       COLOR_GRAY)
        else privately (listingEmbed accounts)
    | Throw error => Throw error
    end in
  let loaded :=
    match loadAccounts with
    | Normal accounts => Some accounts
    | Throw _ => None
    end in
  (match attempt with
   | Normal reply => Normal reply
   | Throw error =>
       privately (createEmbedChecked "❌ Error"
                    ("Failed to load accounts: " ++ errorText error) COLOR_RED)
   end, loaded).

End Accounts.

End DiscordBot.

(* ================================================================== *)
(** * The execution controller *)
(* ================================================================== *)

Module ExecutionController.

(** Modelled from the spec: the controller behind [botController]
    (imported from [../dashboard/BotController]) is not among the source
    files; only its caller [DiscordBot.handleRun] is.  The definitions of
    this module follow sections 3 and 4.3 of the specification: the four
    states, the run status, and [start] as a check-and-set on the state
    followed by the launch of the supervised process. *)
Inductive State : Type := Idle | Starting | Running | Stopping.

Record RunStatus : Type := {
  running : bool;
  processId : option nat;
  startedAt : option nat;
  errorMessage : option string
}.

Record Controller : Type := {
  state : State;
  status : RunStatus
}.

Record OperationResult : Type := {
  success : bool;
  error : option string
}.

(** What the supervised-process launcher answers to one launch request:
    the process identity and the start timestamp, or the cause of the
    failure. *)
Inductive Launch : Type :=
| Launched (pid : nat) (timestamp : nat)
| LaunchFailed (cause : string).

Definition idleStatus : RunStatus :=
  {| running := false; processId := None; startedAt := None; errorMessage := None |}.

Definition initial : Controller := {| state := Idle; status := idleStatus |}.

Definition ok : OperationResult := {| success := true; error := None |}.

Definition failure (cause : string) : OperationResult :=
  {| success := false; error := Some cause |}.

Definition alreadyRunning : OperationResult := failure "already running".

(** One call of [start()] in flight: it has not looked at the state yet,
    or it holds the [Starting] state and is launching, or it has
    returned. *)
Inductive Call : Type :=
| Pending (answer : Launch)
| Launching (answer : Launch)
| Returned (result : OperationResult).

(** Modelled from the spec: [start()] of the absent controller, cut at
    its suspension point so that two calls can overlap.  First step, the
    check-and-set: if the state is not [Idle], return "already running"
    without side effects, otherwise move to [Starting].  Second step:
    launch; on success record identity and timestamp, move to [Running]
    and return success; on failure move back to [Idle] and return the
    cause. *)
Definition stepCall (c : Controller) (k : Call) : Controller * Call :=
  match k with
  | Pending answer =>
      match state c with
      | Idle => ({| state := Starting; status := status c |}, Launching answer)
      | _ => (c, Returned alreadyRunning)
      end
  | Launching (Launched pid timestamp) =>
      ({| state := Running;
          status := {| running := true; processId := Some pid;
                       startedAt := Some timestamp; errorMessage := None |} |},
       Returned ok)
  | Launching (LaunchFailed cause) =>
      ({| state := Idle;
          status := {| running := false; processId := None;
                       startedAt := None; errorMessage := Some cause |} |},
       Returned (failure cause))
  | Returned result => (c, Returned result)
  end.

(** Modelled from the spec: [start()] of the absent controller, run to
    completion without interruption, as section 4.3 words it. *)
Definition start (answer : Launch) (c : Controller) : Controller * OperationResult :=
  match state c with
  | Idle =>
      match answer with
      | Launched pid timestamp =>
          ({| state := Running;
              status := {| running := true; processId := Some pid;
                           startedAt := Some timestamp; errorMessage := None |} |},
           ok)
      | LaunchFailed cause =>
          ({| state := Idle;
              status := {| running := false; processId := None;
                           startedAt := None; errorMessage := Some cause |} |},
           failure cause)
      end
  | _ => (c, alreadyRunning)
  end.

(** Two calls sharing one controller. *)
Record System : Type := {
  controller : Controller;
  first : Call;
  second : Call
}.

(** Which call takes the next atomic step. *)
Inductive Turn : Type := TurnFirst | TurnSecond.

Definition stepSystem (s : System) (t : Turn) : System :=
  match t with
  | TurnFirst =>
      let (c, k) := stepCall (controller s) (first s) in
      {| controller := c; first := k; second := second s |}
  | TurnSecond =>
      let (c, k) := stepCall (controller s) (second s) in
      {| controller := c; first := first s; second := k |}
  end.

Definition runSchedule (schedule : list Turn) (s : System) : System :=
  fold_left stepSystem schedule s.

(** Both calls issued on [c], whatever the launcher would answer to each. *)
Definition twoCalls (c : Controller) (a1 a2 : Launch) : System :=
  {| controller := c; first := Pending a1; second := Pending a2 |}.

Definition resultOf (k : Call) : option OperationResult :=
  match k with
  | Returned r => Some r
  | _ => None
  end.

(** How many turns of [t] a schedule holds. *)
Definition turns (t : Turn) (schedule : list Turn) : nat :=
  List.length (filter (fun u => match t, u with
                                | TurnFirst, TurnFirst => true
                                | TurnSecond, TurnSecond => true
                                | _, _ => false
                                end) schedule).

(** A schedule lets both calls finish when each gets its two steps. *)
Definition complete (schedule : list Turn) : Prop :=
  2 <= turns TurnFirst schedule /\ 2 <= turns TurnSecond schedule.

(** The same system seen with the two calls exchanged. *)
Definition flipTurn (t : Turn) : Turn :=
  match t with TurnFirst => TurnSecond | TurnSecond => TurnFirst end.

Definition mirror (s : System) : System :=
  {| controller := controller s; first := second s; second := first s |}.

(** The call a turn belongs to. *)
Definition callOf (t : Turn) (s : System) : Call :=
  match t with TurnFirst => first s | TurnSecond => second s end.

(** The call that takes the first step of a schedule. *)
Definition entersFirst (schedule : list Turn) : Turn :=
  hd TurnFirst schedule.

(** The controller while a run launched as [pid] at [timestamp] is under
    supervision. *)
Definition runningAs (pid timestamp : nat) : Controller :=
  {| state := Running;
     status := {| running := true; processId := Some pid;
                  startedAt := Some timestamp; errorMessage := None |} |}.

End ExecutionController.

(* ================================================================== *)
(** * Concrete pages, bots and libraries for worked examples *)
(* ================================================================== *)

Module Samples.
Import JsString Effects PageValidator.

Definition samplePage (u : option string) (html : Settled string)
    (nav : Settled unit) : Page :=
  {| page_url := Normal u;
     page_content := html;
     page_close := Resolved tt;
     page_goto := fun _ _ _ => nav |}.

Definition sampleBot : MicrosoftRewardsBot :=
  {| isMobile := false;
     config := {| baseURL := "https://rewards.bing.com" |} |}.

(** A stand-in for cheerio: the document is its markup, no element
    carries the [neterror] class, and the text of a selection is the
    markup itself. *)
Definition sampleLoad (html : string) : Completion string := Normal html.
Definition sampleLength (doc selector : string) : Completion nat := Normal 0.
Definition sampleText (doc selector : string) : Completion string := Normal doc.
Definition sampleReady (page : Page) (timeoutMs : N) : Settled unit := Resolved tt.

Definition sampleCheck : Page -> M PageCheckResult :=
  isInvalidPage string sampleLoad sampleLength sampleText.

Definition sampleValidate : Page -> MicrosoftRewardsBot -> bool -> M bool :=
  validateAndRedirect string sampleLoad sampleLength sampleText sampleReady.

(** Harmless markup, long enough (101 characters) to pass the length test. *)
Definition filler : string :=
  "<html><head><title>Rewards</title></head><body><p>Welcome back to the dashboard, have fun.</p></body>".

End Samples.

(* ================================================================== *)
(** * Effects over any state *)
(* ================================================================== *)

Module Stateful.
Import Effects.

(** Computations that may throw and that thread a state [S]; [Effects.M]
    is the instance whose state is a trace of [Event]s. *)
Definition Prog (S A : Type) : Type := S -> Completion A * S.

Definition ret {S A} (a : A) : Prog S A := fun s => (Normal a, s).

Definition bind {S A B} (m : Prog S A) (k : A -> Prog S B) : Prog S B :=
  fun s =>
    match m s with
    | (Normal a, s') => k a s'
    | (Throw e, s') => (Throw e, s')
    end.

Definition throw {S A} (e : Thrown) : Prog S A := fun s => (Throw e, s).

(** [try { body } catch (error) { handler }] *)
Definition try_catch {S A} (body : Prog S A) (handler : Thrown -> Prog S A)
  : Prog S A :=
  fun s =>
    match body s with
    | (Normal a, s') => (Normal a, s')
    | (Throw e, s') => handler e s'
    end.

Definition lift {S A} (c : Completion A) : Prog S A := fun s => (c, s).

Definition get {S} : Prog S S := fun s => (Normal s, s).

Definition modify {S} (f : S -> S) : Prog S unit := fun s => (Normal tt, f s).

(** [await p] *)
Definition await {S A} (p : Settled A) : Prog S A :=
  match p with
  | Resolved a => ret a
  | Rejected e => throw e
  end.

(** Append one call to a trace. *)
Definition emit {E} (ev : E) : Prog (list E) unit :=
  modify (fun tr => (tr ++ [ev])%list).

(** A computation of [Effects.M] inside a computation with more kinds of
    calls: the calls it makes are appended, each tagged by [inj]. *)
Definition embed {E A} (inj : Event -> E) (m : M A) : Prog (list E) A :=
  fun tr => let (c, evs) := m [] in (c, (tr ++ map inj evs)%list).

End Stateful.

Declare Scope prog_scope.
Delimit Scope prog_scope with prog.
Notation "x <- m ;; k" := (Stateful.bind m (fun x => k))
  (at level 61, m at next level, right associativity) : prog_scope.
Notation "m ;;; k" := (Stateful.bind m (fun _ => k))
  (at level 61, right associativity) : prog_scope.

(* ================================================================== *)
(** * PageValidator.ts, continued: [hasActivityContent]; and its caller
      [UrlReward.doUrlReward] *)
(* ================================================================== *)

Module Workers.
Import JsString Effects PageValidator Stateful.
Local Open Scope prog_scope.

(** Calls made by the code of this module: those of [Effects.Event], the
    visibility probe [page.locator(selector).first().isVisible({timeout})]
    and the pause [bot.utils.wait(ms)]. *)
Inductive WorkerEvent : Type :=
| PageCall (ev : Event)
| EvIsVisible (selector : string) (timeout : N)
| EvWait (ms : N).

Definition isCloseCall (ev : WorkerEvent) : bool :=
  match ev with PageCall EvClose => true | _ => false end.

Definition isWaitCall (ev : WorkerEvent) : bool :=
  match ev with EvWait _ => true | _ => false end.

Definition isProbe (ev : WorkerEvent) : bool :=
  match ev with EvIsVisible _ _ => true | _ => false end.

(** The double quote, for the one selector that holds it. *)
Definition DQUOTE : string := String (ascii_of_nat 34) EmptyString.

(** The catalogue of [hasActivityContent], in source order. *)
Definition activitySelectors : list string :=
  [ "#rqStartQuiz";
    "#rqAnswerOption0";
    "#btoption0";
    ".wk_OptionClickClass";
    ".rqOption";
    "mee-card";
    "[data-bi-area=" ++ DQUOTE ++ "quiz" ++ DQUOTE ++ "]";
    ".quizPlayground";
    ".btOptionCard" ].

Section WithLibraries.

Variable Cheerio : Type.
Variable load : string -> Completion Cheerio.
Variable selectLength : Cheerio -> string -> Completion nat.
Variable selectText : Cheerio -> string -> Completion string.

(** What [page.locator(selector).first().isVisible({ timeout })] settles
    to. *)
Variable visible : Page -> string -> N -> Settled bool.

(** What [bot.utils.wait(ms)] settles to. *)
Variable utilsWait : N -> Settled unit.

(** [String(error)], as used by ['An error occurred:' + error]. *)
Variable describe : Thrown -> string.

Definition isVisible (page : Page) (selector : string) (timeout : N)
  : Prog (list WorkerEvent) (Settled bool) :=
  emit (EvIsVisible selector timeout) ;;; ret (visible page selector timeout).

Definition wait (ms : N) : Prog (list WorkerEvent) (Settled unit) :=
  emit (EvWait ms) ;;; ret (utilsWait ms).

(** [for (const selector of selectors) if ($(selector).length > 0)
    return true] *)
Fixpoint anySelected (dollar : Cheerio) (selectors : list string)
  : Completion bool :=
  match selectors with
  | [] => Normal false
  | selector :: rest =>
      match selectLength dollar selector with
      | Throw e => Throw e
      | Normal n => if Nat.ltb 0 n then Normal true else anySelected dollar rest
      end
  end.

(** [for (const selector of selectors) { const found = await
    ...isVisible({ timeout: 500 }).catch(() => false); if (found) return
    true }] *)
Fixpoint anyVisible (page : Page) (selectors : list string)
  : Prog (list WorkerEvent) bool :=
  match selectors with
  | [] => ret false
  | selector :: rest =>
      p <- isVisible page selector 500%N ;;
      found <- await (promise_catch p (fun _ => false)) ;;
      if found then ret true else anyVisible page rest
  end.

(** [hasActivityContent] *)
Definition hasActivityContent (page : Page) : Prog (list WorkerEvent) bool :=
  try_catch
    (p <- embed PageCall (content page) ;;
     html <- await (promise_catch p (fun _ => "")) ;;
     dollar <- lift (load html) ;;
     inDom <- lift (anySelected dollar activitySelectors) ;;
     if inDom then ret true
     else anyVisible page (firstn 4 activitySelectors))
    (fun _ => ret false).

(** [UrlReward.doUrlReward] *)
Definition doUrlReward (page : Page) (bot : MicrosoftRewardsBot)
  : Prog (list WorkerEvent) unit :=
  embed PageCall (log bot "URL-REWARD" "Trying to complete UrlReward" None) ;;;
  try_catch
    (pageCheck <- embed PageCall
                    (isInvalidPage Cheerio load selectLength selectText page) ;;
     if invalid pageCheck then
       embed PageCall
         (log bot "URL-REWARD"
            ("Invalid page detected: " ++ showReason (reason pageCheck) ++ ", aborting")
            (Some LevelWarn)) ;;;
       c <- embed PageCall (close page) ;;
       await c
     else
       w <- wait 2000%N ;;
       await w ;;;
       c <- embed PageCall (close page) ;;
       await c ;;;
       embed PageCall
         (log bot "URL-REWARD" "Completed the UrlReward successfully" None))
    (fun error =>
       c <- embed PageCall (close page) ;;
       await c ;;;
       embed PageCall
         (log bot "URL-REWARD" ("An error occurred:" ++ describe error)
            (Some LevelError))).

End WithLibraries.

End Workers.

(* ================================================================== *)
(** * The Discord command surface, continued: token, start-up, dispatch
      and the command handlers; the command table of [commands.ts] *)
(* ================================================================== *)

Module DiscordRuntime.
Import JsString Effects Stateful.
Local Open Scope prog_scope.

(** ** The command table *)

(** [new SlashCommandBuilder().setName(...).setDescription(...)] *)
Record SlashCommand : Type := {
  commandLabel : string;
  commandSummary : string
}.

(** [commands] *)
Definition commands : list SlashCommand :=
  [ {| commandLabel := "run";
       commandSummary := "Trigger an immediate bot execution" |};
    {| commandLabel := "status";
       commandSummary := "Show bot status and scheduler info" |};
    {| commandLabel := "accounts";
       commandSummary := "List configured accounts (emails redacted)" |};
    {| commandLabel := "stop";
       commandSummary := "Stop the current bot execution" |};
    {| commandLabel := "restart";
       commandSummary := "Restart the bot" |};
    {| commandLabel := "schedule";
       commandSummary := "Show next scheduled run time" |};
    {| commandLabel := "help";
       commandSummary := "Show available commands" |} ].

(** [commandDescriptions], in the order of its keys. *)
Definition commandDescriptions : list (string * string) :=
  [ ("run", "🚀 Trigger an immediate bot execution");
    ("status", "📊 Show bot status (running/idle, uptime, last run)");
    ("accounts", "👥 List configured accounts (emails redacted)");
    ("stop", "🛑 Stop the current bot execution");
    ("restart", "🔄 Restart the bot");
    ("schedule", "⏰ Show next scheduled run time");
    ("help", "❓ Show all available commands") ].

(** ** Numbers as text *)

(** [String(z)] / [`${z}`] for an integer. *)
Definition ofInt (z : Z) : string :=
  if (z <? 0)%Z then "-" ++ ofNat (Z.to_nat (- z)) else ofNat (Z.to_nat z).

(** [formatUptime], on a whole number of milliseconds.  [Math.floor(a / b)]
    is [a / b]; [%] is the remainder with the sign of the dividend. *)
Definition formatUptime (ms : Z) : string :=
  let seconds := (ms / 1000)%Z in
  let minutes := (seconds / 60)%Z in
  let hours := (minutes / 60)%Z in
  let days := (hours / 24)%Z in
  if (0 <? days)%Z then
    ofInt days ++ "d " ++ ofInt (Z.rem hours 24) ++ "h "
      ++ ofInt (Z.rem minutes 60) ++ "m"
  else if (0 <? hours)%Z then
    ofInt hours ++ "h " ++ ofInt (Z.rem minutes 60) ++ "m"
  else if (0 <? minutes)%Z then
    ofInt minutes ++ "m " ++ ofInt (Z.rem seconds 60) ++ "s"
  else ofInt seconds ++ "s".

(** ** The application id of a token *)

(** [/^\d+$/.test(s)]: one or more decimal digits and nothing else. *)
Definition isDigit (c : ascii) : bool :=
  Nat.leb 48 (nat_of_ascii c) && Nat.leb (nat_of_ascii c) 57.

Fixpoint allDigits (s : string) : bool :=
  match s with
  | EmptyString => true
  | String c s' => isDigit c && allDigits s'
  end.

Definition isNumericId (s : string) : bool := truthy s && allDigits s.

(** A string without a dot. *)
Definition dotFree (s : string) : Prop := hasChar "."%char s = false.

Section Token.

(** [Buffer.from(s, 'base64').toString('utf-8')] *)
Variable base64ToUtf8 : string -> string.

(** [extractApplicationId] *)
Definition extractApplicationId (token : string) : option string :=
  let parts := split "."%char token in
  if negb (Nat.eqb (List.length parts) 3) then None
  else
    let decoded := base64ToUtf8 (nth 0 parts EmptyString) in
    if negb (isNumericId decoded) then None
    else Some decoded.

End Token.

(** ** What the handlers send *)

Record Field : Type := {
  fieldName : string;
  fieldValue : string;
  fieldInline : bool
}.

(** An embed with fields; the timestamp is left out. *)
Record RichEmbed : Type := {
  richTitle : string;
  richDescription : option string;
  richColor : DiscordBot.Color;
  richFields : list Field;
  richFooter : option string
}.

(** The argument of [reply], [editReply] and [followUp]. *)
Record Response : Type := {
  responseContent : option string;
  responseEmbeds : list RichEmbed;
  responseEphemeral : bool
}.

Definition ofEmbed (e : DiscordBot.Embed) : RichEmbed :=
  {| richTitle := DiscordBot.title e;
     richDescription := Some (DiscordBot.description e);
     richColor := DiscordBot.color e;
     richFields := [];
     richFooter := DiscordBot.footer e |}.

Definition ofReply (r : DiscordBot.Reply) : Response :=
  {| responseContent := None;
     responseEmbeds := map ofEmbed (DiscordBot.embeds r);
     responseEphemeral := DiscordBot.ephemeral r |}.

(** [{ embeds: [this.createEmbed(title, description, color)], ephemeral }] *)
Definition notice (title description : string) (color : DiscordBot.Color)
    (ephemeral : bool) : Response :=
  {| responseContent := None;
     responseEmbeds := [ofEmbed (DiscordBot.createEmbed title description color)];
     responseEphemeral := ephemeral |}.

(** [{ content, ephemeral: true }] *)
Definition privateText (content : string) : Response :=
  {| responseContent := Some content;
     responseEmbeds := [];
     responseEphemeral := true |}.

(** ** Calls and state *)

(** [Routes.applicationGuildCommands] and [Routes.applicationCommands]. *)
Inductive Route : Type :=
| ApplicationGuildCommands (applicationId guildId : string)
| ApplicationCommands (applicationId : string).

(** Calls that leave the class, in the order they are made. *)
Inductive DiscordEvent : Type :=
| EvBotLog (message : string) (level : LogLevel)
| EvPut (token : string) (route : Route) (body : list SlashCommand)
| EvLogin (token : string)
| EvGetStatus
| EvStart
| EvStop
| EvRestart
| EvSchedulerStatus
| EvLoadAccounts
| EvReply (r : Response)
| EvDeferReply
| EvEditReply (r : Response)
| EvFollowUp (r : Response).

(** The calls made so far and the two flags of the interaction being
    handled. *)
Record BotState : Type := {
  calls : list DiscordEvent;
  replied : bool;
  deferred : bool
}.

Definition fresh : BotState :=
  {| calls := []; replied := false; deferred := false |}.

Definition record (ev : DiscordEvent) : Prog BotState unit :=
  modify (fun st => {| calls := (calls st ++ [ev])%list;
                       replied := replied st;
                       deferred := deferred st |}).

(** [this.log(message, level)] *)
Definition botLog (message : string) (level : LogLevel) : Prog BotState unit :=
  record (EvBotLog message level).

(** [interaction.reply]: the interaction is then replied.  The four
    calls on the interaction are taken to be delivered (they do not
    fail), as [bot.log] is. *)
Definition reply (r : Response) : Prog BotState unit :=
  modify (fun st => {| calls := (calls st ++ [EvReply r])%list;
                       replied := true;
                       deferred := deferred st |}).

(** [interaction.deferReply]: the interaction is then deferred. *)
Definition deferReply : Prog BotState unit :=
  modify (fun st => {| calls := (calls st ++ [EvDeferReply])%list;
                       replied := replied st;
                       deferred := true |}).

(** [interaction.editReply]: the interaction is then replied. *)
Definition editReply (r : Response) : Prog BotState unit :=
  modify (fun st => {| calls := (calls st ++ [EvEditReply r])%list;
                       replied := true;
                       deferred := deferred st |}).

(** [interaction.followUp] *)
Definition followUp (r : Response) : Prog BotState unit :=
  record (EvFollowUp r).

(** ** The surroundings *)

(** [botController.getStatus()] *)
Record BotStatus : Type := {
  running : bool;
  pid : option N;
  uptime : option Z;
  startTime : option Z
}.

(** The result of [botController.start()], [stop()] and [restart()]. *)
Record ControlResult : Type := {
  success : bool;
  error : option string
}.

(** [scheduler.getStatus()] *)
Record SchedulerStatus : Type := {
  active : bool;
  isRunning : bool;
  nextRun : option string;
  lastRun : option string
}.

(** What the collaborators of the class answer when they are called. *)
Record World (Account : Type) : Type := {
  envToken : option string;
  restPut : string -> Route -> Settled unit;
  clientLogin : string -> Settled unit;
  getStatus : Completion BotStatus;
  controllerStart : Settled ControlResult;
  controllerStop : Completion ControlResult;
  controllerRestart : Settled ControlResult;
  scheduler : option (Completion SchedulerStatus);
  loadAccounts : Completion (list Account);
  toLocaleString : Z -> string
}.
Arguments envToken {Account} _.
Arguments restPut {Account} _ _ _.
Arguments clientLogin {Account} _ _.
Arguments getStatus {Account} _.
Arguments controllerStart {Account} _.
Arguments controllerStop {Account} _.
Arguments controllerRestart {Account} _.
Arguments scheduler {Account} _.
Arguments loadAccounts {Account} _.
Arguments toLocaleString {Account} _ _.

(** [a || b] on optional strings: the first that is set and not empty. *)
Definition orElse (a b : option string) : option string :=
  match a with
  | Some s => if truthy s then Some s else b
  | None => b
  end.

(** [s || fallback] *)
Definition orText (s : option string) (fallback : string) : string :=
  match s with
  | Some t => if truthy t then t else fallback
  | None => fallback
  end.

(** The value, when it is set and not empty. *)
Definition present (s : option string) : option string := orElse s None.

(** A number that is set and not zero. *)
Definition nonZero (z : option Z) : option Z :=
  match z with
  | Some v => if (v =? 0)%Z then None else Some v
  | None => None
  end.

(** [String(status.pid || 'N/A')] *)
Definition pidText (p : option N) : string :=
  match p with
  | Some v => if (v =? 0)%N then "N/A" else ofNat (N.to_nat v)
  | None => "N/A"
  end.

(** The commands of the [switch] in [handleCommand]. *)
Inductive Command : Type :=
| Run | Status | Accounts | Stop | Restart | Schedule | Help.

(** The case of the [switch] a command name falls in, if any. *)
Definition commandOf (name : string) : option Command :=
  if String.eqb name "run" then Some Run
  else if String.eqb name "status" then Some Status
  else if String.eqb name "accounts" then Some Accounts
  else if String.eqb name "stop" then Some Stop
  else if String.eqb name "restart" then Some Restart
  else if String.eqb name "schedule" then Some Schedule
  else if String.eqb name "help" then Some Help
  else None.

(** What arrives on ['interactionCreate']. *)
Inductive Interaction : Type :=
| ChatInputCommand (interaction : DiscordBot.ChatInputCommandInteraction)
| OtherInteraction.

(** Recognisers, for statements about the calls made. *)
Definition isResponse (ev : DiscordEvent) : bool :=
  match ev with
  | EvReply _ | EvDeferReply | EvEditReply _ | EvFollowUp _ => true
  | _ => false
  end.

Definition isNetworkCall (ev : DiscordEvent) : bool :=
  match ev with
  | EvPut _ _ _ | EvLogin _ => true
  | _ => false
  end.

(** The calls that read or drive the bot: controller, scheduler and
    accounts file. *)
Definition isBackendCall (ev : DiscordEvent) : bool :=
  match ev with
  | EvGetStatus | EvStart | EvStop | EvRestart
  | EvSchedulerStatus | EvLoadAccounts => true
  | _ => false
  end.

(** The three ways an interaction may be answered: one reply, or one
    deferral followed by one edit or one follow-up. *)
Definition answeredOnce (responses : list DiscordEvent) : bool :=
  match responses with
  | [EvReply _] => true
  | [EvDeferReply; EvEditReply _] => true
  | [EvDeferReply; EvFollowUp _] => true
  | _ => false
  end.

Section Behaviour.

Variable JsNumber : Type.
Variable numberToString : JsNumber -> string.
Variable Account : Type.
Variable email : Account -> string.
Variable base64ToUtf8 : string -> string.
Variable world : World Account.
Variable config : DiscordBot.Config JsNumber.

(** [this.config.discordBot?.guildId] *)
Definition configuredGuild : option string :=
  match DiscordBot.discordBot config with
  | Some d => DiscordBot.guildId d
  | None => None
  end.

(** Where [registerCommands] puts the command table: the guild route
    when a guild id is configured, the global route otherwise. *)
Definition routeFor (applicationId : string) : Route :=
  match present configuredGuild with
  | Some guildId => ApplicationGuildCommands applicationId guildId
  | None => ApplicationCommands applicationId
  end.

(** The line [registerCommands] logs after a successful registration. *)
Definition registeredMessage : string :=
  match present configuredGuild with
  | Some guildId =>
      "Registered " ++ ofNat (List.length commands)
        ++ " slash commands to guild " ++ guildId
  | None =>
      "Registered " ++ ofNat (List.length commands)
        ++ " global slash commands (may take up to 1 hour to propagate)"
  end.

(** The token [start] works with: the configured one or else the one of
    the environment, when it is not empty. *)
Definition chosenToken (discordConfig : DiscordBot.DiscordBotConfig JsNumber)
  : option string :=
  present (orElse (DiscordBot.token discordConfig) (envToken world)).

(** The state after the calls [evs], on an interaction not answered. *)
Definition after (evs : list DiscordEvent) : BotState :=
  {| calls := evs; replied := false; deferred := false |}.

(** [registerCommands] *)
Definition registerCommands (token : string) : Prog BotState unit :=
  match present (extractApplicationId base64ToUtf8 token) with
  | None =>
      throw (ErrorObject "Invalid Discord token format - cannot extract application ID")
  | Some applicationId =>
      match present configuredGuild with
      | Some guildId =>
          let route := ApplicationGuildCommands applicationId guildId in
          record (EvPut token route commands) ;;;
          await (restPut world token route) ;;;
          botLog ("Registered " ++ ofNat (List.length commands)
                    ++ " slash commands to guild " ++ guildId) LevelLog
      | None =>
          let route := ApplicationCommands applicationId in
          record (EvPut token route commands) ;;;
          await (restPut world token route) ;;;
          botLog ("Registered " ++ ofNat (List.length commands)
                    ++ " global slash commands (may take up to 1 hour to propagate)")
                 LevelLog
      end
  end.

(** [start] *)
Definition start : Prog BotState bool :=
  let disabled :=
    botLog "Discord bot disabled in config" LevelWarn ;;; ret false in
  match DiscordBot.discordBot config with
  | None => disabled
  | Some discordConfig =>
      if negb (DiscordBot.enabled discordConfig) then disabled
      else
        match present (orElse (DiscordBot.token discordConfig) (envToken world)) with
        | None =>
            botLog "No Discord bot token provided (set discordBot.token or DISCORD_BOT_TOKEN env var)"
                   LevelError ;;;
            ret false
        | Some token =>
            try_catch
              (registerCommands token ;;;
               record (EvLogin token) ;;;
               await (clientLogin world token) ;;;
               botLog "Discord bot started successfully" LevelLog ;;;
               ret true)
              (fun error =>
                 botLog ("Failed to start Discord bot: " ++ errorText error)
                        LevelError ;;;
                 ret false)
        end
  end.

(** [handleRun] *)
Definition handleRun : Prog BotState unit :=
  record EvGetStatus ;;;
  status <- lift (getStatus world) ;;
  if running status then
    reply (notice "⚠️ Bot Already Running"
             "The bot is currently running. Use `/stop` first if you want to restart."
             DiscordBot.COLOR_ORANGE true)
  else
    deferReply ;;;
    record EvStart ;;;
    result <- await (controllerStart world) ;;
    if success result then
      editReply (notice "🚀 Bot Started"
                   "Microsoft Rewards Bot has been triggered. Use `/status` to monitor progress."
                   DiscordBot.COLOR_GREEN false)
    else
      editReply (notice "❌ Failed to Start" (orText (error result) "Unknown error")
                   DiscordBot.COLOR_RED false).

(** [handleStatus] *)
Definition handleStatus : Prog BotState unit :=
  record EvGetStatus ;;;
  status <- lift (getStatus world) ;;
  schedulerStatus <-
    match scheduler world with
    | Some answer =>
        record EvSchedulerStatus ;;; s <- lift answer ;; ret (Some s)
    | None => ret None
    end ;;
  let fields :=
    ([ {| fieldName := "🔄 Status";
          fieldValue := if running status then "🟢 Running" else "⚪ Idle";
          fieldInline := true |};
       {| fieldName := "🔧 PID";
          fieldValue := pidText (pid status);
          fieldInline := true |} ]
     ++ match nonZero (uptime status) with
        | Some ms => [ {| fieldName := "⏱️ Uptime";
                          fieldValue := formatUptime ms;
                          fieldInline := true |} ]
        | None => []
        end
     ++ match nonZero (startTime status) with
        | Some t => [ {| fieldName := "🕐 Started";
                         fieldValue := toLocaleString world t;
                         fieldInline := true |} ]
        | None => []
        end
     ++ match schedulerStatus with
        | Some s =>
            {| fieldName := "📅 Scheduler";
               fieldValue := if active s then "🟢 Active" else "⚪ Inactive";
               fieldInline := true |}
            :: match present (nextRun s) with
               | Some t => [ {| fieldName := "⏰ Next Run"; fieldValue := t;
                                fieldInline := true |} ]
               | None => []
               end
            ++ match present (lastRun s) with
               | Some t => [ {| fieldName := "📆 Last Run"; fieldValue := t;
                                fieldInline := true |} ]
               | None => []
               end
        | None => []
        end)%list in
  reply {| responseContent := None;
           responseEmbeds :=
             [ {| richTitle := "📊 Bot Status";
                  richDescription := None;
                  richColor := if running status then DiscordBot.COLOR_GREEN
                               else DiscordBot.COLOR_GRAY;
                  richFields := fields;
                  richFooter := None |} ];
           responseEphemeral := false |}.

(** [handleAccounts]: the reply computed by [DiscordBot.handleAccounts]
    is sent; when its [catch] clause throws in turn, nothing is sent. *)
Definition handleAccounts : Prog BotState unit :=
  record EvLoadAccounts ;;;
  r <- lift (fst (DiscordBot.handleAccounts Account email (loadAccounts world))) ;;
  reply (ofReply r).

(** [handleStop] *)
Definition handleStop : Prog BotState unit :=
  record EvGetStatus ;;;
  status <- lift (getStatus world) ;;
  if negb (running status) then
    reply (notice "ℹ️ Not Running" "The bot is not currently running."
             DiscordBot.COLOR_GRAY true)
  else
    record EvStop ;;;
    result <- lift (controllerStop world) ;;
    if success result then
      reply (notice "🛑 Bot Stopped"
               "The bot will complete its current task and then stop."
               DiscordBot.COLOR_ORANGE false)
    else
      reply (notice "❌ Failed to Stop" (orText (error result) "Unknown error")
               DiscordBot.COLOR_RED false).

(** [handleRestart] *)
Definition handleRestart : Prog BotState unit :=
  deferReply ;;;
  record EvRestart ;;;
  result <- await (controllerRestart world) ;;
  if success result then
    editReply (notice "🔄 Bot Restarted" "Microsoft Rewards Bot has been restarted."
                 DiscordBot.COLOR_GREEN false)
  else
    editReply (notice "❌ Failed to Restart" (orText (error result) "Unknown error")
                 DiscordBot.COLOR_RED false).

(** [handleSchedule] *)
Definition handleSchedule : Prog BotState unit :=
  match scheduler world with
  | None =>
      reply (notice "⏰ Scheduler" "Scheduler is not enabled in configuration."
               DiscordBot.COLOR_GRAY true)
  | Some answer =>
      record EvSchedulerStatus ;;;
      status <- lift answer ;;
      reply {| responseContent := None;
               responseEmbeds :=
                 [ {| richTitle := "⏰ Scheduler Information";
                      richDescription := None;
                      richColor := if active status then DiscordBot.COLOR_BLUE
                                   else DiscordBot.COLOR_GRAY;
                      richFields :=
                        [ {| fieldName := "📅 Status";
                             fieldValue := if active status then "🟢 Active"
                                           else "⚪ Inactive";
                             fieldInline := true |};
                          {| fieldName := "🔄 Currently Running";
                             fieldValue := if isRunning status then "Yes" else "No";
                             fieldInline := true |};
                          {| fieldName := "⏰ Next Run";
                             fieldValue := orText (nextRun status) "N/A";
                             fieldInline := false |};
                          {| fieldName := "📆 Last Run";
                             fieldValue := orText (lastRun status) "Never";
                             fieldInline := false |} ];
                      richFooter := None |} ];
               responseEphemeral := false |}
  end.

(** The text of [handleHelp]: one line per described command. *)
Definition commandList : string :=
  join LF (map (fun entry => "`/" ++ fst entry ++ "` - " ++ snd entry)
             commandDescriptions).

(** [handleHelp] *)
Definition handleHelp : Prog BotState unit :=
  reply {| responseContent := None;
           responseEmbeds :=
             [ {| richTitle := "❓ Available Commands";
                  richDescription := Some commandList;
                  richColor := DiscordBot.COLOR_BLUE;
                  richFields := [];
                  richFooter := Some "Microsoft Rewards Bot Discord Controller" |} ];
           responseEphemeral := false |}.

Definition handlerOf (c : Command) : Prog BotState unit :=
  match c with
  | Run => handleRun
  | Status => handleStatus
  | Accounts => handleAccounts
  | Stop => handleStop
  | Restart => handleRestart
  | Schedule => handleSchedule
  | Help => handleHelp
  end.

(** [handleCommand] *)
Definition handleCommand (interaction : DiscordBot.ChatInputCommandInteraction)
  : Prog BotState unit :=
  let commandName := DiscordBot.commandName interaction in
  try_catch
    (match commandOf commandName with
     | Some c => handlerOf c
     | None => reply (privateText ("Unknown command: " ++ commandName))
     end)
    (fun error =>
       let errorMsg := errorText error in
       botLog ("Command error (" ++ commandName ++ "): " ++ errorMsg) LevelError ;;;
       st <- get ;;
       if replied st || deferred st
       then followUp (privateText ("❌ Error: " ++ errorMsg))
       else reply (privateText ("❌ Error: " ++ errorMsg))).

(** The listener of ['interactionCreate']. *)
Definition onInteractionCreate (interaction : Interaction) : Prog BotState unit :=
  match interaction with
  | OtherInteraction => ret tt
  | ChatInputCommand i =>
      if negb (DiscordBot.hasPermission JsNumber numberToString config i)
      then reply (privateText "❌ You do not have permission to use this bot.")
      else handleCommand i
  end.

End Behaviour.

End DiscordRuntime.

(* ================================================================== *)
(** * scripts/installer/setup.mjs: the accounts file and the browser
      install *)
(* ================================================================== *)

Module Installer.
Import JsString Effects Stateful.
Local Open Scope prog_scope.

(** [console.log], [console.warn], [console.error]. *)
Inductive Stream : Type := StdLog | StdWarn | StdError.

(** What the script does to the outside, in order. *)
Inductive SetupEvent : Type :=
| EvConsole (stream : Stream) (message : string)
| EvSpawn (cmd : string) (args : list string).

(** The files the script may look at: the content of each path, if it
    exists.  Reading and writing are taken not to fail. *)
Definition FileSystem : Type := string -> option string.

(** [fs.existsSync(path)] *)
Definition existsSync (files : FileSystem) (path : string) : bool :=
  match files path with
  | Some _ => true
  | None => false
  end.

(** [fs.writeFileSync(path, content)] *)
Definition writeFile (files : FileSystem) (path content : string) : FileSystem :=
  fun p => if String.eqb p path then Some content else files p.

(** [fs.copyFileSync(from, to)], for an existing [from]. *)
Definition copyFile (files : FileSystem) (from to : string) : FileSystem :=
  fun p => if String.eqb p to then files from else files p.

Record Machine : Type := {
  files : FileSystem;
  output : list SetupEvent
}.

Definition say (stream : Stream) (message : string) : Prog Machine unit :=
  modify (fun m => {| files := files m;
                      output := (output m ++ [EvConsole stream message])%list |}).

Definition log (message : string) : Prog Machine unit := say StdLog message.
Definition warn (message : string) : Prog Machine unit := say StdWarn message.
Definition error (message : string) : Prog Machine unit := say StdError message.

Section Setup.

(** [path.join(SRC_DIR, 'accounts.jsonc')],
    [path.join(SRC_DIR, 'accounts.example.jsonc')] and
    [path.join(PROJECT_ROOT, '.playwright-chromium-installed')]. *)
Variable accountsPath examplePath markerPath : string.

(** [process.platform === 'win32'] *)
Variable win32 : bool.

(** The child process spawned for a command, run on the files it finds:
    its exit code ([None] is the [null] code of a child ended by a
    signal) and the files as it leaves them.  The child is taken to
    start and to exit. *)
Variable child : string -> list string -> FileSystem -> option Z * FileSystem.

(** [new Date().toISOString()] *)
Variable now : string.

(** [`${code}`] *)
Definition codeText (code : option Z) : string :=
  match code with
  | Some z => if (z <? 0)%Z then "-" ++ ofNat (Z.to_nat (- z)) else ofNat (Z.to_nat z)
  | None => "null"
  end.

(** [createAccountsFile] *)
Definition createAccountsFile : Prog Machine bool :=
  m <- get ;;
  if existsSync (files m) accountsPath then
    log "✓ accounts.jsonc already exists - skipping creation" ;;;
    ret true
  else if existsSync (files m) examplePath then
    log "📝 Creating accounts.jsonc from template..." ;;;
    modify (fun m => {| files := copyFile (files m) examplePath accountsPath;
                        output := output m |}) ;;;
    log "✓ Created accounts.jsonc" ;;;
    ret false
  else
    error "❌ Template file accounts.example.jsonc not found!" ;;;
    ret true.

(** [runCommand]: the promise it returns, settled when the child has
    exited. *)
Definition runCommand (cmd : string) (args : list string)
  : Prog Machine (Settled unit) :=
  log ("Running: " ++ cmd ++ " " ++ join " " args) ;;;
  m <- get ;;
  let (code, changed) := child cmd args (files m) in
  modify (fun m => {| files := changed;
                      output := (output m ++ [EvSpawn cmd args])%list |}) ;;;
  match code with
  | Some 0%Z => ret (Resolved tt)
  | _ =>
      ret (Rejected (ErrorObject (cmd ++ " exited with code " ++ codeText code)))
  end.

(** [installPlaywrightBrowsers] *)
Definition installPlaywrightBrowsers : Prog Machine unit :=
  m <- get ;;
  if existsSync (files m) markerPath then
    log "Playwright chromium already installed (marker found)."
  else
    log "Ensuring Playwright chromium browser is installed..." ;;;
    try_catch
      (p <- runCommand (if win32 then "npx.cmd" else "npx")
                       ["playwright"; "install"; "chromium"] ;;
       await p ;;;
       modify (fun m => {| files := writeFile (files m) markerPath now;
                           output := output m |}) ;;;
       log "Playwright chromium install complete.")
      (fun _ =>
         warn "Failed to install Playwright chromium automatically. You can manually run: npx playwright install chromium").

(** The commands a run has spawned. *)
Definition spawned (evs : list SetupEvent) : list (string * list string) :=
  flat_map (fun ev => match ev with
                      | EvSpawn cmd args => [(cmd, args)]
                      | EvConsole _ _ => []
                      end) evs.

End Setup.

End Installer.

(* ================================================================== *)
(** * Concrete surroundings for the worked examples of the later parts *)
(* ================================================================== *)

Module Scenarios.
Import JsString Effects PageValidator Samples.

(** A pause that completes. *)
Definition sampleWait (ms : N) : Settled unit := Resolved tt.

(** [String(error)] for the two kinds of thrown values. *)
Definition sampleDescribe (e : Thrown) : string :=
  match e with
  | ErrorObject m => "Error: " ++ m
  | NonError s => s
  end.

(** No element is ever visible. *)
Definition sampleVisible (page : Page) (selector : string) (timeout : N)
  : Settled bool := Resolved false.

(** A page whose [close()] is rejected. *)
Definition stuckPage (u : option string) : Page :=
  {| page_url := Normal u;
     page_content := Resolved "";
     page_close := Rejected (ErrorObject "Target page, context or browser has been closed");
     page_goto := fun _ _ _ => Resolved tt |}.

(** Base64 as Node decodes it, for text whose bytes are below 128: the
    characters outside the alphabet are skipped and decoding stops at
    the padding. *)
Definition base64Value (c : ascii) : option N :=
  let n := N_of_ascii c in
  if (65 <=? n)%N && (n <=? 90)%N then Some (n - 65)%N
  else if (97 <=? n)%N && (n <=? 122)%N then Some (n - 71)%N
  else if (48 <=? n)%N && (n <=? 57)%N then Some (n + 4)%N
  else if (n =? 43)%N || (n =? 45)%N then Some 62%N
  else if (n =? 47)%N || (n =? 95)%N then Some 63%N
  else None.

Fixpoint base64From (acc bits : N) (s : string) : string :=
  match s with
  | EmptyString => EmptyString
  | String c s' =>
      if Ascii.eqb c "=" then EmptyString
      else
        match base64Value c with
        | None => base64From acc bits s'
        | Some v =>
            let acc := (acc * 64 + v)%N in
            let bits := (bits + 6)%N in
            if (8 <=? bits)%N then
              let rest := (bits - 8)%N in
              String (ascii_of_N (N.shiftr acc rest))
                     (base64From (N.land acc (N.ones rest)) rest s')
            else base64From acc bits s'
        end
  end.

Definition sampleBase64 (s : string) : string := base64From 0 0 s.

(** A token whose first part is the base64 text of an 18-digit id. *)
Definition sampleToken : string := "MTIzNDU2Nzg5MDEyMzQ1Njc4.GhX2kQ.k3J-2mZrQ_vT".

(** A controller that is idle and whose [start()] is rejected; no
    scheduler; two accounts. *)
Definition sampleWorld : DiscordRuntime.World (string * string) :=
  {| DiscordRuntime.envToken := Some sampleToken;
     DiscordRuntime.restPut := fun _ _ => Resolved tt;
     DiscordRuntime.clientLogin := fun _ => Resolved tt;
     DiscordRuntime.getStatus :=
       Normal {| DiscordRuntime.running := false;
                 DiscordRuntime.pid := None;
                 DiscordRuntime.uptime := None;
                 DiscordRuntime.startTime := None |};
     DiscordRuntime.controllerStart := Rejected (ErrorObject "spawn ENOENT");
     DiscordRuntime.controllerStop :=
       Normal {| DiscordRuntime.success := false;
                 DiscordRuntime.error := Some "not running" |};
     DiscordRuntime.controllerRestart :=
       Resolved {| DiscordRuntime.success := true; DiscordRuntime.error := None |};
     DiscordRuntime.scheduler := None;
     DiscordRuntime.loadAccounts :=
       Normal [("john.doe@outlook.com", "hunter2"); ("jane@", "s3cret")];
     DiscordRuntime.toLocaleString := fun _ => "1/1/2026, 12:00:00 AM" |}.

(** An enabled bot without a configured token, for one guild, with two
    allowed users, one written as a number. *)
Definition sampleConfig : DiscordBot.Config nat :=
  {| DiscordBot.discordBot :=
       Some {| DiscordBot.enabled := true;
               DiscordBot.token := None;
               DiscordBot.guildId := Some "900";
               DiscordBot.allowedUserIds :=
                 Some [DiscordBot.IdString "111"; DiscordBot.IdNumber 222] |} |}.

(** A checkout that holds only the accounts template. *)
Definition freshCheckout : Installer.Machine :=
  {| Installer.files :=
       fun p => if String.eqb p "src/accounts.example.jsonc"
                then Some "[{ email: '', password: '' }]" else None;
     Installer.output := [] |}.

(** A page whose [url()] throws. *)
Definition crashedPage : Page :=
  {| page_url := Throw (ErrorObject "Page crashed");
     page_content := Resolved "";
     page_close := Resolved tt;
     page_goto := fun _ _ _ => Resolved tt |}.

Definition command (userId name : string) : DiscordBot.ChatInputCommandInteraction :=
  {| DiscordBot.user := {| DiscordBot.id := userId |};
     DiscordBot.commandName := name |}.

End Scenarios.

(* ================================================================== *)
(** * Facts about the string primitives *)
(* ================================================================== *)

Import JsString Effects.

Lemma startsWith_app (p t : string) : startsWith (p ++ t) p = true.
Proof.
  induction p as [|c p IH]; simpl; [reflexivity|].
  now rewrite Ascii.eqb_refl, IH.
Qed.

Lemma startsWith_inv (s p : string) :
  startsWith s p = true -> exists t, s = p ++ t.
Proof.
  revert s; induction p as [|c p IH]; intros s H; simpl in *.
  - now exists s.
  - destruct s as [|d s]; [discriminate|].
    apply andb_true_iff in H as [Hc Hs].
    apply Ascii.eqb_eq in Hc; subst d.
    destruct (IH _ Hs) as [t ->]. now exists t.
Qed.

Lemma startsWith_iff (s p : string) :
  startsWith s p = true <-> exists t, s = p ++ t.
Proof.
  split; [apply startsWith_inv|].
  intros [t ->]; apply startsWith_app.
Qed.

Lemma includes_unfold (s p : string) :
  includes s p =
  startsWith s p ||
  match s with EmptyString => false | String _ s' => includes s' p end.
Proof. destruct s; reflexivity. Qed.

Lemma includes_inv (s p : string) :
  includes s p = true -> exists a b, s = a ++ p ++ b.
Proof.
  induction s as [|c s IH]; intros H; rewrite includes_unfold in H;
    apply orb_true_iff in H as [H|H].
  - apply startsWith_inv in H as [t ->]. now exists "", t.
  - discriminate.
  - apply startsWith_inv in H as [t ->]. now exists "", t.
  - destruct (IH H) as (a & b & ->). now exists (String c a), b.
Qed.

Lemma includes_intro (a p b : string) : includes (a ++ p ++ b) p = true.
Proof.
  induction a as [|c a IH].
  - simpl. rewrite includes_unfold, startsWith_app. reflexivity.
  - simpl String.append. rewrite includes_unfold, IH. apply orb_true_r.
Qed.

(** [s.includes(p)] holds exactly when [p] occurs somewhere inside [s]. *)
Lemma includes_iff (s p : string) :
  includes s p = true <-> exists a b, s = a ++ p ++ b.
Proof.
  split; [apply includes_inv|].
  intros (a & b & ->); apply includes_intro.
Qed.

Lemma append_assoc (a b c : string) : (a ++ b) ++ c = a ++ b ++ c.
Proof. induction a; simpl; congruence. Qed.

(** Containment is transitive. *)
Lemma includes_trans (s p q : string) :
  includes s p = true -> includes p q = true -> includes s q = true.
Proof.
  intros Hs Hp.
  apply includes_inv in Hs as (a & b & ->).
  apply includes_inv in Hp as (a' & b' & ->).
  replace (a ++ (a' ++ q ++ b') ++ b) with ((a ++ a') ++ q ++ (b' ++ b)).
  - apply includes_intro.
  - now rewrite !append_assoc.
Qed.

(* ================================================================== *)
(** * Properties of the page validator *)
(* ================================================================== *)

Import PageValidator Samples.

(** Order of an allow-list does not matter to a containment test. *)
Lemma existsb_permutation {A : Type} (f : A -> bool) (l l' : list A) :
  Permutation l l' -> existsb f l = existsb f l'.
Proof.
  induction 1 as [|x l l' _ IH|x y l|l l' l'' _ IH1 _ IH2]; simpl.
  - reflexivity.
  - now rewrite IH.
  - now destruct (f x), (f y).
  - congruence.
Qed.

(** The test made by [validateActivityDomain] is the containment test
    over [allowedDomains]. *)
Lemma acceptance_is_allowlist (u : string) :
  isBingDomain u || isRewardsDomain u = existsb (includes u) allowedDomains.
Proof.
  unfold isBingDomain, isRewardsDomain, allowedDomains; simpl.
  now rewrite orb_false_r.
Qed.

(** C10. The acceptance predicate [isBingDomain(url) || isRewardsDomain(url)]
    of [validateActivityDomain] equals "url contains bing.com or url
    contains rewards.microsoft.com": the rewards.bing.com disjunct is
    redundant, since a URL that contains it contains bing.com. *)
Theorem acceptance_predicate_simplifies (u : string) :
  isBingDomain u || isRewardsDomain u
  = includes u "bing.com" || includes u "rewards.microsoft.com"
  /\ implb (includes u "rewards.bing.com") (includes u "bing.com") = true.
Proof.
  assert (Himp : implb (includes u "rewards.bing.com") (includes u "bing.com") = true).
  { destruct (includes u "rewards.bing.com") eqn:E; [|reflexivity].
    simpl. apply (includes_trans _ _ _ E). reflexivity. }
  split; [|exact Himp].
  unfold isBingDomain, isRewardsDomain.
  destruct (includes u "rewards.bing.com"), (includes u "bing.com");
    simpl in *; try reflexivity; discriminate.
Qed.

(** C7. When the page answers a URL string, [validateActivityDomain]
    returns a value (it does not throw): [true] exactly when the URL
    contains one of the allow-listed domain substrings, and otherwise
    [false] after one warning in the log and nothing else.  The answer is
    the same for every ordering of the allow-list. *)
Theorem validateActivityDomain_containment
    (page : Page) (bot : MicrosoftRewardsBot) (u : string) (tr : list Event) :
  page_url page = Normal (Some u) ->
  let accepted := existsb (includes u) allowedDomains in
  validateActivityDomain page bot tr
  = (Normal accepted,
     (tr ++ EvUrl ::
        (if accepted then []
         else [EvLog (isMobile bot) "PAGE-VALIDATOR"
                 ("Unexpected domain after click: " ++ u)
                 (Some LevelWarn)]))%list)
  /\ (accepted = true <->
      exists d, In d allowedDomains /\ includes u d = true)
  /\ (forall l, Permutation allowedDomains l ->
                existsb (includes u) l = accepted).
Proof.
  intros Hurl accepted. split; [|split].
  - unfold validateActivityDomain, PageValidator.url, bind, emit, lift, log, ret.
    rewrite Hurl, acceptance_is_allowlist. fold accepted.
    destruct accepted; simpl.
    + reflexivity.
    + now rewrite <- app_assoc.
  - unfold accepted. apply existsb_exists.
  - intros l Hl. unfold accepted. symmetry. now apply existsb_permutation.
Qed.

Lemma validateActivityDomain_containment_witness :
  validateActivityDomain
    (samplePage (Some "https://example.org/quiz") (Resolved "") (Resolved tt))
    sampleBot []
  = (Normal false,
     [EvUrl;
      EvLog false "PAGE-VALIDATOR"
        "Unexpected domain after click: https://example.org/quiz" (Some LevelWarn)]).
Proof.
  exact (proj1 (validateActivityDomain_containment
                  (samplePage (Some "https://example.org/quiz") (Resolved "") (Resolved tt))
                  sampleBot "https://example.org/quiz" [] eq_refl)).
Defined.

Section Classification.

Variable Cheerio : Type.
Variable load : string -> Completion Cheerio.
Variable selectLength : Cheerio -> string -> Completion nat.
Variable selectText : Cheerio -> string -> Completion string.

Local Abbreviation check := (isInvalidPage Cheerio load selectLength selectText).

Ltac run_check :=
  cbv beta iota zeta delta
    [isInvalidPage try_catch bind PageValidator.url PageValidator.content
     emit lift ret await promise_catch throw urlFalsy urlIs invalid reason].

Ltac split_on_test :=
  match goal with
  | |- context [if ?b then _ else _] => destruct b eqn:?
  end; run_check.

Ltac reported_invalid :=
  eexists _, _; split; [reflexivity|]; split;
  [ intros _; eexists; split; [reflexivity | cbn [String.append]; discriminate]
  | discriminate ].

(** C4. A page whose URL is unset, empty or exactly about:blank is
    classified invalid with reason "blank page"; the only call made on the
    page is [url()], so the decision is taken before any content is
    retrieved. *)
Theorem blank_page_first (page : Page) (tr : list Event) :
  page_url page = Normal None \/
  page_url page = Normal (Some "") \/
  page_url page = Normal (Some "about:blank") ->
  check page tr
  = (Normal {| invalid := true; reason := Some "blank page" |},
     (tr ++ [EvUrl])%list).
Proof.
  intros [H|[H|H]]; run_check; rewrite H; reflexivity.
Qed.

(** The scan finds a signature as soon as one of the catalogue occurs
    in the markup. *)
Lemma firstMatch_finds (patterns : list string) (html bodyText p : string) :
  In p patterns -> includes html p = true ->
  exists q, firstMatch patterns html bodyText = Some q.
Proof.
  induction patterns as [|x rest IH]; intros Hin Hp; [contradiction|].
  simpl. destruct (includes html x || includes bodyText x) eqn:E.
  - now exists x.
  - destruct Hin as [->|Hin]; [|now apply IH].
    rewrite Hp in E. discriminate.
Qed.

(** Every run of [isInvalidPage] ends normally.  An invalid answer comes
    with a reason; a valid answer is given only after every step of the
    chain has been taken and none has failed or matched. *)
Lemma isInvalidPage_answers (page : Page) (tr : list Event) :
  exists r tr',
    check page tr = (Normal r, tr')
    /\ (invalid r = true -> exists s, reason r = Some s /\ s <> "")
    /\ (invalid r = false ->
        exists u html d bodyText,
          page_url page = Normal (Some u)
          /\ page_content page = Resolved html
          /\ load html = Normal d
          /\ selectLength d "body.neterror" = Normal 0
          /\ selectText d "body" = Normal bodyText
          /\ firstMatch errorPatterns html bodyText = None).
Proof.
  run_check.
  destruct (page_url page) as [[u|]|e] eqn:Hu; run_check;
    [ | reported_invalid .. ].
  split_on_test; [reported_invalid|].
  split_on_test; [reported_invalid|].
  destruct (page_content page) as [html|e] eqn:Hc; run_check;
    [ | reported_invalid ].
  split_on_test; [reported_invalid|].
  destruct (load html) as [d|e] eqn:Hl; run_check; [ | reported_invalid ].
  destruct (selectLength d "body.neterror") as [[|n]|e] eqn:Hn; run_check;
    [ | reported_invalid .. ].
  destruct (selectText d "body") as [bodyText|e] eqn:Ht; run_check;
    [ | reported_invalid ].
  destruct (firstMatch errorPatterns html bodyText) as [q|] eqn:Hm; run_check;
    [ reported_invalid | ].
  eexists _, _; split; [reflexivity|]; split; [discriminate|].
  intros _. exists u, html, d, bodyText. repeat split; assumption.
Qed.

(** The only calls [isInvalidPage] makes on the page are [url()] and,
    after it, at most one [content()]. *)
Lemma isInvalidPage_calls (page : Page) (tr tr' : list Event)
    (c : Completion PageCheckResult) :
  check page tr = (c, tr') ->
  tr' = (tr ++ [EvUrl])%list \/ tr' = (tr ++ [EvUrl; EvContent])%list.
Proof.
  run_check.
  destruct (page_url page) as [[u|]|e]; run_check;
    [ | intros [= _ <-]; now left .. ].
  split_on_test; [intros [= _ <-]; now left|].
  split_on_test; [intros [= _ <-]; now left|].
  assert (Happ : ((tr ++ [EvUrl]) ++ [EvContent] = tr ++ [EvUrl; EvContent])%list)
    by now rewrite <- app_assoc.
  rewrite Happ.
  destruct (page_content page) as [html|e]; run_check;
    [ | intros [= _ <-]; now right ].
  split_on_test; [intros [= _ <-]; now right|].
  destruct (load html) as [d|e]; run_check; [ | intros [= _ <-]; now right ].
  destruct (selectLength d "body.neterror") as [[|n]|e]; run_check;
    [ | intros [= _ <-]; now right .. ].
  destruct (selectText d "body") as [bodyText|e]; run_check;
    [ | intros [= _ <-]; now right ].
  destruct (firstMatch errorPatterns html bodyText); run_check;
    intros [= _ <-]; now right.
Qed.

(** C2. [isInvalidPage] returns a [PageCheckResult] for every page handle
    and never throws, whatever [url()], [content()], the parser or the
    DOM queries do.  Every invalid result carries a non-empty reason, and
    a page is reported valid only when every step completed without
    failure, so every failure ends in an invalid result. *)
Theorem isInvalidPage_never_throws (page : Page) (tr : list Event) :
  exists r tr',
    check page tr = (Normal r, tr')
    /\ (invalid r = true -> exists s, reason r = Some s /\ s <> "")
    /\ (invalid r = false ->
        exists u html d bodyText,
          page_url page = Normal (Some u)
          /\ page_content page = Resolved html
          /\ load html = Normal d
          /\ selectLength d "body.neterror" = Normal 0
          /\ selectText d "body" = Normal bodyText).
Proof.
  destruct (isInvalidPage_answers page tr) as (r & tr' & E & Hinv & Hvalid).
  exists r, tr'. split; [exact E|]. split; [exact Hinv|].
  intros Hr. destruct (Hvalid Hr) as (u & html & d & bodyText & H).
  exists u, html, d, bodyText. tauto.
Qed.

Lemma ordinaryUrl_tests (u : string) :
  ordinaryUrl u ->
  negb (truthy u) || (u =? "about:blank")%string || (u =? "")%string = false
  /\ startsWith u "chrome-error://" || startsWith u "edge://" = false.
Proof.
  intros (H1 & H2 & H3 & H4). unfold truthy.
  apply String.eqb_neq in H1, H2. now rewrite H1, H2, H3, H4.
Qed.

(** C5 (amended). For a page with an ordinary URL whose content is
    shorter than 100 characters, [isInvalidPage] answers invalid with
    reason "empty page content"; when the retrieval of the content itself
    is rejected the answer is the same "empty page content", because the
    rejection is replaced by empty content before the length test. *)
Theorem degenerate_content_is_empty (page : Page) (u : string) (tr : list Event) :
  page_url page = Normal (Some u) ->
  ordinaryUrl u ->
  match page_content page with
  | Resolved html => String.length html < 100
  | Rejected _ => True
  end ->
  check page tr
  = (Normal {| invalid := true; reason := Some "empty page content" |},
     (tr ++ [EvUrl; EvContent])%list).
Proof.
  intros Hu Hord Hc. apply ordinaryUrl_tests in Hord as [T1 T2].
  run_check. rewrite Hu. run_check. rewrite T1, T2.
  destruct (page_content page) as [html|e]; run_check.
  - apply Nat.ltb_lt in Hc. rewrite Hc, orb_true_r, <- app_assoc. reflexivity.
  - rewrite <- app_assoc. reflexivity.
Qed.

(** C6 (amended). A page whose content contains "ERR_CONNECTION_RESET" is
    always classified invalid.  The reason is
    "HTTP/network error: ERR_CONNECTION_RESET" when no earlier check of
    the chain answers first: the URL is ordinary, the content has at
    least 100 characters, parsing and the DOM queries succeed, the body
    does not carry the neterror class, and none of the thirteen
    signatures listed before it occurs in the markup or the body text. *)
Theorem connection_reset_signature (page : Page) (html : string) (tr : list Event) :
  page_content page = Resolved html ->
  includes html "ERR_CONNECTION_RESET" = true ->
  (exists r tr', check page tr = (Normal r, tr') /\ invalid r = true)
  /\ (forall u d bodyText,
        page_url page = Normal (Some u) ->
        ordinaryUrl u ->
        100 <= String.length html ->
        load html = Normal d ->
        selectLength d "body.neterror" = Normal 0 ->
        selectText d "body" = Normal bodyText ->
        firstMatch (firstn 13 errorPatterns) html bodyText = None ->
        check page tr
        = (Normal {| invalid := true;
                     reason := Some "HTTP/network error: ERR_CONNECTION_RESET" |},
           (tr ++ [EvUrl; EvContent])%list)).
Proof.
  intros Hc Hin. split.
  - destruct (isInvalidPage_answers page tr) as (r & tr' & E & _ & Hvalid).
    exists r, tr'. split; [exact E|].
    destruct (invalid r) eqn:Hr; [reflexivity|exfalso].
    destruct (Hvalid eq_refl)
      as (u & html' & d & bodyText & _ & Hc' & _ & _ & _ & Hnone).
    rewrite Hc in Hc'. injection Hc' as <-.
    destruct (firstMatch_finds errorPatterns html bodyText "ERR_CONNECTION_RESET")
      as [q Hq]; [simpl; tauto | exact Hin |].
    congruence.
  - intros u d bodyText Hu Hord Hlen Hl Hn Ht Hm.
    apply ordinaryUrl_tests in Hord as [T1 T2].
    run_check. rewrite Hu. run_check. rewrite T1, T2, Hc. run_check.
    assert (Hnonempty : truthy html = true).
    { destruct html; [simpl in Hlen; lia | reflexivity]. }
    apply Nat.ltb_ge in Hlen. rewrite Hnonempty, Hlen. cbn [negb orb].
    rewrite Hl. run_check. rewrite Hn. run_check. rewrite Ht. run_check.
    change errorPatterns
      with (firstn 13 errorPatterns
              ++ ["ERR_CONNECTION_RESET"; "ERR_CONNECTION_TIMED_OUT"])%list.
    assert (Hscan : forall pre post,
               firstMatch pre html bodyText = None ->
               firstMatch (pre ++ post) html bodyText
               = firstMatch post html bodyText).
    { induction pre as [|x pre IH]; intros post Hnone; [reflexivity|].
      simpl in *. destruct (includes html x || includes bodyText x);
        [discriminate | now apply IH]. }
    rewrite Hscan by exact Hm.
    cbn [firstMatch]. rewrite Hin, <- app_assoc. reflexivity.
Qed.

End Classification.

Lemma blank_page_first_witness :
  isInvalidPage string sampleLoad sampleLength sampleText
    (samplePage (Some "about:blank") (Rejected (NonError "closed")) (Resolved tt)) []
  = (Normal {| invalid := true; reason := Some "blank page" |}, [EvUrl]).
Proof.
  apply (blank_page_first string sampleLoad sampleLength sampleText
           (samplePage (Some "about:blank") (Rejected (NonError "closed")) (Resolved tt)) []).
  right; right; reflexivity.
Defined.

(** A page with ordinary content and no error marker is valid. *)
Example healthy_page_is_valid :
  run (sampleCheck
         (samplePage (Some "https://rewards.bing.com/") (Resolved filler) (Resolved tt)))
  = (Normal {| invalid := false; reason := None |}, [EvUrl; EvContent]).
Proof. vm_compute. reflexivity. Qed.

Lemma degenerate_content_is_empty_witness :
  sampleCheck
    (samplePage (Some "https://rewards.bing.com/") (Resolved "<html></html>") (Resolved tt)) []
  = (Normal {| invalid := true; reason := Some "empty page content" |},
     [EvUrl; EvContent]).
Proof.
  apply (degenerate_content_is_empty string sampleLoad sampleLength sampleText
           (samplePage (Some "https://rewards.bing.com/") (Resolved "<html></html>") (Resolved tt))
           "https://rewards.bing.com/" []).
  - reflexivity.
  - repeat split; (discriminate || reflexivity).
  - simpl. lia.
Defined.

(** C5, as stated, fails: a rejected content retrieval on an ordinary URL
    is reported as "empty page content", which is not of the form
    "page check failed: ...". *)
Lemma content_rejection_counterexample :
  let page := samplePage (Some "https://rewards.bing.com/")
                (Rejected (ErrorObject "Target closed")) (Resolved tt) in
  page_content page = Rejected (ErrorObject "Target closed")
  /\ fst (run (sampleCheck page))
     = Normal {| invalid := true; reason := Some "empty page content" |}
  /\ startsWith "empty page content" "page check failed: " = false.
Proof. repeat split. Qed.

Lemma connection_reset_signature_witness :
  let html := filler ++ "ERR_CONNECTION_RESET" in
  let page := samplePage (Some "https://rewards.bing.com/") (Resolved html) (Resolved tt) in
  (exists r tr', sampleCheck page [] = (Normal r, tr') /\ invalid r = true)
  /\ sampleCheck page []
     = (Normal {| invalid := true;
                  reason := Some "HTTP/network error: ERR_CONNECTION_RESET" |},
        [EvUrl; EvContent]).
Proof.
  intros html page.
  destruct (connection_reset_signature string sampleLoad sampleLength sampleText
              page html [] eq_refl eq_refl) as [H1 H2].
  split; [exact H1|].
  apply (H2 "https://rewards.bing.com/" html html).
  - reflexivity.
  - repeat split; (discriminate || reflexivity).
  - vm_compute. repeat constructor.
  - reflexivity.
  - reflexivity.
  - reflexivity.
  - vm_compute. reflexivity.
Defined.

(** C6, as stated, fails: when an earlier signature of the catalogue also
    occurs in the content, the reason names that one and does not mention
    "ERR_CONNECTION_RESET". *)
Lemma connection_reset_counterexample :
  let html := filler ++ "This site can't be reached ERR_CONNECTION_RESET" in
  let page := samplePage (Some "https://rewards.bing.com/") (Resolved html) (Resolved tt) in
  includes html "ERR_CONNECTION_RESET" = true
  /\ fst (run (sampleCheck page))
     = Normal {| invalid := true;
                 reason := Some "HTTP/network error: This site can't be reached" |}
  /\ includes "HTTP/network error: This site can't be reached"
       "ERR_CONNECTION_RESET" = false.
Proof. vm_compute. repeat split. Qed.

Section Recovery.

Variable Cheerio : Type.
Variable load : string -> Completion Cheerio.
Variable selectLength : Cheerio -> string -> Completion nat.
Variable selectText : Cheerio -> string -> Completion string.
Variable pageReady : Page -> N -> Settled unit.

Local Abbreviation check := (isInvalidPage Cheerio load selectLength selectText).
Local Abbreviation validate :=
  (validateAndRedirect Cheerio load selectLength selectText pageReady).

(** C3 (amended). [validateAndRedirect] never throws and has no task body
    to invoke: besides the pre-check it only logs, closes, navigates and
    waits.  For a page the pre-check classifies invalid it returns
    [false]: with [closeOnInvalid] it logs the reason and closes the page
    without navigating; otherwise it logs, navigates once to the
    configured base URL with a 15000 ms timeout and, when that navigation
    succeeds, waits for the page to be ready within 10000 ms; when the
    navigation fails it logs the failure instead and does not wait.  For
    a valid page it returns [true] and neither closes nor navigates.
    The pre-check itself only calls [url()] and at most once
    [content()]. *)
Theorem validateAndRedirect_outcome
    (page : Page) (bot : MicrosoftRewardsBot) (closeOnInvalid : bool)
    (tr tr1 : list Event) (r : PageCheckResult) :
  check page tr = (Normal r, tr1) ->
  (tr1 = (tr ++ [EvUrl])%list \/ tr1 = (tr ++ [EvUrl; EvContent])%list)
  /\
  validate page bot closeOnInvalid tr
  = if invalid r then
      let warned :=
        (tr1 ++ [EvLog (isMobile bot) "PAGE-VALIDATOR"
                   ("Invalid page detected: " ++ showReason (reason r))
                   (Some LevelWarn)])%list in
      if closeOnInvalid then (Normal false, (warned ++ [EvClose])%list)
      else
        (Normal false,
         (warned
          ++ [EvLog (isMobile bot) "PAGE-VALIDATOR"
                "Redirecting to rewards home page..." None;
              EvGoto (baseURL (config bot)) "domcontentloaded" 15000]
          ++ match page_goto page (baseURL (config bot)) "domcontentloaded" 15000 with
             | Resolved _ => [EvWaitForPageReady 10000]
             | Rejected e =>
                 [EvLog (isMobile bot) "PAGE-VALIDATOR"
                    ("Failed to redirect to rewards: " ++ errorText e)
                    (Some LevelError)]
             end)%list)
    else (Normal true, tr1).
Proof.
  intros Hcheck.
  split; [exact (isInvalidPage_calls _ _ _ _ _ _ _ _ Hcheck)|].
  unfold validateAndRedirect, bind at 1. rewrite Hcheck.
  destruct (invalid r); [|reflexivity].
  destruct closeOnInvalid.
  - cbv beta iota zeta delta
      [bind log emit PageValidator.close ret await promise_catch].
    destruct (page_close page); reflexivity.
  - cbv beta iota zeta delta
      [bind try_catch log emit PageValidator.goto waitForPageReady ret await
       promise_catch throw].
    destruct (page_goto page (baseURL (config bot)) "domcontentloaded" 15000).
    + destruct (pageReady page 10000);
        rewrite <- !app_assoc; reflexivity.
    + rewrite <- !app_assoc; reflexivity.
Qed.

End Recovery.

Lemma validateAndRedirect_outcome_witness :
  sampleValidate
    (samplePage (Some "about:blank") (Resolved "") (Resolved tt)) sampleBot false []
  = (Normal false,
     [EvUrl;
      EvLog false "PAGE-VALIDATOR" "Invalid page detected: blank page" (Some LevelWarn);
      EvLog false "PAGE-VALIDATOR" "Redirecting to rewards home page..." None;
      EvGoto "https://rewards.bing.com" "domcontentloaded" 15000;
      EvWaitForPageReady 10000]).
Proof.
  apply (validateAndRedirect_outcome string sampleLoad sampleLength sampleText sampleReady
           (samplePage (Some "about:blank") (Resolved "") (Resolved tt)) sampleBot false
           [] [EvUrl] {| invalid := true; reason := Some "blank page" |}).
  reflexivity.
Defined.

(** C3, as stated, fails: when the recovery navigation is rejected, the
    failure is logged and no page-ready wait follows the navigation. *)
Lemma failed_navigation_counterexample :
  let page := samplePage (Some "about:blank") (Resolved "")
                (Rejected (ErrorObject "net::ERR_TIMED_OUT")) in
  let outcome := run (sampleValidate page sampleBot false) in
  outcome
  = (Normal false,
     [EvUrl;
      EvLog false "PAGE-VALIDATOR" "Invalid page detected: blank page" (Some LevelWarn);
      EvLog false "PAGE-VALIDATOR" "Redirecting to rewards home page..." None;
      EvGoto "https://rewards.bing.com" "domcontentloaded" 15000;
      EvLog false "PAGE-VALIDATOR"
        "Failed to redirect to rewards: net::ERR_TIMED_OUT" (Some LevelError)])
  /\ existsb isPageReadyWait (snd outcome) = false.
Proof. split; reflexivity. Qed.

(* ================================================================== *)
(** * Properties of the Discord command surface *)
(* ================================================================== *)

Section PermissionProperties.

Variable JsNumber : Type.
Variable numberToString : JsNumber -> string.

Lemma arrayIncludes_In (xs : list string) (x : string) :
  DiscordBot.arrayIncludes xs x = true <-> In x xs.
Proof.
  unfold DiscordBot.arrayIncludes. rewrite existsb_exists. split.
  - intros (y & Hy & E). apply String.eqb_eq in E. now subst.
  - intros H. exists x. split; [exact H | apply String.eqb_refl].
Qed.

(** C8. With no allow-list configured (the [discordBot] section or its
    [allowedUserIds] is absent, or the list is empty) [hasPermission]
    answers [true] for every interaction; with a configured list [ids]
    that is not empty it answers [true] exactly when the caller's user
    id is among the entries of [ids] converted to strings, a string
    entry standing for itself and a number for its decimal text. *)
Theorem hasPermission_policy
    (config : DiscordBot.Config JsNumber)
    (interaction : DiscordBot.ChatInputCommandInteraction) :
  let caller := DiscordBot.id (DiscordBot.user interaction) in
  let permitted := DiscordBot.hasPermission JsNumber numberToString config interaction in
  let asString := DiscordBot.toString JsNumber numberToString in
  (DiscordBot.discordBot config = None -> permitted = true)
  /\ (forall d, DiscordBot.discordBot config = Some d ->
                DiscordBot.allowedUserIds d = None -> permitted = true)
  /\ (forall d, DiscordBot.discordBot config = Some d ->
                DiscordBot.allowedUserIds d = Some [] -> permitted = true)
  /\ (forall d ids,
        DiscordBot.discordBot config = Some d ->
        DiscordBot.allowedUserIds d = Some ids ->
        ids <> [] ->
        (permitted = true <-> In caller (map asString ids)))
  /\ (forall s, asString (DiscordBot.IdString s) = s)
  /\ (forall n, asString (DiscordBot.IdNumber n) = numberToString n).
Proof.
  intros caller permitted asString.
  unfold permitted, DiscordBot.hasPermission, DiscordBot.configuredIds.
  fold caller.
  split; [now intros ->|].
  split; [now intros d -> ->|].
  split; [now intros d -> ->|].
  split; [|split; reflexivity].
  intros d ids -> -> Hne.
  destruct ids as [|e rest]; [congruence|].
  cbn [List.length Nat.eqb]. apply arrayIncludes_In.
Qed.

End PermissionProperties.

Lemma hasPermission_policy_witness :
  DiscordBot.hasPermission nat ofNat Scenarios.sampleConfig
    (Scenarios.command "222" "stop") = true
  /\ DiscordBot.hasPermission nat ofNat Scenarios.sampleConfig
       (Scenarios.command "333" "stop") = false.
Proof.
  split.
  - apply (proj1 (proj2 (proj2 (proj2
             (hasPermission_policy nat ofNat Scenarios.sampleConfig
                (Scenarios.command "222" "stop")))))
             _ _ eq_refl eq_refl).
    + discriminate.
    + cbn. tauto.
  - destruct (DiscordBot.hasPermission nat ofNat Scenarios.sampleConfig
                (Scenarios.command "333" "stop")) eqn:E; [exfalso|reflexivity].
    apply (proj1 (proj2 (proj2 (proj2
             (hasPermission_policy nat ofNat Scenarios.sampleConfig
                (Scenarios.command "333" "stop")))))
             _ _ eq_refl eq_refl) in E.
    + cbn in E. destruct E as [E|[E|[]]]; discriminate E.
    + discriminate.
Defined.

Lemma split_atFree (s : string) :
  DiscordBot.atFree s -> split "@"%char s = [s].
Proof.
  unfold DiscordBot.atFree.
  induction s as [|c s IH]; simpl; intros H; [reflexivity|].
  apply orb_false_iff in H as [Hc Hs].
  now rewrite Hc, (IH Hs).
Qed.

Lemma split_at (l rest : string) :
  DiscordBot.atFree l ->
  split "@"%char (l ++ "@" ++ rest) = l :: split "@"%char rest.
Proof.
  unfold DiscordBot.atFree.
  induction l as [|c l IH]; simpl; intros H; [reflexivity|].
  apply orb_false_iff in H as [Hc Hs].
  rewrite Hc. simpl in IH. now rewrite (IH Hs).
Qed.

(** Every string begins with an at-free segment that ends the string or
    is followed by an at-sign. *)
Lemma first_segment (s : string) :
  exists d rest, DiscordBot.atFree d /\ DiscordBot.segmentEnd rest /\ s = d ++ rest.
Proof.
  induction s as [|c s (d & rest & Hd & Hrest & ->)].
  - exists "", "". repeat split. now left.
  - destruct (Ascii.eqb c "@") eqn:E.
    + apply Ascii.eqb_eq in E; subst c.
      exists "", ("@" ++ d ++ rest). repeat split.
      right. now exists (d ++ rest).
    + exists (String c d), rest. repeat split; [|exact Hrest].
      unfold DiscordBot.atFree in *. simpl. now rewrite E, Hd.
Qed.

Lemma append_empty_r (s : string) : s ++ "" = s.
Proof. induction s; simpl; congruence. Qed.

Lemma truthy_false (s : string) : truthy s = false <-> s = "".
Proof. unfold truthy. destruct s; simpl; split; congruence. Qed.

Lemma truthy_true (s : string) : truthy s = true <-> s <> "".
Proof. unfold truthy. destruct s; simpl; split; congruence. Qed.

(** The redaction on an address with an at-sign: the first segment is the
    local part, the second the domain. *)
Lemma redactEmail_split (l d rest : string) :
  DiscordBot.atFree l -> DiscordBot.atFree d -> DiscordBot.segmentEnd rest ->
  DiscordBot.redactEmail (l ++ "@" ++ d ++ rest)
  = if truthy l && truthy d
    then substring0 2 l ++ "***@" ++ d
    else "***@***".
Proof.
  intros Hl Hd Hrest. unfold DiscordBot.redactEmail.
  rewrite (split_at l (d ++ rest) Hl).
  destruct Hrest as [->|[r ->]].
  - rewrite append_empty_r, (split_atFree d Hd). reflexivity.
  - rewrite (split_at d r Hd). reflexivity.
Qed.

Lemma redactEmail_no_at (e : string) :
  DiscordBot.atFree e -> DiscordBot.redactEmail e = "***@***".
Proof.
  intros H. unfold DiscordBot.redactEmail. now rewrite (split_atFree e H).
Qed.

(** The redaction computed by the handler is the redacted projection. *)
Lemma redactEmail_Redacted (e : string) :
  DiscordBot.Redacted e (DiscordBot.redactEmail e).
Proof.
  destruct (first_segment e) as (l & rest & Hl & Hrest & ->).
  destruct Hrest as [->|[r ->]].
  - rewrite append_empty_r, (redactEmail_no_at l Hl).
    now apply DiscordBot.RedactedNoAt.
  - destruct (first_segment r) as (d & rest & Hd & Hrest & ->).
    rewrite (redactEmail_split l d rest Hl Hd Hrest).
    destruct (truthy l) eqn:El; simpl.
    + destruct (truthy d) eqn:Ed.
      * apply truthy_true in El, Ed. now apply DiscordBot.RedactedSplit.
      * apply truthy_false in Ed; subst d.
        now apply DiscordBot.RedactedNoDomain.
    + apply truthy_false in El; subst l. apply DiscordBot.RedactedNoLocal.
Qed.

(** The redacted projection of an address is unique: it is what the
    handler computes. *)
Lemma Redacted_redactEmail (e x : string) :
  DiscordBot.Redacted e x -> x = DiscordBot.redactEmail e.
Proof.
  intros [l d rest Hl Hd Hrest Nl Nd | e' He | rest | l rest Hl Hrest].
  - rewrite (redactEmail_split l d rest Hl Hd Hrest).
    apply truthy_true in Nl, Nd. now rewrite Nl, Nd.
  - now rewrite (redactEmail_no_at e' He).
  - destruct (first_segment rest) as (d & rest' & Hd & Hrest' & ->).
    symmetry. exact (redactEmail_split "" d rest' eq_refl Hd Hrest').
  - change (l ++ "@" ++ rest) with (l ++ "@" ++ "" ++ rest).
    now rewrite (redactEmail_split l "" rest Hl eq_refl Hrest), andb_false_r.
Qed.

(** Characters of the local part past the second do not reach the
    output. *)
Lemma redactEmail_hides_local_tail (l1 l2 d : string) :
  DiscordBot.atFree l1 -> DiscordBot.atFree l2 -> DiscordBot.atFree d ->
  l1 <> "" -> l2 <> "" ->
  substring0 2 l1 = substring0 2 l2 ->
  DiscordBot.redactEmail (l1 ++ "@" ++ d) = DiscordBot.redactEmail (l2 ++ "@" ++ d).
Proof.
  intros H1 H2 Hd N1 N2 E.
  rewrite <- (append_empty_r d).
  rewrite !redactEmail_split by (assumption || now left).
  apply truthy_true in N1, N2. now rewrite N1, N2, E.
Qed.

Lemma mapFrom_length {A B : Type} (f : A -> nat -> B) (k : nat) (xs : list A) :
  List.length (DiscordBot.mapFrom f k xs) = List.length xs.
Proof. revert k; induction xs; simpl; intros; [reflexivity | now rewrite IHxs]. Qed.

Lemma mapFrom_nth {A B : Type} (f : A -> nat -> B) (xs : list A) :
  forall k i x, nth_error xs i = Some x ->
                nth_error (DiscordBot.mapFrom f k xs) i = Some (f x (k + i)).
Proof.
  induction xs as [|y xs IH]; intros k [|i] x H; simpl in *; try discriminate.
  - injection H as ->. now rewrite Nat.add_0_r.
  - rewrite (IH (S k) i x H). f_equal. f_equal. lia.
Qed.

Lemma mapFrom_map {A A' B C : Type} (f : C -> nat -> B)
    (g : A -> C) (g' : A' -> C) (xs : list A) (xs' : list A') :
  map g' xs' = map g xs ->
  forall k, DiscordBot.mapFrom (fun x => f (g' x)) k xs'
            = DiscordBot.mapFrom (fun x => f (g x)) k xs.
Proof.
  revert xs'. induction xs as [|x xs IH]; intros [|x' xs'] E k;
    simpl in *; try discriminate; [reflexivity|].
  injection E as E1 E2. now rewrite E1, (IH xs' E2).
Qed.

(** The rendered list is a function of the redacted entries. *)
Lemma accountList_from_entries
    (A A' : Type) (email : A -> string) (email' : A' -> string)
    (accounts : list A) (accounts' : list A') :
  map (fun a => DiscordBot.redactEmail (email' a)) accounts'
  = map (fun a => DiscordBot.redactEmail (email a)) accounts ->
  DiscordBot.accountList A' email' accounts'
  = DiscordBot.accountList A email accounts.
Proof.
  intros E. unfold DiscordBot.accountList, DiscordBot.mapWithIndex. f_equal.
  apply (mapFrom_map (fun entry idx => ofNat (idx + 1) ++ ". " ++ entry)
           (fun a => DiscordBot.redactEmail (email a))
           (fun a => DiscordBot.redactEmail (email' a))
           accounts accounts' E).
Qed.

(** The reply of the handler is a function of the redacted entries. *)
Lemma handleAccounts_from_entries
    (A A' : Type) (email : A -> string) (email' : A' -> string)
    (accounts : list A) (accounts' : list A') :
  map (fun a => DiscordBot.redactEmail (email' a)) accounts'
  = map (fun a => DiscordBot.redactEmail (email a)) accounts ->
  fst (DiscordBot.handleAccounts A' email' (Normal accounts'))
  = fst (DiscordBot.handleAccounts A email (Normal accounts)).
Proof.
  intros E. unfold DiscordBot.handleAccounts, DiscordBot.listingEmbed.
  assert (Hlen : List.length accounts' = List.length accounts).
  { rewrite <- (length_map (fun a => DiscordBot.redactEmail (email' a)) accounts'), E.
    apply length_map. }
  rewrite Hlen, (accountList_from_entries A A' email email' accounts accounts' E).
  reflexivity.
Qed.

(* ------------------------------------------------------------------ *)
(** ** The limit on the length of a description *)
(* ------------------------------------------------------------------ *)

Lemma length_append (s t : string) :
  String.length (s ++ t) = String.length s + String.length t.
Proof. induction s as [|c s IH]; simpl; [reflexivity | now rewrite IH]. Qed.

Lemma setDescription_fits (text : string) :
  1 <= String.length text -> String.length text <= 4096 ->
  DiscordBot.setDescription text = Normal text.
Proof.
  intros H1 H2. unfold DiscordBot.setDescription.
  now rewrite (proj2 (Nat.leb_le _ _) H1), (proj2 (Nat.leb_le _ _) H2).
Qed.

Lemma setDescription_long (text : string) :
  4096 < String.length text ->
  DiscordBot.setDescription text
  = Throw (ErrorObject "Received one or more errors").
Proof.
  intros H. unfold DiscordBot.setDescription.
  now rewrite (proj2 (Nat.leb_gt _ _) H), andb_false_r.
Qed.

Lemma join_length_head (sep x : string) (xs : list string) :
  String.length x <= String.length (join sep (x :: xs)).
Proof.
  destruct xs as [|y ys]; [apply Nat.le_refl|].
  change (join sep (x :: y :: ys)) with (x ++ sep ++ join sep (y :: ys)).
  rewrite length_append. apply Nat.le_add_r.
Qed.

(** The list rendered for at least one account is not empty. *)
Lemma accountList_nonempty (Account : Type) (email : Account -> string)
    (accounts : list Account) :
  accounts <> [] ->
  1 <= String.length (DiscordBot.accountList Account email accounts).
Proof.
  destruct accounts as [|a rest]; [congruence|]. intros _.
  unfold DiscordBot.accountList, DiscordBot.mapWithIndex.
  cbn [DiscordBot.mapFrom].
  eapply Nat.le_trans; [|apply join_length_head].
  unfold DiscordBot.accountLine.
  change (ofNat (0 + 1)) with "1". cbn [String.append String.length].
  apply le_n_S, Nat.le_0_l.
Qed.

(** What the handler answers for accounts whose list fits a description. *)
Lemma handleAccounts_listing (Account : Type) (email : Account -> string)
    (accounts : list Account) :
  accounts <> [] ->
  String.length (DiscordBot.accountList Account email accounts) <= 4096 ->
  fst (DiscordBot.handleAccounts Account email (Normal accounts))
  = Normal
      {| DiscordBot.embeds :=
           [ {| DiscordBot.title := "👥 Configured Accounts";
                DiscordBot.description := DiscordBot.accountList Account email accounts;
                DiscordBot.color := DiscordBot.COLOR_BLUE;
                DiscordBot.footer :=
                  Some ("Total: " ++ ofNat (List.length accounts) ++ " account(s)") |} ];
         DiscordBot.ephemeral := true |}.
Proof.
  intros Hne Hfit.
  unfold DiscordBot.handleAccounts, DiscordBot.listingEmbed.
  rewrite (setDescription_fits _ (accountList_nonempty Account email accounts Hne) Hfit).
  destruct accounts as [|a rest]; [congruence | reflexivity].
Qed.

(** What the handler answers for accounts whose list is too long. *)
Lemma handleAccounts_too_long (Account : Type) (email : Account -> string)
    (accounts : list Account) :
  4096 < String.length (DiscordBot.accountList Account email accounts) ->
  fst (DiscordBot.handleAccounts Account email (Normal accounts))
  = Normal
      {| DiscordBot.embeds :=
           [DiscordBot.createEmbed "❌ Error"
              "Failed to load accounts: Received one or more errors"
              DiscordBot.COLOR_RED];
         DiscordBot.ephemeral := true |}.
Proof.
  intros Hlong.
  unfold DiscordBot.handleAccounts, DiscordBot.listingEmbed.
  rewrite (setDescription_long _ Hlong).
  destruct accounts as [|a rest]; [inversion Hlong | reflexivity].
Qed.

(** After a successful load the handler always replies, privately and
    with one embed. *)
Lemma handleAccounts_replies (Account : Type) (email : Account -> string)
    (accounts : list Account) :
  exists reply,
    fst (DiscordBot.handleAccounts Account email (Normal accounts)) = Normal reply
    /\ DiscordBot.ephemeral reply = true
    /\ List.length (DiscordBot.embeds reply) = 1.
Proof.
  destruct accounts as [|a rest] eqn:Ha; [eexists; repeat split|].
  rewrite <- Ha.
  assert (Hne : accounts <> []) by (rewrite Ha; discriminate).
  destruct (Nat.le_gt_cases
              (String.length (DiscordBot.accountList Account email accounts)) 4096)
    as [Hfit|Hlong].
  - rewrite (handleAccounts_listing Account email accounts Hne Hfit).
    eexists; repeat split.
  - rewrite (handleAccounts_too_long Account email accounts Hlong).
    eexists; repeat split.
Qed.

(** What the handler does when the accounts cannot be loaded. *)
Lemma handleAccounts_load_failure (Account : Type) (email : Account -> string)
    (e : Thrown) :
  let text := "Failed to load accounts: " ++ errorText e in
  fst (DiscordBot.handleAccounts Account email (Throw e))
  = if Nat.leb (String.length text) 4096
    then Normal {| DiscordBot.embeds :=
                     [DiscordBot.createEmbed "❌ Error" text DiscordBot.COLOR_RED];
                   DiscordBot.ephemeral := true |}
    else Throw (ErrorObject "Received one or more errors").
Proof.
  intros text.
  unfold DiscordBot.handleAccounts, DiscordBot.createEmbedChecked,
    DiscordBot.setDescription. cbn [fst]. fold text.
  replace (Nat.leb 1 (String.length text)) with true.
  - cbn [andb]. destruct (Nat.leb (String.length text) 4096); reflexivity.
  - symmetry. apply Nat.leb_le. unfold text. rewrite length_append.
    cbn [String.length]. apply le_n_S, Nat.le_0_l.
Qed.

(* ------------------------------------------------------------------ *)
(** ** Where the listing shows an at-sign *)
(* ------------------------------------------------------------------ *)

Lemma atFree_guarded (s : string) (prev : ascii) :
  DiscordBot.atFree s -> DiscordBot.guardedAfter prev s = true.
Proof.
  unfold DiscordBot.atFree. revert prev.
  induction s as [|c s IH]; intros prev H; simpl in *; [reflexivity|].
  apply orb_false_iff in H as [Hc Hs]. now rewrite Hc, (IH c Hs).
Qed.

Lemma guarded_app (s t : string) (prev : ascii) :
  DiscordBot.guardedAfter prev s = true ->
  (forall q, DiscordBot.guardedAfter q t = true) ->
  DiscordBot.guardedAfter prev (s ++ t) = true.
Proof.
  revert prev. induction s as [|c s IH]; intros prev Hs Ht; simpl in *.
  - apply Ht.
  - apply andb_true_iff in Hs as [Hc Hs]. now rewrite Hc, (IH c Hs Ht).
Qed.

Lemma atFree_app (s t : string) :
  DiscordBot.atFree s -> DiscordBot.atFree t -> DiscordBot.atFree (s ++ t).
Proof.
  unfold DiscordBot.atFree. induction s as [|c s IH]; simpl; intros Hs Ht.
  - exact Ht.
  - apply orb_false_iff in Hs as [Hc Hs]. now rewrite Hc, (IH Hs Ht).
Qed.

Lemma atFree_substring0 (n : nat) (s : string) :
  DiscordBot.atFree s -> DiscordBot.atFree (substring0 n s).
Proof.
  unfold DiscordBot.atFree. revert s.
  induction n as [|n IH]; intros [|c s] H; simpl in *; try reflexivity.
  apply orb_false_iff in H as [Hc Hs]. now rewrite Hc, (IH s Hs).
Qed.

Lemma atFree_ofNat (n : nat) : DiscordBot.atFree (ofNat n).
Proof.
  unfold ofNat, DiscordBot.atFree.
  induction (Nat.to_uint n); simpl; auto.
Qed.

(** The segments [split] returns hold no separator. *)
Lemma split_segments_atFree (s : string) :
  Forall DiscordBot.atFree (split "@"%char s).
Proof.
  induction s as [|c s IH]; simpl.
  - repeat constructor.
  - destruct (Ascii.eqb c "@") eqn:E.
    + constructor; [reflexivity | exact IH].
    + destruct (split "@"%char s) as [|seg segs].
      * repeat constructor. unfold DiscordBot.atFree. simpl. now rewrite E.
      * inversion IH as [|? ? Hseg Hsegs]; subst.
        constructor; [|exact Hsegs].
        unfold DiscordBot.atFree in *. simpl. now rewrite E, Hseg.
Qed.

Lemma redactEmail_guarded (e : string) (prev : ascii) :
  DiscordBot.guardedAfter prev (DiscordBot.redactEmail e) = true.
Proof.
  unfold DiscordBot.redactEmail.
  pose proof (split_segments_atFree e) as Hall.
  destruct (nth_error (split "@"%char e) 0) as [l|] eqn:E0; [|reflexivity].
  destruct (nth_error (split "@"%char e) 1) as [d|] eqn:E1; [|reflexivity].
  destruct (truthy l && truthy d); [|reflexivity].
  assert (Hl : DiscordBot.atFree l)
    by (apply (proj1 (Forall_forall _ _) Hall), (nth_error_In _ _ E0)).
  assert (Hd : DiscordBot.atFree d)
    by (apply (proj1 (Forall_forall _ _) Hall), (nth_error_In _ _ E1)).
  apply guarded_app.
  - apply atFree_guarded, atFree_substring0, Hl.
  - intros q. simpl. now apply atFree_guarded.
Qed.

Lemma join_guarded (lines : list string) :
  (forall line, In line lines -> forall q, DiscordBot.guardedAfter q line = true) ->
  forall q, DiscordBot.guardedAfter q (join LF lines) = true.
Proof.
  induction lines as [|x rest IH]; intros H q; [reflexivity|].
  destruct rest as [|y rest'].
  - apply H. now left.
  - change (join LF (x :: y :: rest')) with (x ++ LF ++ join LF (y :: rest')).
    apply guarded_app; [apply H; now left|].
    intros q'. apply guarded_app; [reflexivity|].
    apply IH. intros line Hin. apply H. now right.
Qed.

Lemma mapFrom_In {A B : Type} (f : A -> nat -> B) (xs : list A) :
  forall k y, In y (DiscordBot.mapFrom f k xs) -> exists x i, y = f x i.
Proof.
  induction xs as [|x xs IH]; intros k y H; simpl in H; [contradiction|].
  destruct H as [<-|H]; [now exists x, k | exact (IH _ _ H)].
Qed.

(** In the rendered list every at-sign stands right after an asterisk. *)
Lemma accountList_guarded (Account : Type) (email : Account -> string)
    (accounts : list Account) (q : ascii) :
  DiscordBot.guardedAfter q (DiscordBot.accountList Account email accounts) = true.
Proof.
  unfold DiscordBot.accountList. apply join_guarded.
  intros line Hin q'. unfold DiscordBot.mapWithIndex in Hin.
  apply mapFrom_In in Hin as (acc & i & ->). unfold DiscordBot.accountLine.
  apply guarded_app; [apply atFree_guarded, atFree_ofNat|].
  intros p. apply guarded_app; [reflexivity|].
  intros p'. apply redactEmail_guarded.
Qed.

Lemma guarded_suffix (x z : string) (prev : ascii) :
  DiscordBot.guardedAfter prev (x ++ z) = true ->
  exists q, DiscordBot.guardedAfter q z = true.
Proof.
  revert prev. induction x as [|c x IH]; intros prev H; simpl in H.
  - now exists prev.
  - apply andb_true_iff in H as [_ H]. exact (IH c H).
Qed.

Lemma guarded_at (pre z : string) (c prev : ascii) :
  DiscordBot.guardedAfter prev (pre ++ String c (String "@" z)) = true ->
  c = "*"%char.
Proof.
  revert prev. induction pre as [|d pre IH]; intros prev H; simpl in H.
  - apply andb_true_iff in H as [_ H]. apply andb_true_iff in H as [H _].
    simpl in H. now apply Ascii.eqb_eq in H.
  - apply andb_true_iff in H as [_ H]. exact (IH d H).
Qed.

(** A string in which some at-sign follows a character other than an
    asterisk does not occur in a text whose at-signs all follow an
    asterisk. *)
Lemma guarded_excludes (text pre post : string) (c q : ascii) :
  DiscordBot.guardedAfter q text = true ->
  c <> "*"%char ->
  includes text (pre ++ String c ("@" ++ post)) = false.
Proof.
  intros G Hc.
  destruct (includes _ _) eqn:E; [exfalso|reflexivity].
  apply includes_inv in E as (x & y & E).
  rewrite E in G. apply guarded_suffix in G as [q' G].
  rewrite append_assoc in G. simpl in G.
  now apply guarded_at in G.
Qed.

(** A string in which some at-sign follows a character other than an
    asterisk does not occur in the rendered list.  An address whose
    local part does not end in an asterisk is such a string. *)
Lemma unredacted_address_not_listed
    (Account : Type) (email : Account -> string) (accounts : list Account)
    (pre post : string) (c : ascii) :
  c <> "*"%char ->
  includes (DiscordBot.accountList Account email accounts)
           (pre ++ String c ("@" ++ post)) = false.
Proof.
  intros Hc.
  apply (guarded_excludes _ pre post c "x"%char); [|exact Hc].
  apply accountList_guarded.
Qed.

(** In every text of a reply to /accounts that follows a successful
    load (title, description and footer of its embeds), each at-sign
    stands right after an asterisk. *)
Lemma handleAccounts_texts_guarded
    (Account : Type) (email : Account -> string) (accounts : list Account)
    (reply : DiscordBot.Reply) (embed : DiscordBot.Embed) :
  fst (DiscordBot.handleAccounts Account email (Normal accounts)) = Normal reply ->
  In embed (DiscordBot.embeds reply) ->
  forall q,
    DiscordBot.guardedAfter q (DiscordBot.title embed) = true
    /\ DiscordBot.guardedAfter q (DiscordBot.description embed) = true
    /\ forall text, DiscordBot.footer embed = Some text ->
                    DiscordBot.guardedAfter q text = true.
Proof.
  intros Hreply Hin q.
  destruct accounts as [|a rest] eqn:Ha.
  - injection Hreply as <-. destruct Hin as [<-|[]].
    split; [reflexivity|]. split; [reflexivity | discriminate].
  - rewrite <- Ha in *.
    assert (Hne : accounts <> []) by (rewrite Ha; discriminate).
    destruct (Nat.le_gt_cases
                (String.length (DiscordBot.accountList Account email accounts)) 4096)
      as [Hfit|Hlong].
    + rewrite (handleAccounts_listing Account email accounts Hne Hfit) in Hreply.
      injection Hreply as <-. destruct Hin as [<-|[]].
      cbn [DiscordBot.title DiscordBot.description DiscordBot.footer].
      split; [reflexivity|]. split; [apply accountList_guarded|].
      intros text [= <-].
      apply (guarded_app "Total: " _ q); [reflexivity|]. intros q'.
      apply (guarded_app (ofNat (List.length accounts)) " account(s)" q');
        [apply atFree_guarded, atFree_ofNat|].
      intros q''. reflexivity.
    + rewrite (handleAccounts_too_long Account email accounts Hlong) in Hreply.
      injection Hreply as <-. destruct Hin as [<-|[]].
      split; [reflexivity|]. split; [reflexivity | discriminate].
Qed.

(** C9. The accounts listing leaves the loaded accounts as they are and
    always answers privately.  When there are accounts and their list
    fits a description (4096 characters), the description holds one line
    per account, numbered from 1, whose entry is the redacted projection
    of the address: the first two characters of the local part, the
    marker and the domain, or the fixed mask when the address does not
    split into a local part and a domain.  A longer list is not sent:
    the builder refuses it and the reply is the error embed.  Nothing
    else of an account reaches the reply: accounts whose addresses have
    the same redacted projection, whatever the rest of the address and
    whatever their credentials, produce the same reply.  And an address
    in which some at-sign follows a character other than an asterisk
    occurs in no text of the reply: not in the title, the description
    or the footer of an embed. *)
Theorem accounts_listing_redacted
    (Account : Type) (email : Account -> string) (accounts : list Account) :
  let outcome := DiscordBot.handleAccounts Account email (Normal accounts) in
  let listing := DiscordBot.accountList Account email accounts in
  snd outcome = Some accounts
  /\ (exists reply,
        fst outcome = Normal reply /\ DiscordBot.ephemeral reply = true)
  /\ (accounts <> [] -> String.length listing <= 4096 ->
      exists lines,
        fst outcome
        = Normal
            {| DiscordBot.embeds :=
                 [ {| DiscordBot.title := "👥 Configured Accounts";
                      DiscordBot.description := join LF lines;
                      DiscordBot.color := DiscordBot.COLOR_BLUE;
                      DiscordBot.footer :=
                        Some ("Total: " ++ ofNat (List.length accounts)
                                ++ " account(s)") |} ];
               DiscordBot.ephemeral := true |}
        /\ List.length lines = List.length accounts
        /\ forall i acc,
             nth_error accounts i = Some acc ->
             exists entry,
               nth_error lines i = Some (ofNat (i + 1) ++ ". " ++ entry)
               /\ DiscordBot.Redacted (email acc) entry)
  /\ (4096 < String.length listing ->
      fst outcome
      = Normal
          {| DiscordBot.embeds :=
               [ {| DiscordBot.title := "❌ Error";
                    DiscordBot.description :=
                      "Failed to load accounts: Received one or more errors";
                    DiscordBot.color := DiscordBot.COLOR_RED;
                    DiscordBot.footer := None |} ];
             DiscordBot.ephemeral := true |})
  /\ (forall (Account' : Type) (email' : Account' -> string)
             (accounts' : list Account'),
        Forall2 (fun a' a => exists entry,
                   DiscordBot.Redacted (email' a') entry
                   /\ DiscordBot.Redacted (email a) entry)
                accounts' accounts ->
        fst (DiscordBot.handleAccounts Account' email' (Normal accounts'))
        = fst outcome)
  /\ (forall reply acc pre c post,
        fst outcome = Normal reply ->
        In acc accounts ->
        email acc = pre ++ String c ("@" ++ post) ->
        c <> "*"%char ->
        forall embed, In embed (DiscordBot.embeds reply) ->
          includes (DiscordBot.title embed) (email acc) = false
          /\ includes (DiscordBot.description embed) (email acc) = false
          /\ forall text, DiscordBot.footer embed = Some text ->
                          includes text (email acc) = false).
Proof.
  intros outcome listing. unfold outcome, listing.
  split; [reflexivity|].
  split; [|split; [|split; [|split]]].
  - destruct (handleAccounts_replies Account email accounts)
      as (reply & Hreply & Heph & _).
    now exists reply.
  - intros Hne Hfit.
    rewrite (handleAccounts_listing Account email accounts Hne Hfit).
    exists (DiscordBot.mapWithIndex (DiscordBot.accountLine Account email) accounts).
    split; [reflexivity|]. split.
    + apply mapFrom_length.
    + intros i acc Hi. exists (DiscordBot.redactEmail (email acc)). split.
      * unfold DiscordBot.mapWithIndex.
        now rewrite (mapFrom_nth _ _ 0 i acc Hi).
      * apply redactEmail_Redacted.
  - apply handleAccounts_too_long.
  - intros Account' email' accounts' Hsame.
    apply handleAccounts_from_entries.
    induction Hsame as [|a' a l' l (entry & H' & H) _ IH]; [reflexivity|].
    simpl. rewrite IH. f_equal.
    now rewrite <- (Redacted_redactEmail _ _ H'), <- (Redacted_redactEmail _ _ H).
  - intros reply acc pre c post Hreply _ -> Hc embed Hin.
    destruct (handleAccounts_texts_guarded Account email accounts reply embed
                Hreply Hin "x"%char) as (Gt & Gd & Gf).
    split; [exact (guarded_excludes _ pre post c _ Gt Hc)|].
    split; [exact (guarded_excludes _ pre post c _ Gd Hc)|].
    intros text Hf. exact (guarded_excludes _ pre post c _ (Gf text Hf) Hc).
Qed.

(** Two accounts, the second with an address that has no domain: the
    reply lists the redacted entries, and the first address occurs in
    none of its texts. *)
Lemma accounts_listing_redacted_witness :
  let accounts := [("john.doe@outlook.com", "hunter2"); ("jane@", "s3cret")] in
  exists reply,
    fst (DiscordBot.handleAccounts (string * string) fst (Normal accounts))
    = Normal reply
    /\ map DiscordBot.description (DiscordBot.embeds reply)
       = ["1. jo***@outlook.com" ++ LF ++ "2. ***@***"]
    /\ forall embed, In embed (DiscordBot.embeds reply) ->
         includes (DiscordBot.title embed) "john.doe@outlook.com" = false
         /\ includes (DiscordBot.description embed) "john.doe@outlook.com" = false
         /\ forall text, DiscordBot.footer embed = Some text ->
                         includes text "john.doe@outlook.com" = false.
Proof.
  intros accounts.
  exists {| DiscordBot.embeds :=
              [ {| DiscordBot.title := "👥 Configured Accounts";
                   DiscordBot.description :=
                     "1. jo***@outlook.com" ++ LF ++ "2. ***@***";
                   DiscordBot.color := DiscordBot.COLOR_BLUE;
                   DiscordBot.footer := Some "Total: 2 account(s)" |} ];
            DiscordBot.ephemeral := true |}.
  split; [vm_compute; reflexivity|]. split; [reflexivity|].
  apply (proj2 (proj2 (proj2 (proj2 (proj2
           (accounts_listing_redacted (string * string) fst accounts)))))
           _ ("john.doe@outlook.com", "hunter2") "john.do" "e"%char "outlook.com").
  - vm_compute. reflexivity.
  - left. reflexivity.
  - reflexivity.
  - discriminate.
Defined.

(** An address that is its own redacted projection is listed as it is:
    the reply holds the raw address. *)
Lemma self_redacted_address_counterexample :
  let accounts := [("ab***@x.com", "hunter2")] in
  fst (DiscordBot.handleAccounts (string * string) fst (Normal accounts))
  = Normal
      {| DiscordBot.embeds :=
           [ {| DiscordBot.title := "👥 Configured Accounts";
                DiscordBot.description := "1. ab***@x.com";
                DiscordBot.color := DiscordBot.COLOR_BLUE;
                DiscordBot.footer := Some "Total: 1 account(s)" |} ];
         DiscordBot.ephemeral := true |}
  /\ includes "1. ab***@x.com" "ab***@x.com" = true.
Proof. vm_compute. split; reflexivity. Qed.

(* ================================================================== *)
(** * Properties of the execution controller *)
(* ================================================================== *)

Module ControllerProperties.
Import ExecutionController.

(** Taking both steps of a call in a row is [start()]. *)
Lemma start_is_two_steps (answer : Launch) (c : Controller) :
  let (c1, k1) := stepCall c (Pending answer) in
  let (c2, k2) := stepCall c1 k1 in
  (c2, resultOf k2) = (fst (start answer c), Some (snd (start answer c))).
Proof.
  unfold start. destruct c as [[] st], answer; reflexivity.
Qed.

(** A call that finds the controller busy leaves it untouched. *)
Lemma rejected_call_changes_nothing (answer : Launch) (c : Controller) :
  state c <> Idle ->
  stepCall c (Pending answer) = (c, Returned alreadyRunning).
Proof. destruct c as [[] st]; simpl; congruence. Qed.

(** Two calls one after the other, each run to completion: the second
    finds the run started by the first. *)
Lemma start_twice (c : Controller) (pid t : nat) (answer : Launch) :
  state c = Idle ->
  let (c1, r1) := start (Launched pid t) c in
  let (c2, r2) := start answer c1 in
  r1 = ok /\ r2 = alreadyRunning /\ c2 = c1.
Proof. intros H. unfold start. rewrite H. simpl. repeat split. Qed.

Lemma runSchedule_cons (t : Turn) (schedule : list Turn) (s : System) :
  runSchedule (t :: schedule) s = runSchedule schedule (stepSystem s t).
Proof. reflexivity. Qed.

Lemma mirror_step (s : System) (t : Turn) :
  mirror (stepSystem s t) = stepSystem (mirror s) (flipTurn t).
Proof.
  destruct s as [c k1 k2], t; simpl;
    match goal with |- context [stepCall ?c ?k] => destruct (stepCall c k) end;
    reflexivity.
Qed.

Lemma mirror_run (schedule : list Turn) (s : System) :
  mirror (runSchedule schedule s) = runSchedule (map flipTurn schedule) (mirror s).
Proof.
  revert s. induction schedule as [|t rest IH]; intros s; [reflexivity|].
  simpl map. rewrite !runSchedule_cons, IH, mirror_step. reflexivity.
Qed.

Lemma turns_flip (t : Turn) (schedule : list Turn) :
  turns (flipTurn t) (map flipTurn schedule) = turns t schedule.
Proof.
  unfold turns. induction schedule as [|u rest IH]; [reflexivity|].
  destruct t, u; simpl in *; congruence.
Qed.

Lemma turns_cons (t u : Turn) (schedule : list Turn) :
  turns t (u :: schedule)
  = (match t, u with
     | TurnFirst, TurnFirst | TurnSecond, TurnSecond => 1
     | _, _ => 0
     end) + turns t schedule.
Proof. unfold turns. destruct t, u; reflexivity. Qed.

Section FirstCallEnters.

Variables (pid timestamp : nat) (other : Launch).

Local Abbreviation settled :=
  {| controller := runningAs pid timestamp;
     first := Returned ok;
     second := Returned alreadyRunning |}.

Lemma settled_stays (schedule : list Turn) :
  runSchedule schedule settled = settled.
Proof.
  induction schedule as [|[] rest IH]; [reflexivity| |];
    rewrite runSchedule_cons; exact IH.
Qed.

Lemma loser_still_pending (schedule : list Turn) :
  1 <= turns TurnSecond schedule ->
  runSchedule schedule
    {| controller := runningAs pid timestamp;
       first := Returned ok; second := Pending other |}
  = settled.
Proof.
  induction schedule as [|[] rest IH]; rewrite ?turns_cons; intros H.
  - cbv in H. lia.
  - rewrite runSchedule_cons. apply IH. simpl in H. exact H.
  - rewrite runSchedule_cons. apply settled_stays.
Qed.

Lemma winner_still_launching (st : RunStatus) (schedule : list Turn) :
  1 <= turns TurnFirst schedule ->
  runSchedule schedule
    {| controller := {| state := Starting; status := st |};
       first := Launching (Launched pid timestamp);
       second := Returned alreadyRunning |}
  = settled.
Proof.
  induction schedule as [|[] rest IH]; rewrite ?turns_cons; intros H.
  - cbv in H. lia.
  - rewrite runSchedule_cons. apply settled_stays.
  - rewrite runSchedule_cons. apply IH. simpl in H. exact H.
Qed.

Lemma after_entering (st : RunStatus) (schedule : list Turn) :
  1 <= turns TurnFirst schedule ->
  1 <= turns TurnSecond schedule ->
  runSchedule schedule
    {| controller := {| state := Starting; status := st |};
       first := Launching (Launched pid timestamp);
       second := Pending other |}
  = settled.
Proof.
  induction schedule as [|[] rest IH]; rewrite ?turns_cons; intros H1 H2.
  - cbv in H1. lia.
  - rewrite runSchedule_cons. apply loser_still_pending. simpl in H2. exact H2.
  - rewrite runSchedule_cons. apply winner_still_launching. simpl in H1. exact H1.
Qed.

(** When the first call takes the first step, it is the one that starts
    the run. *)
Lemma first_enters (c : Controller) (schedule : list Turn) :
  state c = Idle ->
  complete (TurnFirst :: schedule) ->
  runSchedule (TurnFirst :: schedule)
    (twoCalls c (Launched pid timestamp) other)
  = settled.
Proof.
  intros Hidle [H1 H2]. rewrite turns_cons in H1, H2.
  rewrite runSchedule_cons. unfold twoCalls, stepSystem. simpl.
  rewrite Hidle. apply after_entering; simpl in *; lia.
Qed.

End FirstCallEnters.

Lemma mirror_involutive (s : System) : mirror (mirror s) = s.
Proof. now destruct s. Qed.

(** When the second call takes the first step, it is the one that starts
    the run. *)
Lemma second_enters (pid timestamp : nat) (other : Launch)
    (c : Controller) (schedule : list Turn) :
  state c = Idle ->
  complete (TurnSecond :: schedule) ->
  runSchedule (TurnSecond :: schedule)
    (twoCalls c other (Launched pid timestamp))
  = {| controller := runningAs pid timestamp;
       first := Returned alreadyRunning;
       second := Returned ok |}.
Proof.
  intros Hidle [H1 H2].
  rewrite <- (mirror_involutive (runSchedule _ _)), mirror_run.
  change (mirror (twoCalls c other (Launched pid timestamp)))
    with (twoCalls c (Launched pid timestamp) other).
  change (map flipTurn (TurnSecond :: schedule))
    with (TurnFirst :: map flipTurn schedule).
  rewrite first_enters; [reflexivity | exact Hidle |].
  split.
  - change (TurnFirst :: map flipTurn schedule)
      with (map flipTurn (TurnSecond :: schedule)).
    now rewrite (turns_flip TurnSecond).
  - change (TurnFirst :: map flipTurn schedule)
      with (map flipTurn (TurnSecond :: schedule)).
    now rewrite (turns_flip TurnFirst).
Qed.

(** C1 (amended). Two calls of [start()] issued on an idle controller
    whose launches succeed, in any interleaving of their steps that lets
    both finish (one after the other included): the call that takes the
    first step, and so moves the state out of [Idle], returns success;
    the other returns "already running"; and the controller ends exactly
    as the successful call alone leaves it, so the rejected call had no
    effect on it. *)
Theorem start_mutual_exclusion
    (c : Controller) (schedule : list Turn) (pid1 t1 pid2 t2 : nat) :
  state c = Idle ->
  complete schedule ->
  let answer t :=
    match t with
    | TurnFirst => Launched pid1 t1
    | TurnSecond => Launched pid2 t2
    end in
  let final :=
    runSchedule schedule (twoCalls c (answer TurnFirst) (answer TurnSecond)) in
  let winner := entersFirst schedule in
  resultOf (callOf winner final) = Some ok
  /\ resultOf (callOf (flipTurn winner) final) = Some alreadyRunning
  /\ controller final = fst (start (answer winner) c)
  /\ ok <> alreadyRunning.
Proof.
  intros Hidle Hcomplete answer final winner.
  destruct schedule as [|[] rest].
  - destruct Hcomplete as [H _]. cbv in H. lia.
  - unfold final, winner, answer, entersFirst, start. simpl hd.
    rewrite (first_enters pid1 t1 _ c rest Hidle Hcomplete), Hidle.
    repeat split. discriminate.
  - unfold final, winner, answer, entersFirst, start. simpl hd.
    rewrite (second_enters pid2 t2 _ c rest Hidle Hcomplete), Hidle.
    repeat split. discriminate.
Qed.

Lemma start_mutual_exclusion_witness :
  let final :=
    runSchedule [TurnSecond; TurnFirst; TurnFirst; TurnSecond]
      (twoCalls initial (Launched 4242 1000) (Launched 4343 1001)) in
  resultOf (second final) = Some ok
  /\ resultOf (first final) = Some alreadyRunning
  /\ controller final = runningAs 4343 1001
  /\ ok <> alreadyRunning.
Proof.
  apply (start_mutual_exclusion initial
           [TurnSecond; TurnFirst; TurnFirst; TurnSecond] 4242 1000 4343 1001).
  - reflexivity.
  - split; cbv; lia.
Defined.

(** C1, as stated, fails when the launcher fails: two calls one after
    the other on an idle controller, each of which finds the state
    [Idle] and fails to launch; none returns success and none returns
    "already running". *)
Lemma launch_failure_counterexample :
  let final :=
    runSchedule [TurnFirst; TurnFirst; TurnSecond; TurnSecond]
      (twoCalls initial (LaunchFailed "spawn ENOENT") (LaunchFailed "spawn ENOENT")) in
  first final = Returned (failure "spawn ENOENT")
  /\ second final = Returned (failure "spawn ENOENT")
  /\ success (failure "spawn ENOENT") = false
  /\ state (controller final) = Idle.
Proof. repeat split. Qed.

End ControllerProperties.

(* ================================================================== *)
(** * Properties of [hasActivityContent] and [doUrlReward] *)
(* ================================================================== *)

Section ActivityContent.

Variable Cheerio : Type.
Variable load : string -> Completion Cheerio.
Variable selectLength : Cheerio -> string -> Completion nat.
Variable visible : Page -> string -> N -> Settled bool.

Local Abbreviation probe := (fun selector : string => Workers.EvIsVisible selector 500).

Ltac run_prog :=
  cbv beta iota zeta delta
    [Workers.hasActivityContent Workers.isVisible Workers.wait
     Stateful.try_catch Stateful.bind Stateful.ret Stateful.throw
     Stateful.lift Stateful.await Stateful.emit Stateful.modify
     Stateful.embed PageValidator.content
     Effects.bind Effects.emit Effects.ret Effects.promise_catch].

(** A match in the parsed markup names a selector of the catalogue that
    selects at least one element. *)
Lemma anySelected_true (d : Cheerio) (selectors : list string) :
  Workers.anySelected Cheerio selectLength d selectors = Normal true ->
  exists selector n,
    In selector selectors /\ selectLength d selector = Normal (S n).
Proof.
  induction selectors as [|x rest IH]; simpl; [discriminate|].
  destruct (selectLength d x) as [[|n]|e] eqn:E; simpl; try discriminate.
  - intros H. destruct (IH H) as (sel & n & Hin & Hsel).
    exists sel, n. split; [now right | exact Hsel].
  - intros _. exists x, n. split; [now left | exact E].
Qed.

(** The probing loop: it never throws, asks about the selectors in
    order with a 500 ms bound each, and stops at the first visible one. *)
Lemma anyVisible_run (page : Page) (selectors : list string) :
  forall tr, exists b k,
    Workers.anyVisible visible page selectors tr
    = (Normal b, (tr ++ map probe (firstn k selectors))%list)
    /\ k <= List.length selectors
    /\ (b = true ->
        exists selector,
          In selector selectors /\ visible page selector 500 = Resolved true)
    /\ (b = false -> k = List.length selectors).
Proof.
  induction selectors as [|x rest IH]; intros tr.
  - exists false, 0. simpl. rewrite app_nil_r.
    split; [reflexivity|]. split; [lia|]. split; [discriminate | reflexivity].
  - simpl Workers.anyVisible. run_prog.
    destruct (visible page x 500) as [[|]|e] eqn:E; run_prog.
    + exists true, 1. simpl.
      split; [reflexivity|]. split; [lia|]. split; [|discriminate].
      intros _. exists x. split; [now left | exact E].
    + destruct (IH (tr ++ [probe x])%list) as (b & k & Hrun & Hk & Ht & Hf).
      exists b, (S k). rewrite Hrun. simpl. rewrite <- app_assoc.
      split; [reflexivity|]. split; [lia|].
      split; [|intros H; now rewrite (Hf H)].
      intros H. destruct (Ht H) as (sel & Hin & Hsel).
      exists sel. split; [now right | exact Hsel].
    + destruct (IH (tr ++ [probe x])%list) as (b & k & Hrun & Hk & Ht & Hf).
      exists b, (S k). rewrite Hrun. simpl. rewrite <- app_assoc.
      split; [reflexivity|]. split; [lia|].
      split; [|intros H; now rewrite (Hf H)].
      intros H. destruct (Ht H) as (sel & Hin & Hsel).
      exists sel. split; [now right | exact Hsel].
Qed.

(** The whole of [hasActivityContent], by what the parser answered. *)
Lemma hasActivityContent_run (page : Page) (tr : list Workers.WorkerEvent) :
  let html := match page_content page with
              | Resolved h => h
              | Rejected _ => ""
              end in
  let started := (tr ++ [Workers.PageCall EvContent])%list in
  match load html with
  | Throw _ =>
      Workers.hasActivityContent Cheerio load selectLength visible page tr
      = (Normal false, started)
  | Normal d =>
      match Workers.anySelected Cheerio selectLength d Workers.activitySelectors with
      | Throw _ =>
          Workers.hasActivityContent Cheerio load selectLength visible page tr
          = (Normal false, started)
      | Normal true =>
          Workers.hasActivityContent Cheerio load selectLength visible page tr
          = (Normal true, started)
      | Normal false =>
          Workers.hasActivityContent Cheerio load selectLength visible page tr
          = Workers.anyVisible visible page (firstn 4 Workers.activitySelectors) started
      end
  end.
Proof.
  intros html started. subst html started. run_prog.
  change (map Workers.PageCall ([] ++ [EvContent])%list)
    with [Workers.PageCall EvContent].
  destruct (page_content page) as [h|e]; run_prog.
  - destruct (load h) as [d|e]; run_prog; [|reflexivity].
    destruct (Workers.anySelected Cheerio selectLength d Workers.activitySelectors)
      as [[|]|e]; run_prog; try reflexivity.
    destruct (Workers.anyVisible visible page (firstn 4 Workers.activitySelectors)
                (tr ++ [Workers.PageCall EvContent])%list) as [[b|e] tr'] eqn:E.
    + reflexivity.
    + destruct (anyVisible_run page (firstn 4 Workers.activitySelectors)
                  (tr ++ [Workers.PageCall EvContent])%list) as (b & k & Hrun & _).
      rewrite Hrun in E. discriminate.
  - destruct (load "") as [d|e']; run_prog; [|reflexivity].
    destruct (Workers.anySelected Cheerio selectLength d Workers.activitySelectors)
      as [[|]|e']; run_prog; try reflexivity.
    destruct (Workers.anyVisible visible page (firstn 4 Workers.activitySelectors)
                (tr ++ [Workers.PageCall EvContent])%list) as [[b|e'] tr'] eqn:E.
    + reflexivity.
    + destruct (anyVisible_run page (firstn 4 Workers.activitySelectors)
                  (tr ++ [Workers.PageCall EvContent])%list) as (b & k & Hrun & _).
      rewrite Hrun in E. discriminate.
Qed.

(** X1. [hasActivityContent] returns a boolean for every page and never
    throws, whatever the content retrieval, the parser, the DOM queries
    and the visibility probes do.  It answers [true] only on evidence: a
    selector of the catalogue selects an element of the parsed markup,
    or one of the first four selectors is reported visible.  When the
    parser throws the answer is [false]. *)
Theorem hasActivityContent_never_throws
    (page : Page) (tr : list Workers.WorkerEvent) :
  let html := match page_content page with
              | Resolved h => h
              | Rejected _ => ""
              end in
  exists b tr',
    Workers.hasActivityContent Cheerio load selectLength visible page tr
    = (Normal b, tr')
    /\ (b = true ->
        (exists d selector n,
           load html = Normal d
           /\ In selector Workers.activitySelectors
           /\ selectLength d selector = Normal (S n))
        \/ (exists selector,
              In selector (firstn 4 Workers.activitySelectors)
              /\ visible page selector 500 = Resolved true))
    /\ (forall e, load html = Throw e -> b = false).
Proof.
  intros html. pose proof (hasActivityContent_run page tr) as H.
  cbv zeta in H. fold html in H.
  destruct (load html) as [d|e] eqn:El.
  - destruct (Workers.anySelected Cheerio selectLength d Workers.activitySelectors)
      as [[|]|e] eqn:Es.
    + eexists _, _. split; [exact H|]. split; [|discriminate].
      intros _. left. destruct (anySelected_true d _ Es) as (sel & n & Hin & Hsel).
      now exists d, sel, n.
    + destruct (anyVisible_run page (firstn 4 Workers.activitySelectors)
                  (tr ++ [Workers.PageCall EvContent])%list)
        as (b & k & Hrun & _ & Ht & _).
      exists b. eexists. split; [rewrite H; exact Hrun|]. split; [|discriminate].
      intros Hb. right. exact (Ht Hb).
    + eexists _, _. split; [exact H|]. split; [discriminate|discriminate].
  - eexists _, _. split; [exact H|]. split; [discriminate|reflexivity].
Qed.

(** X2. The visibility probes of [hasActivityContent] are bounded: after
    the one content retrieval it makes at most four probes, each with a
    500 ms timeout, over the first selectors of the catalogue in order,
    and nothing else.  It makes no probe at all when the parsed markup
    already shows an activity element, or when parsing or a DOM query
    throws. *)
Theorem hasActivityContent_probe_budget
    (page : Page) (tr : list Workers.WorkerEvent) :
  let html := match page_content page with
              | Resolved h => h
              | Rejected _ => ""
              end in
  exists k,
    k <= 4
    /\ snd (Workers.hasActivityContent Cheerio load selectLength visible page tr)
       = (tr ++ Workers.PageCall EvContent
             :: map probe (firstn k Workers.activitySelectors))%list
    /\ (forall e, load html = Throw e -> k = 0)
    /\ (forall d,
          load html = Normal d ->
          Workers.anySelected Cheerio selectLength d Workers.activitySelectors
          <> Normal false ->
          k = 0).
Proof.
  intros html. pose proof (hasActivityContent_run page tr) as H.
  cbv zeta in H. fold html in H.
  assert (Hnone :
            (tr ++ [Workers.PageCall EvContent]
             = tr ++ Workers.PageCall EvContent
                  :: map probe (firstn 0 Workers.activitySelectors))%list)
    by reflexivity.
  destruct (load html) as [d|e] eqn:El.
  - destruct (Workers.anySelected Cheerio selectLength d Workers.activitySelectors)
      as [[|]|e] eqn:Es.
    + exists 0. rewrite H. split; [lia|]. split; [exact Hnone|].
      split; [discriminate | reflexivity].
    + destruct (anyVisible_run page (firstn 4 Workers.activitySelectors)
                  (tr ++ [Workers.PageCall EvContent])%list)
        as (b & k & Hrun & Hk & _).
      change (List.length (firstn 4 Workers.activitySelectors)) with 4 in Hk.
      exists k. rewrite H, Hrun. split; [exact Hk|]. split.
      * cbn [snd]. rewrite firstn_firstn, (Nat.min_l k 4 Hk), <- app_assoc.
        reflexivity.
      * split; [discriminate|]. intros d' [= <-] Hne. congruence.
    + exists 0. rewrite H. split; [lia|]. split; [exact Hnone|].
      split; [discriminate | reflexivity].
  - exists 0. rewrite H. split; [lia|]. split; [exact Hnone|].
    split; [reflexivity | discriminate].
Qed.

End ActivityContent.

Section UrlReward.

Variable Cheerio : Type.
Variable load : string -> Completion Cheerio.
Variable selectLength : Cheerio -> string -> Completion nat.
Variable selectText : Cheerio -> string -> Completion string.
Variable utilsWait : N -> Settled unit.
Variable describe : Thrown -> string.

Local Abbreviation check := (isInvalidPage Cheerio load selectLength selectText).
Local Abbreviation reward :=
  (Workers.doUrlReward Cheerio load selectLength selectText utilsWait describe).
Local Abbreviation closing := (Workers.PageCall EvClose).

(** The whole of [doUrlReward], by what the pre-check, the pause and
    [page.close()] answer. *)
Lemma doUrlReward_run
    (page : Page) (bot : MicrosoftRewardsBot) (tr : list Workers.WorkerEvent)
    (r : PageCheckResult) (evs : list Event) :
  check page [] = (Normal r, evs) ->
  let say message level :=
    Workers.PageCall (EvLog (isMobile bot) "URL-REWARD" message level) in
  let started :=
    (tr ++ say "Trying to complete UrlReward" None :: map Workers.PageCall evs)%list in
  reward page bot tr
  = if invalid r then
      let aborted :=
        (started
         ++ [say ("Invalid page detected: " ++ showReason (reason r) ++ ", aborting")%string
               (Some LevelWarn);
             closing])%list in
      match page_close page with
      | Resolved _ => (Normal tt, aborted)
      | Rejected e => (Throw e, (aborted ++ [closing])%list)
      end
    else
      let waited := (started ++ [Workers.EvWait 2000])%list in
      match utilsWait 2000, page_close page with
      | Resolved _, Resolved _ =>
          (Normal tt,
           (waited ++ [closing; say "Completed the UrlReward successfully" None])%list)
      | Resolved _, Rejected e => (Throw e, (waited ++ [closing; closing])%list)
      | Rejected e, Resolved _ =>
          (Normal tt,
           (waited ++ [closing;
                       say ("An error occurred:" ++ describe e)%string
                         (Some LevelError)])%list)
      | Rejected _, Rejected e => (Throw e, (waited ++ [closing])%list)
      end.
Proof.
  intros Hcheck say started. subst say started.
  cbv beta iota zeta delta
    [Workers.doUrlReward Workers.wait
     Stateful.try_catch Stateful.bind Stateful.ret Stateful.throw
     Stateful.lift Stateful.await Stateful.emit Stateful.modify Stateful.embed
     PageValidator.log PageValidator.close
     Effects.bind Effects.emit Effects.ret].
  rewrite Hcheck. cbv beta iota.
  destruct (invalid r).
  - destruct (page_close page) as [[]|e]; cbv beta iota;
      rewrite <- ?app_assoc; reflexivity.
  - destruct (utilsWait 2000) as [[]|e], (page_close page) as [[]|e'];
      cbv beta iota; rewrite <- ?app_assoc; reflexivity.
Qed.

(** The pre-check never closes the page. *)
Lemma check_makes_no_close (page : Page) (r : Completion PageCheckResult)
    (evs : list Event) :
  check page [] = (r, evs) ->
  filter Workers.isCloseCall (map Workers.PageCall evs) = []
  /\ existsb Workers.isWaitCall (map Workers.PageCall evs) = false.
Proof.
  intros H.
  destruct (isInvalidPage_calls _ _ _ _ _ _ _ _ H) as [->| ->]; now split.
Qed.

(** X3. When [page.close()] succeeds, [doUrlReward] never throws and
    closes the page exactly once, whether the page is found invalid, the
    pause completes or the pause fails. *)
Theorem doUrlReward_closes_once
    (page : Page) (bot : MicrosoftRewardsBot) (tr : list Workers.WorkerEvent)
    (u : unit) :
  page_close page = Resolved u ->
  exists ext,
    reward page bot tr = (Normal tt, (tr ++ ext)%list)
    /\ List.length (filter Workers.isCloseCall ext) = 1.
Proof.
  intros Hclose.
  destruct (isInvalidPage_answers Cheerio load selectLength selectText page [])
    as (r & evs & Hcheck & _).
  pose proof (doUrlReward_run page bot tr r evs Hcheck) as H. cbv zeta in H.
  rewrite Hclose in H.
  destruct (check_makes_no_close page _ _ Hcheck) as [Hnone _].
  destruct (invalid r); [|destruct (utilsWait 2000) as [[]|e]];
    rewrite H; eexists; (split; [rewrite <- !app_assoc; reflexivity|]);
    cbn [filter Workers.isCloseCall app];
    rewrite filter_app, Hnone; reflexivity.
Qed.

(** X4. On a page the pre-check classifies invalid, [doUrlReward] logs
    the reason as a warning and goes on to close the page: it makes no
    pause and does not report a completed reward. *)
Theorem doUrlReward_aborts_on_invalid
    (page : Page) (bot : MicrosoftRewardsBot) (tr : list Workers.WorkerEvent)
    (r : PageCheckResult) (evs : list Event) :
  check page [] = (Normal r, evs) ->
  invalid r = true ->
  let say message level :=
    Workers.PageCall (EvLog (isMobile bot) "URL-REWARD" message level) in
  exists ext,
    snd (reward page bot tr) = (tr ++ ext)%list
    /\ existsb Workers.isWaitCall ext = false
    /\ In (say ("Invalid page detected: " ++ showReason (reason r) ++ ", aborting")
             (Some LevelWarn)) ext
    /\ In closing ext
    /\ ~ In (say "Completed the UrlReward successfully" None) ext.
Proof.
  intros Hcheck Hinvalid say.
  pose proof (doUrlReward_run page bot tr r evs Hcheck) as H. cbv zeta in H.
  rewrite Hinvalid in H.
  assert (Hevs : evs = [EvUrl] \/ evs = [EvUrl; EvContent])
    by exact (isInvalidPage_calls _ _ _ _ _ [] _ _ Hcheck).
  destruct (page_close page) as [[]|e]; rewrite H; eexists;
    (split; [cbn [snd]; rewrite <- !app_assoc; reflexivity|]);
    destruct Hevs as [->| ->]; cbn [map app existsb Workers.isWaitCall orb];
    (split; [reflexivity|]); (split; [cbn; tauto|]); (split; [cbn; tauto|]);
    cbn [In]; intros Hin;
    repeat (destruct Hin as [Hin|Hin]; [discriminate Hin|]); exact Hin.
Qed.

(** X5. When [page.close()] is rejected, [doUrlReward] itself is rejected
    with that error on every path: the close it retries in its catch
    clause is not protected.  It has then tried to close the page once
    or twice and has not reported a completed reward. *)
Theorem doUrlReward_close_failure_propagates
    (page : Page) (bot : MicrosoftRewardsBot) (tr : list Workers.WorkerEvent)
    (e : Thrown) :
  page_close page = Rejected e ->
  exists ext,
    reward page bot tr = (Throw e, (tr ++ ext)%list)
    /\ 1 <= List.length (filter Workers.isCloseCall ext) <= 2.
Proof.
  intros Hclose.
  destruct (isInvalidPage_answers Cheerio load selectLength selectText page [])
    as (r & evs & Hcheck & _).
  pose proof (doUrlReward_run page bot tr r evs Hcheck) as H. cbv zeta in H.
  rewrite Hclose in H.
  destruct (check_makes_no_close page _ _ Hcheck) as [Hnone _].
  destruct (invalid r); [|destruct (utilsWait 2000) as [[]|e']];
    rewrite H; eexists; (split; [rewrite <- !app_assoc; reflexivity|]);
    cbn [filter Workers.isCloseCall app];
    rewrite filter_app, Hnone; cbn; lia.
Qed.

End UrlReward.

Import Scenarios.

Lemma doUrlReward_closes_once_witness :
  exists ext,
    Workers.doUrlReward string sampleLoad sampleLength sampleText
      sampleWait sampleDescribe
      (samplePage (Some "https://rewards.bing.com/") (Resolved filler) (Resolved tt))
      sampleBot []
    = (Normal tt, ([] ++ ext)%list)
    /\ List.length (filter Workers.isCloseCall ext) = 1.
Proof.
  exact (doUrlReward_closes_once string sampleLoad sampleLength sampleText
           sampleWait sampleDescribe
           (samplePage (Some "https://rewards.bing.com/") (Resolved filler) (Resolved tt))
           sampleBot [] tt eq_refl).
Defined.

Lemma doUrlReward_aborts_on_invalid_witness :
  exists ext,
    snd (Workers.doUrlReward string sampleLoad sampleLength sampleText
           sampleWait sampleDescribe
           (samplePage (Some "about:blank") (Resolved filler) (Resolved tt))
           sampleBot [])
    = ([] ++ ext)%list
    /\ existsb Workers.isWaitCall ext = false
    /\ In (Workers.PageCall
             (EvLog false "URL-REWARD" "Invalid page detected: blank page, aborting"
                (Some LevelWarn))) ext
    /\ In (Workers.PageCall EvClose) ext
    /\ ~ In (Workers.PageCall
               (EvLog false "URL-REWARD" "Completed the UrlReward successfully" None))
            ext.
Proof.
  exact (doUrlReward_aborts_on_invalid string sampleLoad sampleLength sampleText
           sampleWait sampleDescribe
           (samplePage (Some "about:blank") (Resolved filler) (Resolved tt))
           sampleBot [] {| invalid := true; reason := Some "blank page" |} [EvUrl]
           eq_refl eq_refl).
Defined.

Lemma doUrlReward_close_failure_propagates_witness :
  exists ext,
    Workers.doUrlReward string sampleLoad sampleLength sampleText
      sampleWait sampleDescribe (stuckPage (Some "about:blank")) sampleBot []
    = (Throw (ErrorObject "Target page, context or browser has been closed"),
       ([] ++ ext)%list)
    /\ 1 <= List.length (filter Workers.isCloseCall ext) <= 2.
Proof.
  exact (doUrlReward_close_failure_propagates string sampleLoad sampleLength
           sampleText sampleWait sampleDescribe (stuckPage (Some "about:blank"))
           sampleBot [] _ eq_refl).
Defined.

(** A page with a quiz button in its markup, found without any probe;
    and a page with nothing, found empty after the four probes. *)
Example hasActivityContent_samples :
  Workers.hasActivityContent string sampleLoad
    (fun doc selector => Normal (if includes doc "rqStartQuiz" then 1 else 0))
    sampleVisible
    (samplePage (Some "https://rewards.bing.com/")
       (Resolved "<body><input id=rqStartQuiz></body>") (Resolved tt)) []
  = (Normal true, [Workers.PageCall EvContent])
  /\ Workers.hasActivityContent string sampleLoad sampleLength sampleVisible
       (samplePage (Some "https://rewards.bing.com/") (Rejected (NonError "gone"))
          (Resolved tt)) []
     = (Normal false,
        [Workers.PageCall EvContent;
         Workers.EvIsVisible "#rqStartQuiz" 500;
         Workers.EvIsVisible "#rqAnswerOption0" 500;
         Workers.EvIsVisible "#btoption0" 500;
         Workers.EvIsVisible ".wk_OptionClickClass" 500]).
Proof. split; reflexivity. Qed.

(* ================================================================== *)
(** * Properties of the Discord start-up *)
(* ================================================================== *)

Lemma split_free (sep : ascii) (s : string) :
  hasChar sep s = false -> split sep s = [s].
Proof.
  induction s as [|c s IH]; simpl; intros H; [reflexivity|].
  apply orb_false_iff in H as [Hc Hs]. now rewrite Hc, (IH Hs).
Qed.

Lemma split_segment (sep : ascii) (a rest : string) :
  hasChar sep a = false ->
  split sep (a ++ String sep rest) = a :: split sep rest.
Proof.
  induction a as [|c a IH]; simpl; intros H.
  - now rewrite Ascii.eqb_refl.
  - apply orb_false_iff in H as [Hc Hs]. now rewrite Hc, (IH Hs).
Qed.

Lemma split_not_nil (sep : ascii) (s : string) : split sep s <> [].
Proof.
  destruct s as [|c s]; simpl; [discriminate|].
  destruct (Ascii.eqb c sep); [discriminate|].
  destruct (split sep s); discriminate.
Qed.

(** Every string begins with a separator-free segment that ends the
    string or is followed by the separator. *)
Lemma leading_segment (sep : ascii) (s : string) :
  exists a rest,
    hasChar sep a = false
    /\ (rest = "" \/ exists r, rest = String sep r)
    /\ s = a ++ rest.
Proof.
  induction s as [|c s (a & rest & Ha & Hrest & ->)].
  - exists "", "". repeat split. now left.
  - destruct (Ascii.eqb c sep) eqn:E.
    + apply Ascii.eqb_eq in E; subst c.
      exists "", (String sep (a ++ rest)). repeat split.
      right. now exists (a ++ rest).
    + exists (String c a), rest. repeat split; [|exact Hrest].
      simpl. now rewrite E, Ha.
Qed.

(** A string that splits into exactly three parts is made of three
    separator-free parts joined by two separators. *)
Lemma split_three (sep : ascii) (s : string) :
  List.length (split sep s) = 3 ->
  exists a b c,
    hasChar sep a = false /\ hasChar sep b = false /\ hasChar sep c = false
    /\ s = a ++ String sep (b ++ String sep c)
    /\ split sep s = [a; b; c].
Proof.
  intros H.
  destruct (leading_segment sep s) as (a & rest & Ha & [->|[r ->]] & ->).
  - rewrite append_empty_r, (split_free sep a Ha) in H. discriminate.
  - rewrite (split_segment sep a r Ha) in H |- *. simpl in H.
    destruct (leading_segment sep r) as (b & rest & Hb & [->|[r' ->]] & ->).
    + rewrite append_empty_r, (split_free sep b Hb) in H. discriminate.
    + rewrite (split_segment sep b r' Hb) in H |- *. simpl in H.
      destruct (leading_segment sep r') as (c & rest & Hc & [->|[r'' ->]] & ->).
      * rewrite append_empty_r in *. rewrite (split_free sep c Hc).
        now exists a, b, c.
      * rewrite (split_segment sep c r'' Hc) in H. simpl in H.
        destruct (split sep r'') eqn:E; [now apply split_not_nil in E|].
        discriminate.
Qed.

Section TokenProperties.

Variable base64ToUtf8 : string -> string.

(** X6. [extractApplicationId] returns an id exactly when the token is
    made of three dot-separated parts and the decoding of the first part
    is a non-empty run of decimal digits; the id is that decoding.  Any
    other token (fewer or more dots, a first part that decodes to
    something else) yields no id. *)
Theorem extractApplicationId_exactly (token id : string) :
  DiscordRuntime.extractApplicationId base64ToUtf8 token = Some id
  <-> exists a b c,
        DiscordRuntime.dotFree a /\ DiscordRuntime.dotFree b
        /\ DiscordRuntime.dotFree c
        /\ token = a ++ "." ++ b ++ "." ++ c
        /\ id = base64ToUtf8 a
        /\ DiscordRuntime.isNumericId id = true.
Proof.
  unfold DiscordRuntime.extractApplicationId, DiscordRuntime.dotFree. split.
  - destruct (Nat.eqb (List.length (split "." token)) 3) eqn:E; [|discriminate].
    apply Nat.eqb_eq in E.
    destruct (split_three "." token E) as (a & b & c & Ha & Hb & Hc & -> & Hs).
    rewrite Hs. cbn [negb nth].
    destruct (DiscordRuntime.isNumericId (base64ToUtf8 a)) eqn:En; [|discriminate].
    intros [= <-]. now exists a, b, c.
  - intros (a & b & c & Ha & Hb & Hc & -> & -> & Hn).
    change (a ++ "." ++ b ++ "." ++ c) with (a ++ String "." (b ++ String "." c)).
    rewrite (split_segment "." a _ Ha), (split_segment "." b _ Hb),
      (split_free "." c Hc).
    cbn [List.length Nat.eqb negb nth]. now rewrite Hn.
Qed.

End TokenProperties.

Section StartProperties.

Variable JsNumber : Type.
Variable Account : Type.
Variable base64ToUtf8 : string -> string.
Variable world : DiscordRuntime.World Account.
Variable config : DiscordBot.Config JsNumber.

Local Abbreviation start :=
  (DiscordRuntime.start JsNumber Account base64ToUtf8 world config).
Local Abbreviation extract := (DiscordRuntime.extractApplicationId base64ToUtf8).
Local Abbreviation routeFor := (DiscordRuntime.routeFor JsNumber config).
Local Abbreviation chosenToken := (DiscordRuntime.chosenToken JsNumber Account world).
Local Abbreviation registered :=
  (DiscordRuntime.EvBotLog (DiscordRuntime.registeredMessage JsNumber config) LevelLog).
Local Abbreviation failed :=
  (fun message : string =>
     DiscordRuntime.EvBotLog ("Failed to start Discord bot: " ++ message) LevelError).

(** The id [extractApplicationId] returns is never empty. *)
Lemma extracted_id_present (token : string) :
  DiscordRuntime.present (extract token) = extract token.
Proof.
  unfold DiscordRuntime.extractApplicationId, DiscordRuntime.present,
    DiscordRuntime.orElse.
  destruct (negb (Nat.eqb (List.length (split "." token)) 3)); [reflexivity|].
  destruct (DiscordRuntime.isNumericId _) eqn:E; [|reflexivity].
  cbn [negb]. unfold DiscordRuntime.isNumericId in E.
  apply andb_true_iff in E as [E _]. now rewrite E.
Qed.

(** The whole of [start] once a token is chosen, by what the REST
    endpoint and the gateway answer. *)
Lemma start_with_token (dc : DiscordBot.DiscordBotConfig JsNumber) (token : string) :
  DiscordBot.discordBot config = Some dc ->
  DiscordBot.enabled dc = true ->
  chosenToken dc = Some token ->
  start DiscordRuntime.fresh
  = match extract token with
    | None =>
        (Normal false,
         DiscordRuntime.after
           [failed "Invalid Discord token format - cannot extract application ID"])
    | Some applicationId =>
        let put :=
          DiscordRuntime.EvPut token (routeFor applicationId) DiscordRuntime.commands in
        match DiscordRuntime.restPut world token (routeFor applicationId),
              DiscordRuntime.clientLogin world token with
        | Rejected e, _ =>
            (Normal false, DiscordRuntime.after [put; failed (errorText e)])
        | Resolved _, Rejected e =>
            (Normal false,
             DiscordRuntime.after
               [put; registered; DiscordRuntime.EvLogin token; failed (errorText e)])
        | Resolved _, Resolved _ =>
            (Normal true,
             DiscordRuntime.after
               [put; registered; DiscordRuntime.EvLogin token;
                DiscordRuntime.EvBotLog "Discord bot started successfully" LevelLog])
        end
    end.
Proof.
  intros Hdc Hen Htok.
  unfold DiscordRuntime.start, DiscordRuntime.chosenToken in *.
  rewrite Hdc, Hen. cbn [negb]. rewrite Htok.
  unfold DiscordRuntime.registerCommands. rewrite extracted_id_present.
  destruct (extract token) as [applicationId|]; [|reflexivity].
  unfold DiscordRuntime.routeFor, DiscordRuntime.registeredMessage.
  destruct (DiscordRuntime.present (DiscordRuntime.configuredGuild JsNumber config))
    as [guildId|];
    cbv beta iota zeta delta
      [Stateful.try_catch Stateful.bind Stateful.ret Stateful.throw
       Stateful.await Stateful.modify DiscordRuntime.record DiscordRuntime.botLog
       DiscordRuntime.fresh DiscordRuntime.after DiscordRuntime.calls
       DiscordRuntime.replied DiscordRuntime.deferred];
    match goal with
    | |- context [DiscordRuntime.restPut world token ?r] =>
        destruct (DiscordRuntime.restPut world token r) as [[]|e]
    end;
    cbv beta iota; try reflexivity;
    destruct (DiscordRuntime.clientLogin world token) as [[]|e]; reflexivity.
Qed.

(** The whole of [start] when it gives up before any network call. *)
Lemma start_without_token :
  (DiscordBot.discordBot config = None
   \/ exists dc, DiscordBot.discordBot config = Some dc
                 /\ DiscordBot.enabled dc = false) ->
  start DiscordRuntime.fresh
  = (Normal false,
     DiscordRuntime.after
       [DiscordRuntime.EvBotLog "Discord bot disabled in config" LevelWarn]).
Proof.
  unfold DiscordRuntime.start.
  intros [->|(dc & -> & ->)]; reflexivity.
Qed.

Lemma start_missing_token (dc : DiscordBot.DiscordBotConfig JsNumber) :
  DiscordBot.discordBot config = Some dc ->
  DiscordBot.enabled dc = true ->
  chosenToken dc = None ->
  start DiscordRuntime.fresh
  = (Normal false,
     DiscordRuntime.after
       [DiscordRuntime.EvBotLog
          "No Discord bot token provided (set discordBot.token or DISCORD_BOT_TOKEN env var)"
          LevelError]).
Proof.
  intros Hdc Hen Htok. unfold DiscordRuntime.start, DiscordRuntime.chosenToken in *.
  rewrite Hdc, Hen. cbn [negb]. rewrite Htok. reflexivity.
Qed.

(** X7. [DiscordBot.start] never throws, and it returns [true] exactly
    when the bot is enabled, a non-empty token is configured or set in
    the environment, that token yields an application id, the command
    registration succeeds and the login succeeds.  In every other case it
    returns [false]. *)
Theorem start_succeeds_exactly :
  exists b evs,
    start DiscordRuntime.fresh = (Normal b, DiscordRuntime.after evs)
    /\ (b = true <->
        exists dc token applicationId,
          DiscordBot.discordBot config = Some dc
          /\ DiscordBot.enabled dc = true
          /\ chosenToken dc = Some token
          /\ extract token = Some applicationId
          /\ DiscordRuntime.restPut world token (routeFor applicationId) = Resolved tt
          /\ DiscordRuntime.clientLogin world token = Resolved tt).
Proof.
  destruct (DiscordBot.discordBot config) as [dc|] eqn:Hdc.
  2:{ rewrite start_without_token by now left.
      eexists _, _. split; [reflexivity|]. split; [discriminate|].
      intros (dc & _ & _ & [=] & _). }
  destruct (DiscordBot.enabled dc) eqn:Hen.
  2:{ rewrite start_without_token by (right; now exists dc).
      eexists _, _. split; [reflexivity|]. split; [discriminate|].
      intros (dc' & _ & _ & [= <-] & H & _). congruence. }
  destruct (chosenToken dc) as [token|] eqn:Htok.
  2:{ rewrite (start_missing_token dc Hdc Hen Htok).
      eexists _, _. split; [reflexivity|]. split; [discriminate|].
      intros (dc' & t & _ & [= <-] & _ & H & _). congruence. }
  rewrite (start_with_token dc token Hdc Hen Htok).
  destruct (extract token) as [applicationId|] eqn:Hid.
  2:{ eexists _, _. split; [reflexivity|]. split; [discriminate|].
      intros (dc' & t & a & [= <-] & _ & Ht & Ha & _).
      rewrite Htok in Ht. injection Ht as <-. congruence. }
  cbv zeta.
  destruct (DiscordRuntime.restPut world token (routeFor applicationId))
    as [[]|e] eqn:Hput.
  2:{ eexists _, _. split; [reflexivity|]. split; [discriminate|].
      intros (dc' & t & a & [= <-] & _ & Ht & Ha & Hp & _).
      rewrite Htok in Ht. injection Ht as <-.
      rewrite Hid in Ha. injection Ha as <-. congruence. }
  destruct (DiscordRuntime.clientLogin world token) as [[]|e] eqn:Hlogin.
  - eexists _, _. split; [reflexivity|]. split; [|reflexivity].
    intros _. now exists dc, token, applicationId.
  - eexists _, _. split; [reflexivity|]. split; [discriminate|].
    intros (dc' & t & a & [= <-] & _ & Ht & _ & _ & Hl).
    rewrite Htok in Ht. injection Ht as <-. congruence.
Qed.

(** X8. The network calls of [DiscordBot.start] are at most one command
    registration followed by at most one login.  A registration is only
    sent for an enabled bot, with the chosen token, the route of that
    token's application id and the whole command table; a login is only
    attempted after that registration succeeded, with the same token.
    A disabled bot, a missing token or a malformed token cause no
    network call. *)
Theorem start_network_discipline :
  let net :=
    filter DiscordRuntime.isNetworkCall
      (DiscordRuntime.calls (snd (start DiscordRuntime.fresh))) in
  (net = []
   \/ exists dc token applicationId,
        DiscordBot.discordBot config = Some dc
        /\ DiscordBot.enabled dc = true
        /\ chosenToken dc = Some token
        /\ extract token = Some applicationId
        /\ let put :=
             DiscordRuntime.EvPut token (routeFor applicationId)
               DiscordRuntime.commands in
           (net = [put]
            /\ exists e,
                 DiscordRuntime.restPut world token (routeFor applicationId)
                 = Rejected e)
           \/ (net = [put; DiscordRuntime.EvLogin token]
               /\ DiscordRuntime.restPut world token (routeFor applicationId)
                  = Resolved tt)).
Proof.
  intros net. subst net.
  destruct (DiscordBot.discordBot config) as [dc|] eqn:Hdc.
  2:{ rewrite start_without_token by now left. now left. }
  destruct (DiscordBot.enabled dc) eqn:Hen.
  2:{ rewrite start_without_token by (right; now exists dc). now left. }
  destruct (chosenToken dc) as [token|] eqn:Htok.
  2:{ rewrite (start_missing_token dc Hdc Hen Htok). now left. }
  rewrite (start_with_token dc token Hdc Hen Htok).
  destruct (extract token) as [applicationId|] eqn:Hid; [|now left].
  right. exists dc, token, applicationId.
  do 4 (split; [first [reflexivity | assumption]|]).
  cbv zeta.
  destruct (DiscordRuntime.restPut world token (routeFor applicationId))
    as [[]|e] eqn:Hput.
  - right. split; [|reflexivity].
    destruct (DiscordRuntime.clientLogin world token) as [[]|e]; reflexivity.
  - left. split; [reflexivity | now exists e].
Qed.

End StartProperties.

(* ================================================================== *)
(** * Properties of the command handlers *)
(* ================================================================== *)

(** The cases of the [switch] are the seven command names. *)
Lemma commandOf_exact (name : string) (c : DiscordRuntime.Command) :
  DiscordRuntime.commandOf name = Some c
  <-> name = match c with
             | DiscordRuntime.Run => "run"
             | DiscordRuntime.Status => "status"
             | DiscordRuntime.Accounts => "accounts"
             | DiscordRuntime.Stop => "stop"
             | DiscordRuntime.Restart => "restart"
             | DiscordRuntime.Schedule => "schedule"
             | DiscordRuntime.Help => "help"
             end.
Proof.
  unfold DiscordRuntime.commandOf. split.
  - repeat match goal with
           | |- context [String.eqb name ?lit] =>
               destruct (String.eqb_spec name lit); [subst name|]
           end; intros [= <-]; reflexivity.
  - intros ->. destruct c; reflexivity.
Qed.

Section HandlerProperties.

Variable JsNumber : Type.
Variable numberToString : JsNumber -> string.
Variable Account : Type.
Variable email : Account -> string.
Variable world : DiscordRuntime.World Account.
Variable config : DiscordBot.Config JsNumber.

Local Abbreviation handleCommand := (DiscordRuntime.handleCommand Account email world).
Local Abbreviation onInteractionCreate :=
  (DiscordRuntime.onInteractionCreate JsNumber numberToString Account email world config).

Ltac run_handler :=
  cbv beta iota zeta delta
    [DiscordRuntime.onInteractionCreate
     DiscordRuntime.handleCommand DiscordRuntime.handlerOf
     DiscordRuntime.handleRun DiscordRuntime.handleStatus
     DiscordRuntime.handleAccounts DiscordRuntime.handleStop
     DiscordRuntime.handleRestart DiscordRuntime.handleSchedule
     DiscordRuntime.handleHelp
     Stateful.try_catch Stateful.bind Stateful.ret Stateful.throw
     Stateful.lift Stateful.get Stateful.modify Stateful.await
     DiscordRuntime.record DiscordRuntime.botLog DiscordRuntime.reply
     DiscordRuntime.deferReply DiscordRuntime.editReply DiscordRuntime.followUp
     DiscordRuntime.fresh DiscordRuntime.calls DiscordRuntime.replied
     DiscordRuntime.deferred DiscordRuntime.running DiscordRuntime.success
     orb negb app].

(** Case analysis on what the collaborators answer, for the answers the
    goal depends on. *)
Ltac answers :=
  repeat match goal with
         | |- context [DiscordRuntime.getStatus world] =>
             destruct (DiscordRuntime.getStatus world) as [[[|] ? ? ?]|?] eqn:?
         | |- context [DiscordRuntime.controllerStart world] =>
             destruct (DiscordRuntime.controllerStart world) as [[[|] ?]|?] eqn:?
         | |- context [DiscordRuntime.controllerStop world] =>
             destruct (DiscordRuntime.controllerStop world) as [[[|] ?]|?] eqn:?
         | |- context [DiscordRuntime.controllerRestart world] =>
             destruct (DiscordRuntime.controllerRestart world) as [[[|] ?]|?] eqn:?
         | |- context [DiscordRuntime.scheduler world] =>
             destruct (DiscordRuntime.scheduler world) as [[?|?]|] eqn:?
         | |- context [fst (DiscordBot.handleAccounts ?A ?f ?l)] =>
             destruct (fst (DiscordBot.handleAccounts A f l)) as [?|?] eqn:?
         end;
  run_handler.

(** X10. Every chat command, known or not, from a permitted user or not,
    and whatever the controller, the scheduler and the accounts loader
    do, is handled without throwing and is answered exactly once: by one
    reply, or by one deferral followed by one edit or one follow-up. *)
Theorem every_command_answered_once
    (interaction : DiscordBot.ChatInputCommandInteraction) :
  exists st,
    onInteractionCreate (DiscordRuntime.ChatInputCommand interaction)
      DiscordRuntime.fresh
    = (Normal tt, st)
    /\ DiscordRuntime.answeredOnce
         (filter DiscordRuntime.isResponse (DiscordRuntime.calls st)) = true.
Proof.
  run_handler.
  destruct (DiscordBot.hasPermission JsNumber numberToString config interaction);
    run_handler; [|eexists; split; reflexivity].
  destruct (DiscordRuntime.commandOf (DiscordBot.commandName interaction))
    as [[]|]; run_handler; answers; eexists; split; reflexivity.
Qed.

Ltac absent :=
  let H := fresh "Hin" in
  intros H; cbn [In] in H;
  repeat (destruct H as [H|H]; [discriminate H|]); contradiction.

(** X11. The controller is driven only by the command meant for it and
    only in the state that command expects: [botController.start()] is
    called only for /run and only after the controller reported that no
    run is in progress; [botController.stop()] only for /stop and only
    after it reported a run in progress; [botController.restart()] only
    for /restart; and the accounts file is read only for /accounts. *)
Theorem control_calls_guarded
    (interaction : DiscordBot.ChatInputCommandInteraction) :
  let name := DiscordBot.commandName interaction in
  let evs := DiscordRuntime.calls (snd (handleCommand interaction DiscordRuntime.fresh)) in
  (In DiscordRuntime.EvStart evs ->
   name = "run"
   /\ exists s, DiscordRuntime.getStatus world = Normal s
                /\ DiscordRuntime.running s = false)
  /\ (In DiscordRuntime.EvStop evs ->
      name = "stop"
      /\ exists s, DiscordRuntime.getStatus world = Normal s
                   /\ DiscordRuntime.running s = true)
  /\ (In DiscordRuntime.EvRestart evs -> name = "restart")
  /\ (In DiscordRuntime.EvLoadAccounts evs -> name = "accounts").
Proof.
  cbv zeta. run_handler.
  destruct (DiscordRuntime.commandOf (DiscordBot.commandName interaction))
    as [c|] eqn:Hc.
  - apply commandOf_exact in Hc.
    destruct c; run_handler; answers; cbn [snd];
      (split; [|split; [|split]]);
      first [ absent
            | intros _; exact Hc
            | intros _; split; [exact Hc | eexists; split; reflexivity] ].
  - run_handler. cbn [snd]. (split; [|split; [|split]]); absent.
Qed.

(** X12. The three tables of commands agree: the names registered with
    Discord, the names described by /help and the names the dispatcher
    handles are the same seven, in the same order for the first two.  A
    command of any other name is answered with one private
    "Unknown command" reply and reaches neither the controller, the
    scheduler nor the accounts file. *)
Theorem command_tables_agree :
  map DiscordRuntime.commandLabel DiscordRuntime.commands
  = map fst DiscordRuntime.commandDescriptions
  /\ (forall name,
        DiscordRuntime.commandOf name <> None
        <-> In name (map DiscordRuntime.commandLabel DiscordRuntime.commands))
  /\ (forall interaction,
        DiscordRuntime.commandOf (DiscordBot.commandName interaction) = None ->
        handleCommand interaction DiscordRuntime.fresh
        = (Normal tt,
           {| DiscordRuntime.calls :=
                [DiscordRuntime.EvReply
                   (DiscordRuntime.privateText
                      ("Unknown command: " ++ DiscordBot.commandName interaction))];
              DiscordRuntime.replied := true;
              DiscordRuntime.deferred := false |})).
Proof.
  split; [reflexivity|]. split.
  - intros name. split.
    + destruct (DiscordRuntime.commandOf name) as [c|] eqn:Hc; [|congruence].
      intros _. apply commandOf_exact in Hc. subst name.
      destruct c; cbn; tauto.
    + cbn [map DiscordRuntime.commands DiscordRuntime.commandLabel In].
      intros H.
      repeat (destruct H as [<-|H]; [discriminate|]). contradiction.
  - intros interaction Hc. run_handler. rewrite Hc. reflexivity.
Qed.

(** X13. Nothing is logged while a command is handled unless a
    collaborator failed; and when one did, the failure is logged as an
    error naming the command, and the last thing sent to the user is the
    private message carrying that same error text, as a follow-up when
    the interaction had been deferred and as the reply otherwise. *)
Theorem command_failure_reported
    (interaction : DiscordBot.ChatInputCommandInteraction)
    (message : string) (level : LogLevel) :
  let name := DiscordBot.commandName interaction in
  let evs := DiscordRuntime.calls (snd (handleCommand interaction DiscordRuntime.fresh)) in
  In (DiscordRuntime.EvBotLog message level) evs ->
  level = LevelError
  /\ exists text,
       message = "Command error (" ++ name ++ "): " ++ text
       /\ let report := DiscordRuntime.privateText ("❌ Error: " ++ text) in
          (In DiscordRuntime.EvDeferReply evs
           /\ last evs DiscordRuntime.EvGetStatus = DiscordRuntime.EvFollowUp report)
          \/ (~ In DiscordRuntime.EvDeferReply evs
              /\ last evs DiscordRuntime.EvGetStatus = DiscordRuntime.EvReply report).
Proof.
  cbv zeta. run_handler.
  destruct (DiscordRuntime.commandOf (DiscordBot.commandName interaction))
    as [[]|]; run_handler; answers;
    cbn [snd In]; intros Hin;
    repeat (destruct Hin as [Hin|Hin]; try discriminate Hin);
    try contradiction;
    injection Hin as <- <-; (split; [reflexivity|]);
    eexists; (split; [reflexivity|]); cbv zeta;
    first [ left; split; [cbn [In]; tauto | reflexivity]
          | right; split; [absent | reflexivity] ].
Qed.

(** X9. With a non-empty allow-list, a chat command from a user whose id
    is not on the list (after the entries are converted to strings) gets
    one private refusal and nothing else happens: no handler runs, and
    neither the controller, the scheduler nor the accounts file is
    touched. *)
Theorem unlisted_user_refused
    (interaction : DiscordBot.ChatInputCommandInteraction) :
  let allowed := DiscordBot.configuredIds JsNumber config in
  allowed <> [] ->
  ~ In (DiscordBot.id (DiscordBot.user interaction))
       (map (DiscordBot.toString JsNumber numberToString) allowed) ->
  onInteractionCreate (DiscordRuntime.ChatInputCommand interaction)
    DiscordRuntime.fresh
  = (Normal tt,
     {| DiscordRuntime.calls :=
          [DiscordRuntime.EvReply
             (DiscordRuntime.privateText
                "❌ You do not have permission to use this bot.")];
        DiscordRuntime.replied := true;
        DiscordRuntime.deferred := false |}).
Proof.
  intros allowed Hne Hnot.
  assert (Hperm : DiscordBot.hasPermission JsNumber numberToString config interaction
                  = false).
  { unfold DiscordBot.hasPermission. fold allowed.
    destruct allowed as [|x rest]; [congruence|]. cbn [List.length Nat.eqb].
    destruct (DiscordBot.arrayIncludes _ _) eqn:E; [|reflexivity].
    apply arrayIncludes_In in E. contradiction. }
  unfold DiscordRuntime.onInteractionCreate. rewrite Hperm. reflexivity.
Qed.

End HandlerProperties.

Lemma unlisted_user_refused_witness :
  DiscordRuntime.onInteractionCreate nat ofNat (string * string) fst
    sampleWorld sampleConfig
    (DiscordRuntime.ChatInputCommand (command "333" "stop"))
    DiscordRuntime.fresh
  = (Normal tt,
     {| DiscordRuntime.calls :=
          [DiscordRuntime.EvReply
             (DiscordRuntime.privateText
                "❌ You do not have permission to use this bot.")];
        DiscordRuntime.replied := true;
        DiscordRuntime.deferred := false |}).
Proof.
  apply (unlisted_user_refused nat ofNat (string * string) fst sampleWorld
           sampleConfig (command "333" "stop")).
  - discriminate.
  - cbn. intros [H|[H|[]]]; discriminate.
Defined.

Lemma command_failure_reported_witness :
  LevelError = LevelError
  /\ exists text,
       "Command error (run): spawn ENOENT" = "Command error (" ++ "run" ++ "): " ++ text
       /\ let evs :=
            DiscordRuntime.calls
              (snd (DiscordRuntime.handleCommand (string * string) fst sampleWorld
                      (command "111" "run") DiscordRuntime.fresh)) in
          let report := DiscordRuntime.privateText ("❌ Error: " ++ text) in
          (In DiscordRuntime.EvDeferReply evs
           /\ last evs DiscordRuntime.EvGetStatus = DiscordRuntime.EvFollowUp report)
          \/ (~ In DiscordRuntime.EvDeferReply evs
              /\ last evs DiscordRuntime.EvGetStatus = DiscordRuntime.EvReply report).
Proof.
  apply (command_failure_reported (string * string) fst sampleWorld
           (command "111" "run") "Command error (run): spawn ENOENT" LevelError).
  cbn. tauto.
Defined.

(** The sample token yields its 18-digit application id, and a permitted
    /run on the sample controller ends in a follow-up. *)
Example discord_samples :
  DiscordRuntime.extractApplicationId sampleBase64 sampleToken
  = Some "123456789012345678"
  /\ DiscordRuntime.extractApplicationId sampleBase64 "not-a-token" = None
  /\ filter DiscordRuntime.isNetworkCall
       (DiscordRuntime.calls
          (snd (DiscordRuntime.start nat (string * string) sampleBase64
                  sampleWorld sampleConfig DiscordRuntime.fresh)))
     = [DiscordRuntime.EvPut sampleToken
          (DiscordRuntime.ApplicationGuildCommands "123456789012345678" "900")
          DiscordRuntime.commands;
        DiscordRuntime.EvLogin sampleToken]
  /\ map (fun ev => match ev with
                    | DiscordRuntime.EvFollowUp r => DiscordRuntime.responseContent r
                    | _ => None
                    end)
         (DiscordRuntime.calls
            (snd (DiscordRuntime.onInteractionCreate nat ofNat (string * string) fst
                    sampleWorld sampleConfig
                    (DiscordRuntime.ChatInputCommand (command "222" "run"))
                    DiscordRuntime.fresh)))
     = [None; None; None; None; Some "❌ Error: spawn ENOENT"].
Proof. vm_compute. repeat split. Qed.

(* ================================================================== *)
(** * Properties of [formatUptime] *)
(* ================================================================== *)

(** X14. For an uptime of [ms] >= 0 milliseconds, the numbers
    [formatUptime] prints are the days, hours (below 24), minutes (below
    60) and seconds (below 60) of the uptime in whole seconds.  It prints
    the largest non-zero unit and the units below it, except that seconds
    are printed only when the uptime is shorter than an hour; an uptime
    below one minute prints as seconds alone. *)
Theorem formatUptime_components (ms : Z) :
  (0 <= ms)%Z ->
  exists d h m s : Z,
    (0 <= d /\ 0 <= h < 24 /\ 0 <= m < 60 /\ 0 <= s < 60)%Z
    /\ (ms / 1000 = ((d * 24 + h) * 60 + m) * 60 + s)%Z
    /\ DiscordRuntime.formatUptime ms
       = if (0 <? d)%Z then
           DiscordRuntime.ofInt d ++ "d " ++ DiscordRuntime.ofInt h ++ "h "
             ++ DiscordRuntime.ofInt m ++ "m"
         else if (0 <? h)%Z then
           DiscordRuntime.ofInt h ++ "h " ++ DiscordRuntime.ofInt m ++ "m"
         else if (0 <? m)%Z then
           DiscordRuntime.ofInt m ++ "m " ++ DiscordRuntime.ofInt s ++ "s"
         else DiscordRuntime.ofInt s ++ "s".
Proof.
  intros Hms. unfold DiscordRuntime.formatUptime.
  set (seconds := (ms / 1000)%Z).
  set (minutes := (seconds / 60)%Z).
  set (hours := (minutes / 60)%Z).
  set (days := (hours / 24)%Z).
  assert (Hs : (0 <= seconds)%Z) by (apply Z.div_pos; lia).
  assert (Hm : (0 <= minutes)%Z) by (apply Z.div_pos; lia).
  assert (Hh : (0 <= hours)%Z) by (apply Z.div_pos; lia).
  assert (Hd : (0 <= days)%Z) by (apply Z.div_pos; lia).
  rewrite !Z.rem_mod_nonneg by lia.
  pose proof (Z.div_mod seconds 60 ltac:(lia)) as Es.
  pose proof (Z.div_mod minutes 60 ltac:(lia)) as Em.
  pose proof (Z.div_mod hours 24 ltac:(lia)) as Eh.
  pose proof (Z.mod_pos_bound seconds 60 ltac:(lia)) as Bs.
  pose proof (Z.mod_pos_bound minutes 60 ltac:(lia)) as Bm.
  pose proof (Z.mod_pos_bound hours 24 ltac:(lia)) as Bh.
  fold minutes in Es. fold hours in Em. fold days in Eh.
  exists days, (hours mod 24)%Z, (minutes mod 60)%Z, (seconds mod 60)%Z.
  split; [lia|]. split; [lia|].
  destruct (0 <? days)%Z eqn:Ed; [reflexivity|].
  apply Z.ltb_ge in Ed.
  assert (Hh' : (hours mod 24 = hours)%Z) by lia. rewrite Hh'.
  destruct (0 <? hours)%Z eqn:Eh'; [reflexivity|].
  apply Z.ltb_ge in Eh'.
  assert (Hm' : (minutes mod 60 = minutes)%Z) by lia. rewrite Hm'.
  destruct (0 <? minutes)%Z eqn:Em'; [reflexivity|].
  apply Z.ltb_ge in Em'.
  assert (Hs' : (seconds mod 60 = seconds)%Z) by lia. now rewrite Hs'.
Qed.

Lemma formatUptime_components_witness :
  exists d h m s : Z,
    (0 <= d /\ 0 <= h < 24 /\ 0 <= m < 60 /\ 0 <= s < 60)%Z
    /\ (93784567 / 1000 = ((d * 24 + h) * 60 + m) * 60 + s)%Z
    /\ DiscordRuntime.formatUptime 93784567
       = if (0 <? d)%Z then
           DiscordRuntime.ofInt d ++ "d " ++ DiscordRuntime.ofInt h ++ "h "
             ++ DiscordRuntime.ofInt m ++ "m"
         else if (0 <? h)%Z then
           DiscordRuntime.ofInt h ++ "h " ++ DiscordRuntime.ofInt m ++ "m"
         else if (0 <? m)%Z then
           DiscordRuntime.ofInt m ++ "m " ++ DiscordRuntime.ofInt s ++ "s"
         else DiscordRuntime.ofInt s ++ "s".
Proof.
  apply (formatUptime_components 93784567). lia.
Defined.

Example formatUptime_samples :
  DiscordRuntime.formatUptime 93784567 = "1d 2h 3m"
  /\ DiscordRuntime.formatUptime 7384000 = "2h 3m"
  /\ DiscordRuntime.formatUptime 184999 = "3m 4s"
  /\ DiscordRuntime.formatUptime 999 = "0s".
Proof. vm_compute. repeat split. Qed.

(* ================================================================== *)
(** * More on the page validator *)
(* ================================================================== *)

(** The scan answers nothing exactly when no signature of the list
    occurs in the markup or in the body text. *)
Lemma firstMatch_none (patterns : list string) (html bodyText : string) :
  firstMatch patterns html bodyText = None
  <-> forall p, In p patterns ->
                includes html p = false /\ includes bodyText p = false.
Proof.
  induction patterns as [|x rest IH]; simpl.
  - split; [intros _ p [] | reflexivity].
  - destruct (includes html x || includes bodyText x) eqn:E.
    + split; [discriminate|]. intros H.
      destruct (H x (or_introl eq_refl)) as [H1 H2].
      rewrite H1, H2 in E. discriminate.
    + apply orb_false_iff in E. rewrite IH. split.
      * intros H p [<-|Hin]; [exact E | now apply H].
      * intros H p Hin. apply H. now right.
Qed.

(** The signature the scan answers is the first of the list that occurs. *)
Lemma firstMatch_first (patterns : list string) (html bodyText p : string) :
  firstMatch patterns html bodyText = Some p ->
  exists earlier later,
    patterns = (earlier ++ p :: later)%list
    /\ (includes html p = true \/ includes bodyText p = true)
    /\ forall q, In q earlier ->
                 includes html q = false /\ includes bodyText q = false.
Proof.
  induction patterns as [|x rest IH]; simpl; [discriminate|].
  destruct (includes html x || includes bodyText x) eqn:E.
  - intros [= <-]. exists [], rest. split; [reflexivity|].
    split; [now apply orb_true_iff | intros q []].
  - intros H. destruct (IH H) as (earlier & later & -> & Hp & Hq).
    exists (x :: earlier), later. split; [reflexivity|]. split; [exact Hp|].
    apply orb_false_iff in E.
    intros q [<-|Hin]; [exact E | now apply Hq].
Qed.

Section Verdicts.

Variable Cheerio : Type.
Variable load : string -> Completion Cheerio.
Variable selectLength : Cheerio -> string -> Completion nat.
Variable selectText : Cheerio -> string -> Completion string.

Local Abbreviation check := (isInvalidPage Cheerio load selectLength selectText).

Ltac run_check :=
  cbv beta iota zeta delta
    [isInvalidPage try_catch bind PageValidator.url PageValidator.content
     emit lift ret await promise_catch throw urlFalsy urlIs invalid reason].

Ltac split_on_test :=
  match goal with
  | |- context [if ?b then _ else _] => destruct b eqn:?
  end; run_check.

Lemma tests_ordinaryUrl (u : string) :
  negb (truthy u) || (u =? "about:blank")%string || (u =? "")%string = false ->
  startsWith u "chrome-error://" || startsWith u "edge://" = false ->
  ordinaryUrl u.
Proof.
  intros T1 T2. apply orb_false_iff in T1 as [T1 _].
  apply orb_false_iff in T1 as [T0 T1]. apply orb_false_iff in T2 as [T2 T3].
  apply negb_false_iff, truthy_true in T0. apply String.eqb_neq in T1.
  repeat split; assumption.
Qed.

(** X15. [isInvalidPage] reports a page as valid exactly when its URL is
    neither blank nor on a browser error scheme, its content is
    retrieved and has at least 100 characters, the parser and both DOM
    queries succeed, the body does not carry the neterror class, and no
    signature of the catalogue occurs in the markup or in the body
    text. *)
Theorem page_valid_exactly (page : Page) (tr : list Event) :
  (exists r tr', check page tr = (Normal r, tr') /\ invalid r = false)
  <-> exists u html d bodyText,
        page_url page = Normal (Some u)
        /\ ordinaryUrl u
        /\ page_content page = Resolved html
        /\ 100 <= String.length html
        /\ load html = Normal d
        /\ selectLength d "body.neterror" = Normal 0
        /\ selectText d "body" = Normal bodyText
        /\ forall p, In p errorPatterns ->
                     includes html p = false /\ includes bodyText p = false.
Proof.
  split.
  - intros (r & tr' & E & Hr). revert E. run_check.
    destruct (page_url page) as [[u|]|e] eqn:Hu; run_check;
      [ | intros [= <- _]; discriminate .. ].
    split_on_test; [intros [= <- _]; discriminate|].
    split_on_test; [intros [= <- _]; discriminate|].
    destruct (page_content page) as [html|e] eqn:Hc; run_check;
      [ | intros [= <- _]; discriminate ].
    split_on_test; [intros [= <- _]; discriminate|].
    destruct (load html) as [d|e] eqn:Hl; run_check;
      [ | intros [= <- _]; discriminate ].
    destruct (selectLength d "body.neterror") as [[|n]|e] eqn:Hn; run_check;
      [ | intros [= <- _]; discriminate .. ].
    destruct (selectText d "body") as [bodyText|e] eqn:Ht; run_check;
      [ | intros [= <- _]; discriminate ].
    destruct (firstMatch errorPatterns html bodyText) as [q|] eqn:Hm; run_check;
      [ intros [= <- _]; discriminate | ].
    intros _. exists u, html, d, bodyText.
    match goal with
    | H : _ || Nat.ltb (String.length html) 100 = false |- _ =>
        apply orb_false_iff in H as [_ Hlen]; apply Nat.ltb_ge in Hlen
    end.
    do 7 (split; [first [reflexivity | assumption | now apply tests_ordinaryUrl]|]).
    now apply firstMatch_none.
  - intros (u & html & d & bodyText & Hu & Hord & Hc & Hlen & Hl & Hn & Ht & Hnone).
    apply ordinaryUrl_tests in Hord as [T1 T2].
    apply firstMatch_none in Hnone.
    assert (Hnonempty : truthy html = true).
    { destruct html; [simpl in Hlen; lia | reflexivity]. }
    apply Nat.ltb_ge in Hlen.
    exists {| invalid := false; reason := None |}.
    eexists. split; [|reflexivity].
    run_check. rewrite Hu. run_check. rewrite T1, T2, Hc. run_check.
    rewrite Hnonempty, Hlen. cbn [negb orb].
    rewrite Hl. run_check. rewrite Hn. run_check. rewrite Ht. run_check.
    rewrite Hnone. reflexivity.
Qed.

(** X16. When [isInvalidPage] gives the reason "HTTP/network error: p",
    [p] is a signature of the catalogue that occurs in the retrieved
    markup or in the body text, and no signature listed before [p]
    occurs in either: the first match in catalogue order is the one
    reported. *)
Theorem reported_signature_is_first_match
    (page : Page) (tr tr' : list Event) (r : PageCheckResult) (p : string) :
  check page tr = (Normal r, tr') ->
  reason r = Some ("HTTP/network error: " ++ p) ->
  exists html d bodyText earlier later,
    page_content page = Resolved html
    /\ load html = Normal d
    /\ selectText d "body" = Normal bodyText
    /\ errorPatterns = (earlier ++ p :: later)%list
    /\ (includes html p = true \/ includes bodyText p = true)
    /\ forall q, In q earlier ->
                 includes html q = false /\ includes bodyText q = false.
Proof.
  run_check.
  destruct (page_url page) as [[u|]|e] eqn:Hu; run_check;
    [ | intros [= <- _]; cbn [String.append]; discriminate .. ].
  split_on_test; [intros [= <- _]; cbn [String.append]; discriminate|].
  split_on_test; [intros [= <- _]; cbn [String.append]; discriminate|].
  destruct (page_content page) as [html|e] eqn:Hc; run_check;
    [ | intros [= <- _]; cbn [String.append]; discriminate ].
  split_on_test; [intros [= <- _]; cbn [String.append]; discriminate|].
  destruct (load html) as [d|e] eqn:Hl; run_check;
    [ | intros [= <- _]; cbn [String.append]; discriminate ].
  destruct (selectLength d "body.neterror") as [[|n]|e] eqn:Hn; run_check;
    [ | intros [= <- _]; cbn [String.append]; discriminate .. ].
  destruct (selectText d "body") as [bodyText|e] eqn:Ht; run_check;
    [ | intros [= <- _]; cbn [String.append]; discriminate ].
  destruct (firstMatch errorPatterns html bodyText) as [q|] eqn:Hm; run_check;
    [ | intros [= <- _]; discriminate ].
  intros [= <- _]. cbn [String.append]. intros [= <-].
  destruct (firstMatch_first _ _ _ _ Hm) as (earlier & later & He & Hp & Hq).
  exists html, d, bodyText, earlier, later.
  do 5 (split; [first [reflexivity | assumption]|]). exact Hq.
Qed.

(** X17. A page whose URL is on a browser-internal error scheme
    (chrome-error:// or edge://) is classified invalid with reason
    "browser error page", and the only call made on the page is [url()]:
    no content is retrieved. *)
Theorem browser_error_page_first (page : Page) (u : string) (tr : list Event) :
  page_url page = Normal (Some u) ->
  startsWith u "chrome-error://" = true \/ startsWith u "edge://" = true ->
  check page tr
  = (Normal {| invalid := true; reason := Some "browser error page" |},
     (tr ++ [EvUrl])%list).
Proof.
  intros Hu Hscheme. run_check. rewrite Hu. run_check.
  assert (Hnot : negb (truthy u) || (u =? "about:blank")%string || (u =? "")%string
                 = false).
  { destruct Hscheme as [H|H]; destruct u as [|c u]; try discriminate H;
      destruct (String.eqb_spec (String c u) "about:blank") as [E|_];
      try reflexivity; rewrite E in H; discriminate H. }
  rewrite Hnot.
  assert (Hyes : startsWith u "chrome-error://" || startsWith u "edge://" = true)
    by (apply orb_true_iff; exact Hscheme).
  now rewrite Hyes.
Qed.

End Verdicts.

(** X19. [validateActivityDomain] is not protected: when [page.url()]
    throws, or answers no string, the function throws in turn, having
    made that one call and logged nothing. *)
Theorem validateActivityDomain_unprotected
    (page : Page) (bot : MicrosoftRewardsBot) (tr : list Event) :
  (forall u, page_url page <> Normal (Some u)) ->
  exists e,
    validateActivityDomain page bot tr = (Throw e, (tr ++ [EvUrl])%list)
    /\ forall e0, page_url page = Throw e0 -> e = e0.
Proof.
  intros Hno.
  unfold validateActivityDomain, PageValidator.url, bind, emit, lift, throw.
  destruct (page_url page) as [[u|]|e] eqn:Hu.
  - now destruct (Hno u).
  - eexists. split; [reflexivity | discriminate].
  - exists e. split; [reflexivity | now intros e0 [= <-]].
Qed.

Lemma reported_signature_is_first_match_witness :
  let markup := filler ++ "This site can't be reached ERR_CONNECTION_RESET" in
  exists html d bodyText earlier later,
    page_content
      (samplePage (Some "https://rewards.bing.com/") (Resolved markup) (Resolved tt))
    = Resolved html
    /\ sampleLoad html = Normal d
    /\ sampleText d "body" = Normal bodyText
    /\ errorPatterns = (earlier ++ "This site can't be reached" :: later)%list
    /\ (includes html "This site can't be reached" = true
        \/ includes bodyText "This site can't be reached" = true)
    /\ forall q, In q earlier ->
                 includes html q = false /\ includes bodyText q = false.
Proof.
  intros markup.
  apply (reported_signature_is_first_match string sampleLoad sampleLength sampleText
           (samplePage (Some "https://rewards.bing.com/") (Resolved markup) (Resolved tt))
           [] [EvUrl; EvContent]
           {| invalid := true;
              reason := Some "HTTP/network error: This site can't be reached" |}
           "This site can't be reached").
  - vm_compute. reflexivity.
  - reflexivity.
Defined.

Lemma browser_error_page_first_witness :
  sampleCheck
    (samplePage (Some "chrome-error://chromewebdata/") (Resolved filler) (Resolved tt)) []
  = (Normal {| invalid := true; reason := Some "browser error page" |}, [EvUrl]).
Proof.
  apply (browser_error_page_first string sampleLoad sampleLength sampleText
           (samplePage (Some "chrome-error://chromewebdata/") (Resolved filler)
              (Resolved tt))
           "chrome-error://chromewebdata/" []).
  - reflexivity.
  - left. reflexivity.
Defined.

Lemma validateActivityDomain_unprotected_witness :
  exists e,
    validateActivityDomain crashedPage sampleBot [] = (Throw e, [EvUrl])
    /\ forall e0, page_url crashedPage = Throw e0 -> e = e0.
Proof.
  apply (validateActivityDomain_unprotected crashedPage sampleBot []).
  intros u. discriminate.
Defined.

(** X18. The handler of /accounts reads the accounts file once and
    then either sends one reply, which is private and holds exactly one
    embed, or (only when loading failed with a message too long for a
    description) throws without replying.  When loading fails with a
    message that fits, the reply carries 'Failed to load accounts: '
    and the loader's message; when the list of accounts is longer than
    a description may be, the reply carries the builder's refusal in
    place of the list. *)
Theorem accounts_reply_always_private
    (Account : Type) (email : Account -> string)
    (world : DiscordRuntime.World Account) :
  let answer := DiscordRuntime.loadAccounts world in
  let outcome := DiscordRuntime.handleAccounts Account email world DiscordRuntime.fresh in
  let failure message := "Failed to load accounts: " ++ message in
  let failed text :=
    {| DiscordRuntime.responseContent := None;
       DiscordRuntime.responseEmbeds :=
         [ {| DiscordRuntime.richTitle := "❌ Error";
              DiscordRuntime.richDescription := Some text;
              DiscordRuntime.richColor := DiscordBot.COLOR_RED;
              DiscordRuntime.richFields := [];
              DiscordRuntime.richFooter := None |} ];
       DiscordRuntime.responseEphemeral := true |} in
  let replying r :=
    (Normal tt,
     {| DiscordRuntime.calls :=
          [DiscordRuntime.EvLoadAccounts; DiscordRuntime.EvReply r];
        DiscordRuntime.replied := true;
        DiscordRuntime.deferred := false |}) in
  ((exists r,
      outcome = replying r
      /\ DiscordRuntime.responseEphemeral r = true
      /\ List.length (DiscordRuntime.responseEmbeds r) = 1
      /\ DiscordRuntime.responseContent r = None)
   \/ (exists e,
         answer = Throw e
         /\ 4096 < String.length (failure (errorText e))
         /\ outcome
            = (Throw (ErrorObject "Received one or more errors"),
               {| DiscordRuntime.calls := [DiscordRuntime.EvLoadAccounts];
                  DiscordRuntime.replied := false;
                  DiscordRuntime.deferred := false |})))
  /\ (forall e, answer = Throw e ->
                String.length (failure (errorText e)) <= 4096 ->
                outcome = replying (failed (failure (errorText e))))
  /\ (forall accounts,
        answer = Normal accounts ->
        4096 < String.length (DiscordBot.accountList Account email accounts) ->
        outcome = replying (failed (failure "Received one or more errors"))).
Proof.
  cbv zeta.
  assert (Hrun : forall c,
             fst (DiscordBot.handleAccounts Account email
                    (DiscordRuntime.loadAccounts world)) = c ->
             DiscordRuntime.handleAccounts Account email world DiscordRuntime.fresh
             = match c with
               | Normal r =>
                   (Normal tt,
                    {| DiscordRuntime.calls :=
                         [DiscordRuntime.EvLoadAccounts;
                          DiscordRuntime.EvReply (DiscordRuntime.ofReply r)];
                       DiscordRuntime.replied := true;
                       DiscordRuntime.deferred := false |})
               | Throw e =>
                   (Throw e,
                    {| DiscordRuntime.calls := [DiscordRuntime.EvLoadAccounts];
                       DiscordRuntime.replied := false;
                       DiscordRuntime.deferred := false |})
               end).
  { intros c <-. unfold DiscordRuntime.handleAccounts.
    cbv beta iota zeta delta
      [Stateful.bind Stateful.lift Stateful.modify DiscordRuntime.record
       DiscordRuntime.reply DiscordRuntime.fresh DiscordRuntime.calls
       DiscordRuntime.replied DiscordRuntime.deferred app].
    destruct (fst (DiscordBot.handleAccounts Account email
                     (DiscordRuntime.loadAccounts world))); reflexivity. }
  destruct (DiscordRuntime.loadAccounts world) as [accounts|e] eqn:Hload.
  - split; [|split; [discriminate|]].
    + left.
      destruct (handleAccounts_replies Account email accounts)
        as (reply & Hreply & Heph & Hone).
      rewrite (Hrun _ Hreply). exists (DiscordRuntime.ofReply reply).
      split; [reflexivity|]. split; [exact Heph|]. split; [|reflexivity].
      cbn [DiscordRuntime.ofReply DiscordRuntime.responseEmbeds].
      now rewrite length_map.
    + intros accounts' [= <-] Hlong.
      now rewrite (Hrun _ (handleAccounts_too_long Account email accounts Hlong)).
  - pose proof (handleAccounts_load_failure Account email e) as Hfail.
    cbv zeta in Hfail.
    destruct (Nat.leb (String.length ("Failed to load accounts: " ++ errorText e)) 4096)
      eqn:Hfit.
    + rewrite (Hrun _ Hfail).
      split; [|split; [|discriminate]].
      * left. eexists. split; [reflexivity|]. repeat split.
      * now intros e' [= <-] _.
    + rewrite (Hrun _ Hfail). apply Nat.leb_gt in Hfit.
      split; [|split; [|discriminate]].
      * right. exists e. repeat split. exact Hfit.
      * intros e' [= <-] Hle. exfalso. apply (Nat.lt_irrefl _ (Nat.le_lt_trans _ _ _ Hle Hfit)).
Qed.

(* ================================================================== *)
(** * Properties of the installer *)
(* ================================================================== *)

Section InstallerProperties.

Variable accountsPath examplePath markerPath : string.
Variable win32 : bool.
Variable child : string -> list string -> Installer.FileSystem
                 -> option Z * Installer.FileSystem.
Variable now : string.

Local Abbreviation createAccountsFile :=
  (Installer.createAccountsFile accountsPath examplePath).
Local Abbreviation installPlaywrightBrowsers :=
  (Installer.installPlaywrightBrowsers markerPath win32 child now).
Local Abbreviation npx := (if win32 then "npx.cmd" else "npx").

Ltac run_setup :=
  cbv beta iota zeta delta
    [Installer.createAccountsFile Installer.installPlaywrightBrowsers
     Installer.runCommand Installer.log Installer.warn Installer.error
     Installer.say Installer.files Installer.output
     Stateful.try_catch Stateful.bind Stateful.ret Stateful.throw
     Stateful.get Stateful.modify Stateful.await].

(** X20. [createAccountsFile] never overwrites an existing accounts file
    and touches no other file.  It returns [false] exactly when the
    accounts file was missing and the template present, and then the
    accounts file holds the content of the template; in every other case
    it returns [true] and leaves the files as they were. *)
Theorem createAccountsFile_keeps_existing (m : Installer.Machine) :
  exists b m',
    createAccountsFile m = (Normal b, m')
    /\ (b = false <->
        Installer.existsSync (Installer.files m) accountsPath = false
        /\ Installer.existsSync (Installer.files m) examplePath = true)
    /\ (forall p, p <> accountsPath ->
                  Installer.files m' p = Installer.files m p)
    /\ Installer.files m' accountsPath
       = (if b then Installer.files m accountsPath
          else Installer.files m examplePath)
    /\ (forall content,
          Installer.files m accountsPath = Some content ->
          Installer.files m' accountsPath = Some content).
Proof.
  run_setup. destruct m as [fs out]. run_setup.
  destruct (Installer.existsSync fs accountsPath) eqn:Ea.
  - eexists _, _. split; [reflexivity|]. cbn [Installer.files].
    split; [split; [discriminate | intros [[=] _]]|].
    split; [reflexivity|]. split; [reflexivity | tauto].
  - destruct (Installer.existsSync fs examplePath) eqn:Ee.
    + eexists _, _. split; [reflexivity|]. cbn [Installer.files].
      split; [tauto|]. unfold Installer.copyFile. split.
      * intros p Hp. apply String.eqb_neq in Hp. now rewrite Hp.
      * rewrite String.eqb_refl. split; [reflexivity|].
        intros content Hc. unfold Installer.existsSync in Ea.
        rewrite Hc in Ea. discriminate.
    + eexists _, _. split; [reflexivity|]. cbn [Installer.files].
      split; [split; [discriminate | intros [_ [=]]]|].
      split; [reflexivity|]. split; [reflexivity | tauto].
Qed.

(** X21. Given that the spawned child starts and exits and that writing
    the marker does not fail, [installPlaywrightBrowsers] never throws.
    When the marker exists it spawns nothing and leaves every file as it
    is.  Otherwise it spawns exactly one command,
    [npx playwright install chromium] ([npx.cmd] on Windows), on the
    files as they are; when that command exits with code 0 the marker is
    written, with the date, every other file staying as the command left
    it, and completion is logged; on any other exit the function writes nothing,
    the files stay as the command left them, and a warning is printed in
    place of an error. *)
Theorem installPlaywrightBrowsers_idempotent (m : Installer.Machine) :
  let install := [ "playwright"; "install"; "chromium" ] in
  let code := fst (child npx install (Installer.files m)) in
  let changed := snd (child npx install (Installer.files m)) in
  exists m' ext,
    installPlaywrightBrowsers m = (Normal tt, m')
    /\ Installer.output m' = (Installer.output m ++ ext)%list
    /\ (Installer.existsSync (Installer.files m) markerPath = true ->
        Installer.spawned ext = []
        /\ Installer.files m' = Installer.files m)
    /\ (Installer.existsSync (Installer.files m) markerPath = false ->
        Installer.spawned ext = [(npx, install)]
        /\ (code = Some 0%Z ->
            Installer.files m' markerPath = Some now
            /\ (forall p, p <> markerPath -> Installer.files m' p = changed p)
            /\ last ext (Installer.EvSpawn npx install)
               = Installer.EvConsole Installer.StdLog
                   "Playwright chromium install complete.")
        /\ (code <> Some 0%Z ->
            Installer.files m' = changed
            /\ last ext (Installer.EvSpawn npx install)
               = Installer.EvConsole Installer.StdWarn
                   "Failed to install Playwright chromium automatically. You can manually run: npx playwright install chromium")).
Proof.
  cbv zeta. run_setup. destruct m as [fs out]. run_setup.
  destruct (Installer.existsSync fs markerPath) eqn:Em.
  - eexists _, _. split; [reflexivity|]. cbn [Installer.files Installer.output].
    split; [reflexivity|].
    split; [intros _; split; reflexivity | discriminate].
  - destruct (child npx ["playwright"; "install"; "chromium"] fs)
      as [[[|c|c]|] changed] eqn:Ec; run_setup;
      eexists _, _; (split; [reflexivity|]);
      cbn [Installer.files Installer.output fst snd];
      (split; [rewrite <- !app_assoc; reflexivity|]);
      (split; [discriminate|]); intros _;
      (split; [reflexivity|]);
      (split; [first [ intros _; unfold Installer.writeFile;
                       split; [now rewrite String.eqb_refl|];
                       split; [|reflexivity];
                       intros p Hp; apply String.eqb_neq in Hp; now rewrite Hp
                     | discriminate ]
              | first [ intros _; split; reflexivity
                      | intros H; now destruct H ] ]).
Qed.

End InstallerProperties.

(** On a fresh checkout the accounts file is created from the template;
    a second run finds it and leaves it alone; and a failed browser
    install leaves no marker. *)
Example installer_samples :
  let create := Installer.createAccountsFile "src/accounts.jsonc"
                  "src/accounts.example.jsonc" in
  let install := Installer.installPlaywrightBrowsers ".playwright-chromium-installed"
                   false (fun _ _ files => (Some 1%Z, files))
                   "2026-01-01T00:00:00.000Z" in
  fst (create freshCheckout) = Normal false
  /\ Installer.files (snd (create freshCheckout)) "src/accounts.jsonc"
     = Some "[{ email: '', password: '' }]"
  /\ fst (create (snd (create freshCheckout))) = Normal true
  /\ Installer.spawned (Installer.output (snd (install freshCheckout)))
     = [("npx", ["playwright"; "install"; "chromium"])]
  /\ Installer.files (snd (install freshCheckout)) ".playwright-chromium-installed"
     = None.
Proof. vm_compute. repeat split. Qed.
